(** * LitePCIe loopback latency and DMA tests: probe tracking, pattern codec
      and latency statistics

    A shallow embedding of the user-space test programs under
    [handy_tests/ubuntu]:

    - [Final]      : [user/litepcie_latency_test_final.c], the pending ring,
                     the [processed] table and the running min/max/total;
    - [OptimizedV2]: [litepcie_dma_test_optimized_v2.c], [generate_pattern]
                     and [verify_pattern] driven by a 32-bit seed;
    - [DmaLatency] : [litepcie_dma_latency_test.c], [verify_pattern],
                     [update_stats], [measure_dma_latency] and
                     [calculate_percentile];
    - [RegisterLatency]: the percentiles of [litepcie_latency_test.c].

    Unsigned C integers are integers of [Z] with the wrap-around written
    out ([u32], [u64]); C arrays are lists read with [nth] and written with
    the list insert of stdpp (an index outside the array is never produced
    by the code under the stated bounds). *)

From Stdlib Require Import ZArith List Lia Bool QArith Qround.
From stdpp Require Import base list.

Local Open Scope Z_scope.

(** ** Machine integers *)

Definition u32 (x : Z) : Z := x mod 2 ^ 32.
Definition u64 (x : Z) : Z := x mod 2 ^ 64.
Definition UINT64_MAX : Z := 2 ^ 64 - 1.
Definition INT_MAX : Z := 2 ^ 31 - 1.
Definition INT_MIN : Z := - 2 ^ 31.

(** ** user/litepcie_latency_test_final.c *)

Module Final.

Definition MAX_PENDING : Z := 256.
Definition MARKER_VALUE : Z := 0xCAFEBABE.

(** [struct latency_measurement] *)
Record latency_measurement := mk_measurement {
  lm_timestamp : Z;   (* uint64_t timestamp *)
  lm_sequence : Z;    (* uint32_t sequence  *)
  lm_marker : Z       (* uint32_t marker    *)
}.

Definition zero_measurement : latency_measurement := mk_measurement 0 0 0.

(** The locals of [pcie_latency_test] together with the two software
    counters of the DMA control block that the loop advances. *)
Record test_state := mk_state {
  pending : list latency_measurement;   (* pending[MAX_PENDING] *)
  pending_head : Z;                     (* int *)
  pending_tail : Z;                     (* int *)
  processed : list Z;                   (* uint8_t processed[iterations] *)
  min_latency : Z;                      (* uint64_t *)
  max_latency : Z;                      (* uint64_t *)
  total_latency : Z;                    (* uint64_t *)
  successful : Z;                       (* uint32_t *)
  sequence : Z;                         (* uint32_t *)
  duplicates : Z;                       (* uint32_t *)
  sent : Z;                             (* uint32_t *)
  received : Z;                         (* uint32_t *)
  reader_sw_count : Z;                  (* dma.reader_sw_count *)
  writer_sw_count : Z                   (* dma.writer_sw_count *)
}.

Definition pending_at (st : test_state) (idx : Z) : latency_measurement :=
  nth (Z.to_nat idx) (pending st) zero_measurement.

Definition processed_at (st : test_state) (s : Z) : Z :=
  nth (Z.to_nat s) (processed st) 0.

(** Field updates, one per assignment form used by the loop. *)
Definition store_pending (st : test_state) (m : latency_measurement)
    (next_tail : Z) : test_state :=
  mk_state (<[Z.to_nat (pending_tail st) := m]> (pending st))
    (pending_head st) next_tail (processed st)
    (min_latency st) (max_latency st) (total_latency st) (successful st)
    (sequence st) (duplicates st) (sent st) (received st)
    (reader_sw_count st) (writer_sw_count st).

Definition commit_send (st : test_state) : test_state :=
  mk_state (pending st) (pending_head st) (pending_tail st) (processed st)
    (min_latency st) (max_latency st) (total_latency st) (successful st)
    (u32 (sequence st + 1)) (duplicates st) (u32 (sent st + 1)) (received st)
    (reader_sw_count st + 1) (writer_sw_count st).

Definition count_duplicate (st : test_state) : test_state :=
  mk_state (pending st) (pending_head st) (pending_tail st) (processed st)
    (min_latency st) (max_latency st) (total_latency st) (successful st)
    (sequence st) (u32 (duplicates st + 1)) (sent st) (received st)
    (reader_sw_count st) (writer_sw_count st).

Definition mark_processed (st : test_state) (s : Z) : test_state :=
  mk_state (pending st) (pending_head st) (pending_tail st)
    (<[Z.to_nat s := 1]> (processed st))
    (min_latency st) (max_latency st) (total_latency st) (successful st)
    (sequence st) (duplicates st) (sent st) (received st)
    (reader_sw_count st) (writer_sw_count st).

Definition record_latency (st : test_state) (latency : Z) : test_state :=
  mk_state (pending st) (pending_head st) (pending_tail st) (processed st)
    (if latency <? min_latency st then latency else min_latency st)
    (if latency >? max_latency st then latency else max_latency st)
    (u64 (total_latency st + latency)) (u32 (successful st + 1))
    (sequence st) (duplicates st) (sent st) (received st)
    (reader_sw_count st) (writer_sw_count st).

Definition count_received (st : test_state) : test_state :=
  mk_state (pending st) (pending_head st) (pending_tail st) (processed st)
    (min_latency st) (max_latency st) (total_latency st) (successful st)
    (sequence st) (duplicates st) (sent st) (u32 (received st + 1))
    (reader_sw_count st) (writer_sw_count st).

Definition release_read (st : test_state) : test_state :=
  mk_state (pending st) (pending_head st) (pending_tail st) (processed st)
    (min_latency st) (max_latency st) (total_latency st) (successful st)
    (sequence st) (duplicates st) (sent st) (received st)
    (reader_sw_count st) (writer_sw_count st + 1).

Section Test.

(** Arguments of [pcie_latency_test] and the buffer size of the DMA
    library ([DMA_BUFFER_SIZE] comes from a header outside the sources). *)
Variable iterations : Z.        (* uint32_t *)
Variable packet_size : Z.       (* uint32_t *)
Variable DMA_BUFFER_SIZE : Z.

(** [packet_size / sizeof(uint32_t)] *)
Definition packet_words : nat := Z.to_nat (packet_size / 4).

(** Indices visited by [for (int i = 2; i < packet_size / 4; i++)]. *)
Definition payload_indices : list nat := seq 2 (packet_words - 2).

(** Lines 121-132: the packet written into the write buffer. *)
Definition fill_packet (sequence : Z) : list Z :=
  let data := repeat 0 (Z.to_nat (DMA_BUFFER_SIZE / 4)) in   (* memset *)
  let data := <[0%nat := MARKER_VALUE]> data in
  let data := <[1%nat := sequence]> data in
  fold_left (fun d i => <[i := u32 (sequence + Z.of_nat i)]> d)
            payload_indices data.

(** Lines 183-190: the integrity loop, leaving at the first bad word. *)
Fixpoint check_payload (data : list Z) (rx_sequence : Z) (idxs : list nat)
    : bool :=
  match idxs with
  | [] => true
  | i :: rest =>
      if nth i data 0 =? u32 (rx_sequence + Z.of_nat i)
      then check_payload data rx_sequence rest
      else false
  end.

Definition payload_valid (data : list Z) (rx_sequence : Z) : bool :=
  check_payload data rx_sequence payload_indices.

(** Lines 117-155: the producer half of one loop iteration.  [buf_wr] tells
    whether [litepcie_dma_next_write_buffer] returned a buffer, [now] is
    the value of [get_time_us].  The result carries the packet handed to
    the DMA engine, if any. *)
Definition send_step (st : test_state) (buf_wr : bool) (now : Z)
    : test_state * option (list Z) :=
  if sent st <? iterations then
    if buf_wr then
      let data := fill_packet (sequence st) in
      let timestamp := now in
      let next_tail := Z.rem (pending_tail st + 1) MAX_PENDING in
      let st1 :=
        if negb (next_tail =? pending_head st)
        then store_pending st
               (mk_measurement timestamp (sequence st) MARKER_VALUE) next_tail
        else st in
      (commit_send st1, Some data)
    else (st, None)
  else (st, None).

(** Lines 174-204: the scan of the pending ring from [pending_head] to
    [pending_tail].  [None] means that the loop did not finish within the
    fuel; [ring_scan_terminates] below shows that [MAX_PENDING] rounds are
    enough for indices inside the ring.  The boolean is [found]. *)
Fixpoint match_pending (fuel : nat) (st : test_state) (data : list Z)
    (rx_sequence rx_time idx : Z) : option (test_state * bool) :=
  match fuel with
  | O => None
  | S fuel' =>
      if idx =? pending_tail st then Some (st, false)
      else if lm_sequence (pending_at st idx) =? rx_sequence then
        let latency := u64 (rx_time - lm_timestamp (pending_at st idx)) in
        let valid := payload_valid data rx_sequence in
        Some (if valid then record_latency st latency else st, true)
      else match_pending fuel' st data rx_sequence rx_time
             (Z.rem (idx + 1) MAX_PENDING)
  end.

(** Lines 157-216: the consumer half of one loop iteration.  [buf_rd] is
    the buffer returned by [litepcie_dma_next_read_buffer] (as 32-bit
    words), [rx_time] the value of [get_time_us]. *)
Definition recv_step (st : test_state) (buf_rd : option (list Z))
    (rx_time : Z) : option test_state :=
  match buf_rd with
  | None => Some st
  | Some data =>
      if nth 0 data 0 =? MARKER_VALUE then
        let rx_sequence := nth 1 data 0 in
        let handled :=
          if (rx_sequence <? iterations)
             && negb (processed_at st rx_sequence =? 0)
          then Some (count_duplicate st)
          else if rx_sequence <? iterations then
            match match_pending (Z.to_nat MAX_PENDING)
                    (mark_processed st rx_sequence) data rx_sequence rx_time
                    (pending_head st) with
            | Some (st', _) => Some st'
            | None => None
            end
          else Some st in
        match handled with
        | Some st' => Some (release_read (count_received st'))
        | None => None
        end
      else Some (release_read st)
  end.

(** One turn of the main loop (lines 110-222). *)
Record loop_input := mk_input {
  in_keep_running : bool;        (* the flag cleared by the signal handler *)
  in_buf_wr : bool;
  in_now : Z;
  in_buf_rd : option (list Z);
  in_rx_time : Z
}.

Definition loop_condition (st : test_state) (keep_running : bool) : bool :=
  ((sent st <? iterations) || (successful st <? sent st)) && keep_running.

Definition loop_body (st : test_state) (i : loop_input)
    : option test_state :=
  recv_step (fst (send_step st (in_buf_wr i) (in_now i)))
            (in_buf_rd i) (in_rx_time i).

(** The main loop over the turns described by [inputs]; it is left when
    its condition fails. *)
Fixpoint run (st : test_state) (inputs : list loop_input)
    : option test_state :=
  match inputs with
  | [] => Some st
  | i :: rest =>
      if loop_condition st (in_keep_running i) then
        match loop_body st i with
        | Some st' => run st' rest
        | None => None
        end
      else Some st
  end.

(** State on entry to the main loop (lines 55-107) when the flush loop
    found no stale buffer; [flushed_state] below is the general case. *)
Definition initial_state : test_state :=
  mk_state (repeat zero_measurement (Z.to_nat MAX_PENDING)) 0 0
    (repeat 0 (Z.to_nat iterations))
    UINT64_MAX 0 0 0 0 0 0 0 0 0.

(** Number of entries between head and tail of the ring. *)
Definition ledger_len (st : test_state) : Z :=
  (pending_tail st - pending_head st) mod MAX_PENDING.

(** The [k]-th live entry of the ring, counted from the head. *)
Definition ledger_entry (st : test_state) (k : Z) : latency_measurement :=
  pending_at st ((pending_head st + k) mod MAX_PENDING).

Definition ring_ok (st : test_state) : Prop :=
  0 <= pending_head st < MAX_PENDING /\
  0 <= pending_tail st < MAX_PENDING /\
  length (pending st) = Z.to_nat MAX_PENDING.

(** What holds of the state at the head of every turn of the main loop:
    the ring indices are inside the array, [processed] has one slot per
    iteration, [sequence] and [sent] agree, and the entries in the ring
    carry sequence numbers that were handed out before. *)
Definition run_inv (st : test_state) : Prop :=
  ring_ok st /\
  length (processed st) = Z.to_nat iterations /\
  sequence st = sent st /\
  0 <= sent st <= iterations /\
  forall j, 0 <= j < ledger_len st ->
            0 <= lm_sequence (ledger_entry st j) < sequence st.

(** No live entry of the ring carries sequence [s]. *)
Definition ledger_fresh (st : test_state) (s : Z) : Prop :=
  forall j, 0 <= j < ledger_len st -> lm_sequence (ledger_entry st j) <> s.

(** The counters kept by [pcie_latency_test]. *)
Definition counters (st : test_state) : list Z :=
  [sent st; received st; successful st; duplicates st].

(** The four running latency statistics. *)
Definition latency_stats (st : test_state) : Z * Z * Z * Z :=
  (successful st, min_latency st, max_latency st, total_latency st).

End Test.

(** A run with the default arguments ([-i 1000 -s 1024]) and the buffer
    size of the DMA library, in which a write buffer is at hand on each of
    the first [n] turns and no echo has come back yet. *)
Definition after_sends (n : nat) : test_state :=
  Nat.iter n (fun st => fst (send_step 1000 1024 8192 st true 0))
           (initial_state 1000).

(** A buffer that holds words foreign to the test. *)
Definition foreign_buffer : list Z :=
  0xDEADBEEF :: repeat 0 2047.

(** Number of sequence numbers below [n] that are marked in [processed]. *)
Fixpoint marked_upto (n : nat) (l : list Z) : Z :=
  match n with
  | O => 0
  | S k => marked_upto k l + (if nth k l 0 =? 0 then 0 else 1)
  end.

(** The shape of the ring along a run: the head stays on slot 0, the tail
    stands at the number of probes sent as long as that is below
    [MAX_PENDING - 1], and slot [j] below the tail holds the probe with
    sequence [j] and the marker. *)
Definition ring_shape (st : test_state) : Prop :=
  pending_head st = 0 /\
  pending_tail st = Z.min (sent st) (MAX_PENDING - 1) /\
  forall j, 0 <= j < pending_tail st ->
    lm_sequence (pending_at st j) = j /\
    lm_marker (pending_at st j) = MARKER_VALUE.

(** What one call of the consumer can do to the state. *)
Inductive recv_outcome (iterations : Z) (st : test_state)
    : option (list Z) -> test_state -> Prop :=
| recv_nothing : recv_outcome iterations st None st
| recv_foreign data :
    nth 0 data 0 <> MARKER_VALUE ->
    recv_outcome iterations st (Some data) (release_read st)
| recv_out_of_range data :
    nth 0 data 0 = MARKER_VALUE -> iterations <= nth 1 data 0 ->
    recv_outcome iterations st (Some data)
      (release_read (count_received st))
| recv_again data :
    nth 0 data 0 = MARKER_VALUE -> nth 1 data 0 < iterations ->
    processed_at st (nth 1 data 0) <> 0 ->
    recv_outcome iterations st (Some data)
      (release_read (count_received (count_duplicate st)))
| recv_unmatched data :
    nth 0 data 0 = MARKER_VALUE -> nth 1 data 0 < iterations ->
    processed_at st (nth 1 data 0) = 0 ->
    recv_outcome iterations st (Some data)
      (release_read (count_received (mark_processed st (nth 1 data 0))))
| recv_matched data k latency :
    nth 0 data 0 = MARKER_VALUE -> nth 1 data 0 < iterations ->
    processed_at st (nth 1 data 0) = 0 ->
    0 <= k < ledger_len st ->
    lm_sequence (ledger_entry st k) = nth 1 data 0 ->
    0 <= latency < 2 ^ 64 ->
    recv_outcome iterations st (Some data)
      (release_read (count_received
         (record_latency (mark_processed st (nth 1 data 0)) latency))).

(** The steps the loop can take while no echo of the probe with sequence
    [s] is read: the producer half of a turn, with or without a write
    buffer, and the consumer half with no buffer or with a buffer of 32-bit
    words that does not carry the marker together with [s]. *)
Inductive quiet_steps (iterations packet_size DMA_BUFFER_SIZE s : Z)
    (st : test_state) : test_state -> Prop :=
| quiet_start : quiet_steps iterations packet_size DMA_BUFFER_SIZE s st st
| quiet_send st1 buf_wr now :
    quiet_steps iterations packet_size DMA_BUFFER_SIZE s st st1 ->
    quiet_steps iterations packet_size DMA_BUFFER_SIZE s st
      (fst (send_step iterations packet_size DMA_BUFFER_SIZE st1 buf_wr now))
| quiet_recv st1 buf_rd rx_time st2 :
    quiet_steps iterations packet_size DMA_BUFFER_SIZE s st st1 ->
    recv_step iterations packet_size st1 buf_rd rx_time = Some st2 ->
    (forall data, buf_rd = Some data ->
       0 <= nth 1 data 0 /\
       (nth 0 data 0 = MARKER_VALUE -> nth 1 data 0 <> s)) ->
    quiet_steps iterations packet_size DMA_BUFFER_SIZE s st st2.

(** State on entry to the main loop when the flush loop of lines 93-103 has
    consumed [flushed] stale read buffers: each one advances
    [dma.writer_sw_count], and lines 105-107 reset only [sent] and
    [received]. *)
Definition flushed_state (iterations flushed : Z) : test_state :=
  mk_state (repeat zero_measurement (Z.to_nat MAX_PENDING)) 0 0
    (repeat 0 (Z.to_nat iterations))
    UINT64_MAX 0 0 0 0 0 0 0 0 flushed.

(** Nothing has been recorded yet, or the minimum is not above the
    maximum. *)
Definition extremes_ok (st : test_state) : Prop :=
  (successful st = 0 /\ min_latency st = UINT64_MAX /\
   max_latency st = 0 /\ total_latency st = 0) \/
  (0 <= min_latency st /\ min_latency st <= max_latency st /\
   max_latency st < 2 ^ 64).

(** The counters after [n] turns of the main loop entered with
    [dma.writer_sw_count = flushed]. *)
Definition tally (flushed n : Z) (st : test_state) : Prop :=
  0 <= successful st /\ 0 <= duplicates st /\
  successful st + duplicates st <= received st /\
  received st <= writer_sw_count st - flushed /\
  writer_sw_count st - flushed <= n /\
  reader_sw_count st = sent st /\ 0 <= sent st <= n.

(** Three turns in which a probe is sent and nothing is read back, as in
    [after_sends 3]. *)
Definition three_sends : list loop_input :=
  repeat (mk_input true true 0 None 0) 3.

(** Three sends, then the echo of probe 1 read back at time 50. *)
Definition sends_and_echo : list loop_input :=
  three_sends ++ [mk_input true false 0 (Some (fill_packet 1024 8192 1)) 50].

(** The packet of probe 1 with word 5 cleared on the way back. *)
Definition damaged_probe : list Z :=
  <[5%nat := 0]> (fill_packet 1024 8192 1).

(** What holds of every state of a run from [initial_state]. *)
Definition steady (iterations : Z) (st : test_state) : Prop :=
  run_inv iterations st /\
  ring_shape st /\
  0 <= successful st <= marked_upto 255 (processed st) /\
  extremes_ok st.

End Final.

(** ** litepcie_dma_test_optimized_v2.c *)

Module OptimizedV2.

Definition PATTERN_SEQ : Z := 0.
Definition PATTERN_RANDOM : Z := 1.
Definition PATTERN_ONES : Z := 2.
Definition PATTERN_ZEROS : Z := 3.
Definition PATTERN_ALT : Z := 4.

(** The fields of [dma_config_t] read by the pattern functions. *)
Record dma_config := mk_config {
  pattern_type : Z;
  verbose : bool
}.

(** One line of the verbose report: index, expected word, received word. *)
Definition mismatch : Type := (nat * Z * Z)%type.

(** [*seed = *seed * 69069 + 1] on a [uint32_t]. *)
Definition lcg_next (seed : Z) : Z := u32 (seed * 69069 + 1).

Definition alt_word (i : nat) : Z :=
  if Z.land (Z.of_nat i) 1 =? 0 then 0x00000000 else 0xFFFFFFFF.

(** [for (i = 0; i < count; i++) buffer[i] = word i] *)
Definition fill_words (word : nat -> Z) (buffer : list Z) (count : nat)
    : list Z :=
  fold_left (fun b i => <[i := word i]> b) (seq 0 count) buffer.

(** The [PATTERN_RANDOM] loop: the seed advances once per word. *)
Definition fill_random (buffer : list Z) (count : nat) (seed : Z)
    : list Z * Z :=
  fold_left (fun bs i => let seed' := lcg_next (snd bs) in
                         (<[i := seed']> (fst bs), seed'))
            (seq 0 count) (buffer, seed).

(** Lines 97-128.  Returns the buffer and the value left in [*seed]. *)
Definition generate_pattern (cfg : dma_config) (buffer : list Z)
    (count : nat) (seed : Z) : list Z * Z :=
  if pattern_type cfg =? PATTERN_SEQ then
    (fill_words (fun i => Z.land (Z.of_nat i) 0xFFFFFFFF) buffer count, seed)
  else if pattern_type cfg =? PATTERN_RANDOM then
    fill_random buffer count seed
  else if pattern_type cfg =? PATTERN_ONES then
    (fill_words (fun _ => 0xFFFFFFFF) buffer count, seed)     (* memset 0xFF *)
  else if pattern_type cfg =? PATTERN_ZEROS then
    (fill_words (fun _ => 0) buffer count, seed)              (* memset 0 *)
  else if pattern_type cfg =? PATTERN_ALT then
    (fill_words alt_word buffer count, seed)
  else (buffer, seed).

(** The loop shared by the [SEQ], [ONES], [ZEROS] and [ALT] cases of
    [verify_pattern]: count a mismatch, print it when [report] is set, and
    leave the loop as soon as [errors > 10]. *)
Fixpoint verify_scan (expected : nat -> Z) (report : bool)
    (buffer : list Z) (idxs : list nat) (errors : Z) (log : list mismatch)
    : Z * list mismatch :=
  match idxs with
  | [] => (errors, log)
  | i :: rest =>
      if nth i buffer 0 =? expected i
      then verify_scan expected report buffer rest errors log
      else
        let log' := if report
                    then log ++ [(i, expected i, nth i buffer 0)] else log in
        let errors' := errors + 1 in
        if errors' >? 10 then (errors', log')
        else verify_scan expected report buffer rest errors' log'
  end.

(** The [PATTERN_RANDOM] case: the expected word is the next seed. *)
Fixpoint verify_random (report : bool) (buffer : list Z) (idxs : list nat)
    (seed errors : Z) (log : list mismatch) : Z * Z * list mismatch :=
  match idxs with
  | [] => (errors, seed, log)
  | i :: rest =>
      let seed' := lcg_next seed in
      let expected := seed' in
      if nth i buffer 0 =? expected
      then verify_random report buffer rest seed' errors log
      else
        let log' := if report
                    then log ++ [(i, expected, nth i buffer 0)] else log in
        let errors' := errors + 1 in
        if errors' >? 10 then (errors', seed', log')
        else verify_random report buffer rest seed' errors' log'
  end.

(** Result of [verify_pattern]: the returned [errors], the value left in
    [*seed] and the lines printed. *)
Record verify_result := mk_result {
  errors : Z;
  seed_out : Z;
  printed : list mismatch
}.

(** Lines 131-196. *)
Definition verify_pattern (cfg : dma_config) (buffer : list Z) (count : nat)
    (seed : Z) : verify_result :=
  let idxs := seq 0 count in
  if pattern_type cfg =? PATTERN_SEQ then
    let r := verify_scan (fun i => Z.land (Z.of_nat i) 0xFFFFFFFF)
               (verbose cfg) buffer idxs 0 [] in
    mk_result (fst r) seed (snd r)
  else if pattern_type cfg =? PATTERN_RANDOM then
    let r := verify_random (verbose cfg) buffer idxs seed 0 [] in
    mk_result (fst (fst r)) (snd (fst r)) (snd r)
  else if pattern_type cfg =? PATTERN_ONES then
    let r := verify_scan (fun _ => 0xFFFFFFFF) false buffer idxs 0 [] in
    mk_result (fst r) seed (snd r)
  else if pattern_type cfg =? PATTERN_ZEROS then
    let r := verify_scan (fun _ => 0) false buffer idxs 0 [] in
    mk_result (fst r) seed (snd r)
  else if pattern_type cfg =? PATTERN_ALT then
    let r := verify_scan alt_word false buffer idxs 0 [] in
    mk_result (fst r) seed (snd r)
  else mk_result 0 seed [].

(** The word expected at index [i] when verification starts from [seed]. *)
Fixpoint lcg_iter (n : nat) (seed : Z) : Z :=
  match n with
  | O => seed
  | S n' => lcg_next (lcg_iter n' seed)
  end.

Definition expected_word (cfg : dma_config) (seed : Z) (i : nat) : Z :=
  if pattern_type cfg =? PATTERN_SEQ then Z.land (Z.of_nat i) 0xFFFFFFFF
  else if pattern_type cfg =? PATTERN_RANDOM then lcg_iter (S i) seed
  else if pattern_type cfg =? PATTERN_ONES then 0xFFFFFFFF
  else if pattern_type cfg =? PATTERN_ZEROS then 0
  else alt_word i.

Definition supported (cfg : dma_config) : Prop :=
  PATTERN_SEQ <= pattern_type cfg <= PATTERN_ALT.

(** Number of indices of [idxs] at which [buffer] differs from
    [expected]. *)
Fixpoint differing (expected : nat -> Z) (buffer : list Z)
    (idxs : list nat) : Z :=
  match idxs with
  | [] => 0
  | i :: rest =>
      (if nth i buffer 0 =? expected i then 0 else 1)
      + differing expected buffer rest
  end.

(** Number of indices below [count] whose word differs from the expected
    one. *)
Definition mismatches (cfg : dma_config) (buffer : list Z) (count : nat)
    (seed : Z) : Z :=
  differing (expected_word cfg seed) buffer (seq 0 count).

Definition DMA_BUFFER_SIZE : Z := 8192.

(** [DMA_BUFFER_SIZE / sizeof(uint32_t)] *)
Definition buffer_words : nat := Z.to_nat (DMA_BUFFER_SIZE / 4).

(** The counters of [dma_stats_t] ([stats_errors] is its field
    [errors]). *)
Record dma_stats := mk_stats {
  tx_bytes : Z;       (* uint64_t *)
  rx_bytes : Z;
  tx_buffers : Z;
  rx_buffers : Z;
  stats_errors : Z;
  dma_calls : Z
}.

Definition count_tx (st : dma_stats) : dma_stats :=
  mk_stats (u64 (tx_bytes st + DMA_BUFFER_SIZE)) (rx_bytes st)
    (u64 (tx_buffers st + 1)) (rx_buffers st) (stats_errors st)
    (dma_calls st).

Definition count_rx (st : dma_stats) : dma_stats :=
  mk_stats (tx_bytes st) (u64 (rx_bytes st + DMA_BUFFER_SIZE))
    (tx_buffers st) (u64 (rx_buffers st + 1)) (stats_errors st)
    (dma_calls st).

Definition add_errors (st : dma_stats) (n : Z) : dma_stats :=
  mk_stats (tx_bytes st) (rx_bytes st) (tx_buffers st) (rx_buffers st)
    (u64 (stats_errors st + n)) (dma_calls st).

(** Lines 240-246 of [writer_thread_func]: the pattern is generated once,
    before the loop, into the [malloc]ed buffer [pattern]. *)
Definition writer_pattern (cfg : dma_config) (pattern : list Z)
    (global_seed : Z) : list Z :=
  fst (generate_pattern cfg pattern buffer_words global_seed).

(** Lines 248-286: one turn of the writer loop.  [buf] is what
    [litepcie_dma_next_write_buffer] returns; the words of [pattern] are
    copied over the DMA buffer, sixteen at a time.  The result holds the
    counters and the buffer handed to the engine. *)
Definition writer_turn (pattern : list Z) (st : dma_stats)
    (buf : option (list Z)) : dma_stats * option (list Z) :=
  match buf with
  | Some dst =>
      let dst := firstn buffer_words pattern ++ skipn buffer_words dst in
      (count_tx st, Some dst)
  | None => (st, None)
  end.

(** Lines 306-338: one turn of the reader loop on the counters and the
    local [seed].  [buf] is what [litepcie_dma_next_read_buffer]
    returns. *)
Definition reader_turn (cfg : dma_config) (verify_data : bool)
    (state : dma_stats * Z) (buf : option (list Z)) : dma_stats * Z :=
  let '(st, seed) := state in
  match buf with
  | Some buf =>
      let '(st, seed) :=
        if verify_data && (pattern_type cfg <=? PATTERN_ALT) then
          let r := verify_pattern cfg buf buffer_words seed in
          (if errors r >? 0 then add_errors st (errors r) else st,
           seed_out r)
        else (st, seed) in
      (count_rx st, seed)
  | None => (st, seed)
  end.

(** Lines 293-341: the reader loop over the buffers it is offered while
    [keep_running] is set, starting from [seed = global_seed]. *)
Definition reader_thread_func (cfg : dma_config) (verify_data : bool)
    (global_seed : Z) (st : dma_stats) (polls : list (option (list Z)))
    : dma_stats * Z :=
  fold_left (reader_turn cfg verify_data) polls (st, global_seed).

(** The buffers the writer hands to the engine (lines 226-290). *)
Definition writer_thread_func (cfg : dma_config) (pattern : list Z)
    (global_seed : Z) (st : dma_stats) (polls : list (option (list Z)))
    : dma_stats * list (list Z) :=
  let pattern := writer_pattern cfg pattern global_seed in
  fold_left
    (fun acc buf =>
       let '(st, sent) := acc in
       match writer_turn pattern st buf with
       | (st, Some b) => (st, sent ++ [b])
       | (st, None) => (st, sent)
       end)
    polls (st, []).

(** [static dma_stats_t stats = {0}] *)
Definition zero_stats : dma_stats := mk_stats 0 0 0 0 0 0.

(** Number of turns in which a buffer was available. *)
Definition buffers_offered (polls : list (option (list Z))) : Z :=
  Z.of_nat (length (List.filter (fun b => match b with Some _ => true
                                          | None => false end) polls)).

End OptimizedV2.

(** ** litepcie_dma_latency_test.c *)

Module DmaLatency.

Definition HISTOGRAM_BUCKETS : Z := 1000.

Definition PATTERN_SEQ : Z := 0.
Definition PATTERN_RANDOM : Z := 1.
Definition PATTERN_FIXED : Z := 2.
Definition PATTERN_WALKING : Z := 3.

(** The fields of [test_config_t] read by the measurement code. *)
Record test_config := mk_config {
  transfer_size : Z;   (* int *)
  iterations : Z;      (* int *)
  warmup : Z;          (* int *)
  pattern_type : Z;    (* int *)
  verify_data : bool;
  continuous : bool;
  histogram : bool;
  verbose : bool
}.

(** [latency_stats_t] with the two histogram globals and [keep_running].
    The [double] fields are kept as exact rationals: the properties below
    only depend on which fields an operation touches, not on rounding.
    A pointer that may be [NULL] is an [option]. *)
Record globals := mk_globals {
  count : Z;                           (* uint64_t stats.count *)
  errors : Z;                          (* uint64_t stats.errors *)
  min_us : Q;
  max_us : Q;
  sum_us : Q;
  sum_sq_us : Q;
  recent_samples : option (list Z);    (* uint64_t *stats.recent_samples *)
  sample_index : Z;                    (* int *)
  sample_count : Z;                    (* int *)
  latency_histogram : option (list Z); (* uint64_t *latency_histogram *)
  histogram_overflow : Z;              (* uint64_t *)
  keep_running : bool
}.

(** [(int)x] for a [double] [x] whose truncated value fits an [int]:
    truncation toward zero.  Outside that range C leaves the conversion
    undefined; [int_of_double_defined] below is the conversion with that
    case made explicit. *)
Definition int_of_double (x : Q) : Z := Z.quot (Qnum x) (Z.pos (Qden x)).

(** [(int)x] as C defines it (6.3.1.4): truncation toward zero when the
    truncated value fits an [int], and no defined result otherwise. *)
Definition int_of_double_defined (x : Q) : option Z :=
  let r := int_of_double x in
  if (INT_MIN <=? r) && (r <=? INT_MAX) then Some r else None.

(** One line printed by [verify_pattern]: index, expected, received. *)
Definition report_line : Type := (nat * Z * Z)%type.

(** Lines 140-168.  [rand] is the stream of values returned by the C
    library's [rand()], [pos] the number of calls made so far. *)
Definition generate_pattern (cfg : test_config) (rand : nat -> Z)
    (buffer : list Z) (count : nat) (iteration : Z) (pos : nat)
    : list Z * nat :=
  if pattern_type cfg =? PATTERN_SEQ then
    (fold_left (fun b i =>
        <[i := u32 (Z.lor (u32 (Z.shiftl iteration 16))
                          (Z.land (Z.of_nat i) 0xFFFF))]> b)
       (seq 0 count) buffer, pos)
  else if pattern_type cfg =? PATTERN_RANDOM then
    fold_left (fun bp i => (<[i := u32 (rand (snd bp))]> (fst bp), S (snd bp)))
       (seq 0 count) (buffer, pos)
  else if pattern_type cfg =? PATTERN_FIXED then
    (fold_left (fun b i => <[i := 0xDEADBEEF]> b) (seq 0 count) buffer, pos)
  else if pattern_type cfg =? PATTERN_WALKING then
    (fold_left (fun b i => <[i := u32 (Z.shiftl 1 (Z.of_nat i mod 32))]> b)
       (seq 0 count) buffer, pos)
  else (buffer, pos).

(** Lines 171-186: every mismatch is counted, the first ten are printed
    when [config.verbose] is set. *)
Fixpoint verify_loop (report : bool) (buffer expected : list Z)
    (idxs : list nat) (errors : Z) (log : list report_line)
    : Z * list report_line :=
  match idxs with
  | [] => (errors, log)
  | i :: rest =>
      if negb (nth i buffer 0 =? nth i expected 0) then
        let log' := if report && (errors <? 10)
                    then log ++ [(i, nth i expected 0, nth i buffer 0)]
                    else log in
        verify_loop report buffer expected rest (errors + 1) log'
      else verify_loop report buffer expected rest errors log
  end.

Definition verify_pattern (cfg : test_config) (buffer expected : list Z)
    (count : nat) : Z * list report_line :=
  verify_loop (verbose cfg) buffer expected (seq 0 count) 0 [].

(** Number of indices of [idxs] at which the two buffers differ. *)
Fixpoint count_differing (buffer expected : list Z) (idxs : list nat) : Z :=
  match idxs with
  | [] => 0
  | i :: rest =>
      (if nth i buffer 0 =? nth i expected 0 then 0 else 1)
      + count_differing buffer expected rest
  end.

Definition set_histogram (g : globals) (h : option (list Z)) (ov : Z)
    : globals :=
  mk_globals (count g) (errors g) (min_us g) (max_us g) (sum_us g)
    (sum_sq_us g) (recent_samples g) (sample_index g) (sample_count g)
    h ov (keep_running g).

Definition set_samples (g : globals) (r : option (list Z)) (idx cnt : Z)
    : globals :=
  mk_globals (count g) (errors g) (min_us g) (max_us g) (sum_us g)
    (sum_sq_us g) r idx cnt
    (latency_histogram g) (histogram_overflow g) (keep_running g).

Definition add_errors (g : globals) (n : Z) : globals :=
  mk_globals (count g) (u64 (errors g + n)) (min_us g) (max_us g) (sum_us g)
    (sum_sq_us g) (recent_samples g) (sample_index g) (sample_count g)
    (latency_histogram g) (histogram_overflow g) (keep_running g).

Definition set_keep_running (g : globals) (b : bool) : globals :=
  mk_globals (count g) (errors g) (min_us g) (max_us g) (sum_us g)
    (sum_sq_us g) (recent_samples g) (sample_index g) (sample_count g)
    (latency_histogram g) (histogram_overflow g) b.

(** Lines 194-199: count, sums, minimum and maximum. *)
Definition accumulate (g : globals) (latency_us : Q) : globals :=
  mk_globals (u64 (count g + 1)) (errors g)
    (match latency_us ?= min_us g with Lt => latency_us | _ => min_us g end)%Q
    (match latency_us ?= max_us g with Gt => latency_us | _ => max_us g end)%Q
    (sum_us g + latency_us)%Q
    (sum_sq_us g + latency_us * latency_us)%Q
    (recent_samples g) (sample_index g) (sample_count g)
    (latency_histogram g) (histogram_overflow g) (keep_running g).

(** Lines 201-209. *)
Definition update_histogram (cfg : test_config) (g : globals)
    (latency_us : Q) : globals :=
  match latency_histogram g with
  | Some hist =>
      if histogram cfg then
        let bucket := int_of_double latency_us in
        if bucket <? HISTOGRAM_BUCKETS then
          set_histogram g
            (Some (<[Z.to_nat bucket :=
                      u64 (nth (Z.to_nat bucket) hist 0 + 1)]> hist))
            (histogram_overflow g)
        else
          set_histogram g (Some hist) (u64 (histogram_overflow g + 1))
      else g
  | None => g
  end.

(** Lines 201-209 with the conversion of line 203 and the array access of
    line 205 checked: [None] when the conversion has no defined result or
    the bucket lies outside [latency_histogram]. *)
Definition update_histogram_defined (cfg : test_config) (g : globals)
    (latency_us : Q) : option globals :=
  match latency_histogram g with
  | Some hist =>
      if histogram cfg then
        match int_of_double_defined latency_us with
        | Some bucket =>
            if bucket <? HISTOGRAM_BUCKETS then
              if (0 <=? bucket) && (bucket <? Z.of_nat (length hist)) then
                Some (set_histogram g
                        (Some (<[Z.to_nat bucket :=
                                  u64 (nth (Z.to_nat bucket) hist 0 + 1)]>
                                 hist))
                        (histogram_overflow g))
              else None
            else
              Some (set_histogram g (Some hist)
                      (u64 (histogram_overflow g + 1)))
        | None => None
        end
      else Some g
  | None => Some g
  end.

(** Lines 211-218. *)
Definition store_sample (cfg : test_config) (g : globals) (latency_ns : Z)
    : globals :=
  match recent_samples g with
  | Some samples =>
      if sample_count g <? iterations cfg then
        let samples' := <[Z.to_nat (sample_index g) := latency_ns]> samples in
        let index' := Z.rem (sample_index g + 1) (iterations cfg) in
        let count' := if sample_count g <? iterations cfg
                      then sample_count g + 1 else sample_count g in
        set_samples g (Some samples') index' count'
      else g
  | None => g
  end.

(** Lines 189-221. *)
Definition update_stats (cfg : test_config) (g : globals) (latency_ns : Z)
    : globals :=
  let latency_us := Qmake latency_ns 1000 in        (* latency_ns / 1000.0 *)
  let g := accumulate g latency_us in
  let g := update_histogram cfg g latency_us in
  store_sample cfg g latency_ns.

(** Lines 189-221 with the histogram update checked. *)
Definition update_stats_defined (cfg : test_config) (g : globals)
    (latency_ns : Z) : option globals :=
  let latency_us := Qmake latency_ns 1000 in
  let g := accumulate g latency_us in
  match update_histogram_defined cfg g latency_us with
  | Some g => Some (store_sample cfg g latency_ns)
  | None => None
  end.

(** The retry loops of [measure_dma_latency]: [poll k] is the result of
    the [k]-th call of [litepcie_dma_next_*_buffer]; the loop gives up when
    [++timeout_count > 1000]. *)
Fixpoint wait_buffer {B : Type} (retries : nat) (poll : nat -> option B)
    (k : nat) : option B :=
  match poll k with
  | Some b => Some b
  | None =>
      match retries with
      | O => None
      | S retries' => wait_buffer retries' poll (S k)
      end
  end.

(** What the DMA engine and the clock do during one measurement. *)
Record dma_env := mk_env {
  write_polls : nat -> option unit;
  read_polls : nat -> option (list Z);   (* words found in the read buffer *)
  t_start : Z;                           (* get_time_ns() before the wait *)
  t_end : Z                              (* get_time_ns() after the copy  *)
}.

(** Lines 249-320.  Returns the measured latency (or [UINT64_MAX]), the
    globals and the number of [rand()] calls made. *)
Definition measure_dma_latency (cfg : test_config) (rand : nat -> Z)
    (env : dma_env) (g : globals) (write_buf : list Z) (iteration : Z)
    (pos : nat) : Z * globals * nat :=
  let words := Z.to_nat (transfer_size cfg / 4) in
  let '(write_buf, pos) :=
    generate_pattern cfg rand write_buf words iteration pos in
  let verify_buf := firstn words write_buf in        (* memcpy *)
  match wait_buffer 1000 (write_polls env) 0 with
  | None => (UINT64_MAX, g, pos)
  | Some _ =>
      let start := t_start env in
      match wait_buffer 1000 (read_polls env) 0 with
      | None => (UINT64_MAX, g, pos)
      | Some dma_read_buf =>
          let read_buf := firstn words dma_read_buf in   (* memcpy *)
          let end_ := t_end env in
          let g :=
            if verify_data cfg then
              let errors :=
                fst (verify_pattern cfg read_buf verify_buf words) in
              if errors >? 0 then add_errors g errors else g
            else g in
          (u64 (end_ - start), g, pos)
      end
  end.

(** Lines 356-370: one turn of the measurement loop, after the warm-up
    ([warmup_done] is the local flag of [latency_thread_func]).  The test
    of line 366 compares [stats.count] with [(uint64_t)config.iterations]. *)
Definition measurement_turn (cfg : test_config) (rand : nat -> Z)
    (warmup_done : bool) (env : dma_env) (g : globals) (write_buf : list Z)
    (iteration : Z) (pos : nat) : globals * nat :=
  let '(latency_ns, g, pos) :=
    measure_dma_latency cfg rand env g write_buf iteration pos in
  let g := if negb (latency_ns =? UINT64_MAX)
           then update_stats cfg g latency_ns else g in
  let g := if negb (continuous cfg) && warmup_done
              && (count g >=? u64 (iterations cfg))
           then set_keep_running g false else g in
  (g, pos).

(** [swap] of two slots through [tmp] (lines 406-408). *)
Definition swap (a : list Z) (i j : nat) : list Z :=
  let tmp := nth i a 0 in
  let a := <[i := nth j a 0]> a in
  <[j := tmp]> a.

(** The first [n] rounds of the inner loop for a given [i]. *)
Definition pass_upto (i n : nat) (a : list Z) : list Z :=
  fold_left (fun a j => if nth i a 0 >? nth j a 0 then swap a i j else a)
            (seq (S i) n) a.

(** The inner loop of the sort, [for (j = i + 1; j < count; j++)]. *)
Definition sort_pass (count i : nat) (a : list Z) : list Z :=
  pass_upto i (count - S i) a.

(** Lines 403-411, [for (i = 0; i < count - 1; i++)]. *)
Definition sort_samples (count : nat) (a : list Z) : list Z :=
  fold_left (fun a i => sort_pass count i a) (seq 0 (count - 1)) a.

(** Lines 380-419.  [p] is the requested percentile; the result is in
    microseconds. *)
Definition calculate_percentile (g : globals) (p : Q) : Q :=
  match recent_samples g with
  | None => 0%Q
  | Some samples =>
      if sample_count g =? 0 then 0%Q
      else
        let count := sample_count g in
        let sorted := firstn (Z.to_nat count) samples in     (* memcpy *)
        let sorted := sort_samples (Z.to_nat count) sorted in
        let index := int_of_double (p * inject_Z count / 100)%Q in
        let index := if index >=? count then count - 1 else index in
        Qmake (nth (Z.to_nat index) sorted 0) 1000
  end.

(** Globals when the threads start (lines 80-83 and 613-627 of [main]).
    The sample buffer comes from [malloc]; its slots are read only after
    they have been written, and are shown here as zeros. *)
Definition initial_globals (cfg : test_config) : globals :=
  mk_globals 0 0 (1000000000 # 1) 0 0 0
    (Some (repeat 0 (Z.to_nat (iterations cfg)))) 0 0
    (if histogram cfg
     then Some (repeat 0 (Z.to_nat HISTOGRAM_BUCKETS)) else None)
    0 true.

(** The first [k] slots are in their final place: each holds a value not
    above any value behind it. *)
Definition settled (k : nat) (a : list Z) : Prop :=
  forall i j, (i < k)%nat -> (i < j < length a)%nat ->
              nth i a 0 <= nth j a 0.

(** Sum of the bucket counters. *)
Definition bucket_total (g : globals) : Z :=
  match latency_histogram g with
  | Some hist => fold_right Z.add 0 hist
  | None => 0
  end.

(** [update_stats] applied to a series of latencies. *)
Definition record_all (cfg : test_config) (g : globals) (ls : list Z)
    : globals :=
  fold_left (update_stats cfg) ls g.

(** [update_stats_defined] applied to a series of latencies. *)
Fixpoint record_all_defined (cfg : test_config) (g : globals) (ls : list Z)
    : option globals :=
  match ls with
  | [] => Some g
  | l :: rest =>
      match update_stats_defined cfg g l with
      | Some g' => record_all_defined cfg g' rest
      | None => None
      end
  end.

(** The histogram is allocated, its counters are sound and they add up to
    [stats.count]. *)
Definition hist_inv (g : globals) : Prop :=
  exists hist,
    latency_histogram g = Some hist /\
    length hist = Z.to_nat HISTOGRAM_BUCKETS /\
    Forall (fun c => 0 <= c) hist /\
    0 <= histogram_overflow g /\
    bucket_total g + histogram_overflow g = count g.

(** A latency whose value in microseconds fits an [int], so that the
    conversion [(int)latency_us] is defined. *)
Definition latency_in_range (latency_ns : Z) : Prop :=
  0 <= latency_ns <= 1000 * INT_MAX + 999.

(** The configuration that [main] starts from (lines 101-114), with the
    fields that options [-n], [-p] and [-C] set. *)
Definition config_with (n pattern : Z) (cont : bool) : test_config :=
  mk_config 64 n 1000 pattern true cont true false.

(** An engine that has a write buffer at once and returns [words] on the
    first poll of the read side, [t1 - t0] nanoseconds later. *)
Definition prompt_env (words : list Z) (t0 t1 : Z) : dma_env :=
  mk_env (fun _ => Some tt) (fun _ => Some words) t0 t1.

(** The fixed pattern with its fourth word damaged on the way back. *)
Definition damaged_words : list Z :=
  <[3%nat := 0]> (repeat 0xDEADBEEF 16).

(** Lines 348-353: the warm-up loop (its guard on [config.warmup] is in
    [latency_thread_func] below).  [env_of k] is what the engine and the
    clock do during the [k]-th call of [measure_dma_latency]; the [uint32_t]
    [iteration] counts these calls.  Each call fills the same words of
    [write_buf] anew, so the buffer is not threaded through.  The returned
    latencies are dropped. *)
Fixpoint warmup_loop (cfg : test_config) (rand : nat -> Z)
    (env_of : nat -> dma_env) (n : nat) (g : globals) (write_buf : list Z)
    (k pos : nat) : globals * nat * nat :=
  match n with
  | O => (g, k, pos)
  | S n' =>
      if keep_running g then
        let '(_, g, pos) :=
          measure_dma_latency cfg rand (env_of k) g write_buf
            (u32 (Z.of_nat k)) pos in
        warmup_loop cfg rand env_of n' g write_buf (S k) pos
      else (g, k, pos)
  end.

(** Lines 356-370: [while (keep_running)], followed for at most [turns]
    turns. *)
Fixpoint measurement_loop (cfg : test_config) (rand : nat -> Z)
    (warmup_done : bool) (env_of : nat -> dma_env) (turns : nat)
    (g : globals) (write_buf : list Z) (k pos : nat)
    : globals * nat * nat :=
  match turns with
  | O => (g, k, pos)
  | S turns' =>
      if keep_running g then
        let '(g, pos) :=
          measurement_turn cfg rand warmup_done (env_of k) g write_buf
            (u32 (Z.of_nat k)) pos in
        measurement_loop cfg rand warmup_done env_of turns' g write_buf
          (S k) pos
      else (g, k, pos)
  end.

(** Lines 323-377, with the buffers allocated: the warm-up, then the
    measurement loop.  The result holds the globals, the number of
    measurements started and the number of [rand()] calls. *)
Definition latency_thread_func (cfg : test_config) (rand : nat -> Z)
    (env_of : nat -> dma_env) (turns : nat) (g : globals)
    (write_buf : list Z) : globals * nat * nat :=
  if (warmup cfg >? 0) && negb (continuous cfg) then
    let '(g, k, pos) :=
      warmup_loop cfg rand env_of (Z.to_nat (warmup cfg)) g write_buf 0 0 in
    measurement_loop cfg rand true env_of turns g write_buf k pos
  else
    measurement_loop cfg rand false env_of turns g write_buf 0%nat 0%nat.

(** The sample buffer holds every sample counted so far, in order of
    arrival. *)
Definition samples_in_step (cfg : test_config) (g : globals) : Prop :=
  exists samples,
    recent_samples g = Some samples /\
    length samples = Z.to_nat (iterations cfg) /\
    0 <= count g /\ count g <= iterations cfg /\
    sample_count g = count g /\
    sample_index g = (if count g <? iterations cfg then count g else 0).

End DmaLatency.

(** ** litepcie_latency_test.c *)

Module RegisterLatency.

(** The percentile fields of [latency_stats_t], in microseconds. *)
Record percentiles := mk_percentiles {
  p50 : Q;
  p90 : Q;
  p95 : Q;
  p99 : Q
}.

Section Stats.

(** [qsort(latencies, count, sizeof(uint64_t), compare_uint64)] of the C
    library, on the first [count] slots. *)
Variable qsort : list Z -> list Z.

(** Lines 121-122 and 137-141 of [calculate_stats]: the array is sorted in
    place and read at [count * p / 100], in [int] arithmetic.  The
    products are those of the code as long as [count * 99] fits an [int];
    past that the signed multiplication overflows, which C leaves
    undefined. *)
Definition calculate_percentiles (latencies : list Z) (count : Z)
    : percentiles :=
  let latencies := qsort latencies in
  let at_ (index : Z) := Qmake (nth (Z.to_nat index) latencies 0) 1000 in
  mk_percentiles
    (at_ (Z.quot (count * 50) 100))
    (at_ (Z.quot (count * 90) 100))
    (at_ (Z.quot (count * 95) 100))
    (at_ (Z.quot (count * 99) 100)).

End Stats.

End RegisterLatency.

(** ** kernel/litepcie_latency.c *)

Module KernelLatency.

Definition EINVAL : Z := 22.
Definition EIO : Z := 5.
Definition ULLONG_MAX : Z := 2 ^ 64 - 1.

(** [struct litepcie_ioctl_latency] (kernel/litepcie_latency.h). *)
Record litepcie_ioctl_latency := mk_latency {
  iterations : Z;   (* uint32_t *)
  min_ns : Z;       (* uint64_t *)
  max_ns : Z;
  avg_ns : Z;
  total_ns : Z
}.

(** What the device and the clock do during the test: [ktime k] is the
    value of the [k]-th call of [ktime_get_ns], [scratch i v] the value the
    scratch register reads back in iteration [i], after [v] was written. *)
Record litepcie_device := mk_device {
  ktime : nat -> Z;
  scratch : nat -> Z -> Z
}.

(** The locals [min_ns], [max_ns] and [total_ns] of the test. *)
Record totals := mk_totals {
  t_min : Z;
  t_max : Z;
  t_total : Z
}.

(** [test_val = 0xDEADBEEF ^ i] *)
Definition test_val (i : nat) : Z := Z.lxor 0xDEADBEEF (Z.of_nat i).

(** [latency_ns = end_ns - start_ns] of iteration [i]. *)
Definition latency_ns (dev : litepcie_device) (i : nat) : Z :=
  u64 (ktime dev (2 * i + 1) - ktime dev (2 * i)).

(** Lines 70-100: the measurement loop from iteration [i] on, with [n]
    iterations to go.  [None] is the early return on a data mismatch. *)
Fixpoint measure (dev : litepcie_device) (n i : nat) (acc : totals)
    : option totals :=
  match n with
  | O => Some acc
  | S n' =>
      let readback := scratch dev i (test_val i) in
      if negb (readback =? test_val i) then None
      else
        let latency := latency_ns dev i in
        let total := u64 (t_total acc + latency) in
        let min := if latency <? t_min acc then latency else t_min acc in
        let max := if latency >? t_max acc then latency else t_max acc in
        measure dev n' (S i) (mk_totals min max total)
  end.

(** Lines 46-116.  The result is the returned code and the caller's
    structure as the function leaves it. *)
Definition litepcie_latency_test (dev : option litepcie_device)
    (lat : option litepcie_ioctl_latency)
    : Z * option litepcie_ioctl_latency :=
  match dev, lat with
  | Some dev, Some lat =>
      let n := if iterations lat >? 100000 then 100000 else iterations lat in
      let n := if n =? 0 then 1000 else n in
      match measure dev (Z.to_nat n) 0 (mk_totals ULLONG_MAX 0 0) with
      | None =>
          (- EIO,
           Some (mk_latency n (min_ns lat) (max_ns lat) (avg_ns lat)
                   (total_ns lat)))
      | Some acc =>
          (0,
           Some (mk_latency n (t_min acc) (t_max acc) (t_total acc / n)
                   (t_total acc)))
      end
  | _, _ => (- EINVAL, lat)
  end.

(** The number of iterations the test runs for a requested number. *)
Definition effective_iterations (requested : Z) : Z :=
  let n := if requested >? 100000 then 100000 else requested in
  if n =? 0 then 1000 else n.

(** Sum of the latencies of iterations [i], ..., [i + n - 1]. *)
Definition latency_sum (dev : litepcie_device) (i n : nat) : Z :=
  fold_right Z.add 0 (map (latency_ns dev) (seq i n)).

(** A device whose scratch register works and whose clock advances by
    [step i] nanoseconds during iteration [i]. *)
Definition sound_device (step : nat -> Z) : litepcie_device :=
  mk_device (fun k => if Nat.even k then 0 else step (Nat.div2 k))
            (fun _ v => v).

(** A device whose scratch register returns a wrong value in iteration
    [bad]. *)
Definition faulty_device (bad : nat) : litepcie_device :=
  mk_device (fun k => Z.of_nat k)
            (fun i v => if Nat.eqb i bad then Z.lxor v 1 else v).

End KernelLatency.

(** ** litepcie_dma_latency_simple.c *)

Module DmaLatencySimple.

(** The fields of [latency_stats_t] that are read from the sorted array,
    in microseconds. *)
Record latency_stats := mk_stats {
  stat_min : Q;
  stat_max : Q;
  p50 : Q;
  p90 : Q;
  p95 : Q;
  p99 : Q
}.

(** Lines 136-141: the number of entries other than [UINT64_MAX], the
    value [measure_dma_latency] returns for a failed measurement. *)
Definition count_valid (latencies : list Z) : Z :=
  fold_left (fun n l => if negb (l =? UINT64_MAX) then n + 1 else n)
            latencies 0.

Section Stats.

(** [qsort(latencies, count, sizeof(uint64_t), compare_uint64)] of the C
    library. *)
Variable qsort : list Z -> list Z.

(** Lines 132-169 of [calculate_stats], for an array of [count] entries:
    [None] stands for the zeroed structure of the case without a valid
    measurement.  The indices [valid_count * p / 100] are [int]
    expressions: they are those of the code as long as [valid_count * 99]
    fits an [int]; past that the signed multiplication overflows, which C
    leaves undefined. *)
Definition calculate_stats (latencies : list Z) : option latency_stats :=
  let valid_count := count_valid latencies in
  if valid_count =? 0 then None
  else
    let latencies := qsort latencies in
    let at_ (index : Z) := Qmake (nth (Z.to_nat index) latencies 0) 1000 in
    Some (mk_stats
            (at_ 0)
            (at_ (valid_count - 1))
            (at_ (Z.quot (valid_count * 50) 100))
            (at_ (Z.quot (valid_count * 90) 100))
            (at_ (Z.quot (valid_count * 95) 100))
            (at_ (Z.quot (valid_count * 99) 100))).

End Stats.

(** A latency that is a [uint64_t] and not the failure mark. *)
Definition valid (l : Z) : Prop := 0 <= l < UINT64_MAX.

(** A statistic that is the value in microseconds of one of the valid
    entries. *)
Definition from_valid (latencies : list Z) (q : Q) : Prop :=
  exists l, In l latencies /\ valid l /\ q = Qmake l 1000.

End DmaLatencySimple.

(** ** user/litepcie_latency_test.c *)

Module UserLatency.

Definition test_pattern : Z := 0x1234567890ABCDEF.

(** [struct latency_stats]; the [double] fields are kept as exact
    rationals.  [avg_latency_us] is computed from the other fields after
    the loop. *)
Record latency_stats := mk_stats {
  min_latency_us : Q;
  max_latency_us : Q;
  total_latency_us : Q;
  count : Z                     (* uint64_t *)
}.

(** The statistics and the two software counters of the DMA control
    structure. *)
Record test_state := mk_state {
  stats : latency_stats;
  reader_sw_count : Z;
  writer_sw_count : Z
}.

(** What the DMA engine, the clock and the signal handler do during one
    iteration.  [keep_running k] is the value of the flag when the
    condition of the read wait (line 146) is tested for the [k]-th time. *)
Record loop_env := mk_env {
  write_polls : nat -> option unit;
  read_polls : nat -> option (list Z);  (* 64-bit words of the buffer *)
  keep_running : nat -> bool;           (* sig_atomic_t keep_running *)
  start_time : Z;                       (* get_time_us() *)
  end_time : Z
}.

(** [test_pattern + i], the ID in word 0. *)
Definition packet_id (i : Z) : Z := u64 (test_pattern + i).

(** [test_pattern ^ ((uint64_t)i << 32) ^ ((uint64_t)j)] *)
Definition packet_word (i : Z) (j : nat) : Z :=
  Z.lxor (Z.lxor test_pattern (u64 (Z.shiftl i 32))) (Z.of_nat j).

(** The word expected at offset [j] (lines 176-177). *)
Definition expected (i : Z) (j : nat) : Z :=
  if (j =? 0)%nat then packet_id i else packet_word i j.

(** Lines 125-132: the buffer is cleared, then the ID and the words of the
    packet are written. *)
Definition fill_packet (buffer_words : nat) (i : Z) (data_size : nat)
    : list Z :=
  let write_data := repeat 0 buffer_words in             (* memset *)
  let write_data := <[0%nat := packet_id i]> write_data in
  fold_left (fun b j => <[j := packet_word i j]> b)
            (seq 1 (data_size - 1)) write_data.

(** Lines 108-117: at most [retry] polls for a write buffer. *)
Fixpoint wait_write {B : Type} (retry : nat) (polls : nat -> option B)
    (k : nat) : option B :=
  match retry with
  | O => None
  | S retry' =>
      match polls k with
      | Some b => Some b
      | None => wait_write retry' polls (S k)
      end
  end.

(** Lines 144-163, [while (retry > 0 && keep_running)]: at most [retry]
    polls for the packet that carries [id], given up as soon as the flag is
    found cleared; a buffer with another ID is consumed
    ([writer_sw_count++]) and the wait goes on.  Returns the buffer found
    and the number of buffers consumed. *)
Fixpoint wait_own (retry : nat) (id : Z) (running : nat -> bool)
    (polls : nat -> option (list Z)) (k : nat) (consumed : Z)
    : option (list Z) * Z :=
  match retry with
  | O => (None, consumed)
  | S retry' =>
      if running k then
        match polls k with
        | Some read_data =>
            if nth 0 read_data 0 =? id then (Some read_data, consumed)
            else wait_own retry' id running polls (S k) (consumed + 1)
        | None => wait_own retry' id running polls (S k) consumed
        end
      else (None, consumed)
  end.

(** Lines 174-184: [data_valid], the loop leaving at the first
    mismatch. *)
Fixpoint check_data (i : Z) (read_data : list Z) (offsets : list nat)
    : bool :=
  match offsets with
  | [] => true
  | j :: rest =>
      if negb (nth j read_data 0 =? expected i j) then false
      else check_data i read_data rest
  end.

(** [(double)x] for a [uint64_t] [x] (line 191): [x] itself below [2 ^ 53],
    and above that the nearest multiple of the spacing of the [double]s
    around [x], a tie going to the even significand. *)
Definition double_of_u64 (x : Z) : Q :=
  let e := Z.log2 x - 52 in
  if e <=? 0 then inject_Z x
  else
    let q := Z.shiftr x e in
    let r := x mod 2 ^ e in
    let half := 2 ^ (e - 1) in
    let q := if (r <? half) || ((r =? half) && Z.even q)
             then q else q + 1 in
    inject_Z (q * 2 ^ e).

(** Lines 189-199. *)
Definition record_latency (s : latency_stats) (latency_us : Q)
    : latency_stats :=
  mk_stats
    (match latency_us ?= min_latency_us s with
     | Lt => latency_us | _ => min_latency_us s end)%Q
    (match latency_us ?= max_latency_us s with
     | Gt => latency_us | _ => max_latency_us s end)%Q
    (total_latency_us s + latency_us)%Q
    (u64 (count s + 1)).

(** Lines 103-208: one iteration of the main test loop for a packet of
    [packet_size] bytes. *)
Definition iteration (packet_size : Z) (i : Z) (env : loop_env)
    (st : test_state) : test_state :=
  let data_size := Z.to_nat (packet_size / 8) in
  match wait_write 100 (write_polls env) 0 with
  | None => st                                              (* continue *)
  | Some _ =>
      let st := mk_state (stats st) (reader_sw_count st + 1)
                  (writer_sw_count st) in
      let '(buf_rd, consumed) :=
        wait_own 1000 (packet_id i) (keep_running env) (read_polls env)
          0 0 in
      let st := mk_state (stats st) (reader_sw_count st)
                  (writer_sw_count st + consumed) in
      match buf_rd with
      | None => st                                          (* continue *)
      | Some read_data =>
          let data_valid := check_data i read_data (seq 0 data_size) in
          let st := mk_state (stats st) (reader_sw_count st)
                      (writer_sw_count st + 1) in
          if data_valid then
            let latency_us :=
              double_of_u64 (u64 (end_time env - start_time env)) in
            mk_state (record_latency (stats st) latency_us)
              (reader_sw_count st) (writer_sw_count st)
          else st
      end
  end.

(** An engine that has a write buffer at once and returns [stale] on the
    first poll of the read side and [own] on the second, in a run that is
    not interrupted. *)
Definition stale_then_own (stale own : list Z) (t0 t1 : Z) : loop_env :=
  mk_env (fun _ => Some tt)
         (fun k => match k with
                   | O => Some stale
                   | S O => Some own
                   | _ => None
                   end)
         (fun _ => true)
         t0 t1.

(** The same engine in a run that is interrupted after the first poll. *)
Definition stale_then_interrupt (stale own : list Z) (t0 t1 : Z)
    : loop_env :=
  mk_env (fun _ => Some tt)
         (fun k => match k with
                   | O => Some stale
                   | S O => Some own
                   | _ => None
                   end)
         (fun k => match k with O => true | _ => false end)
         t0 t1.

End UserLatency.

(** ** user/litepcie_latency_test_simple.c *)

Module SimpleLoopback.

(** The locals of [simple_loopback_test] and the two software counters of
    the DMA control structure. *)
Record test_state := mk_state {
  min_latency : Z;          (* uint64_t *)
  max_latency : Z;
  total_latency : Z;
  successful : Z;           (* uint32_t *)
  reader_sw_count : Z;
  writer_sw_count : Z
}.

(** What the DMA engine and the clock do during one iteration. *)
Record loop_env := mk_env {
  write_polls : nat -> option unit;
  read_polls : nat -> option (list Z);  (* 32-bit words of the buffer *)
  start_time : Z;                       (* get_time_us() *)
  end_time : Z
}.

(** [test_value = 0xDEADBEEF + iter] *)
Definition test_value (iter : Z) : Z := u32 (0xDEADBEEF + iter).

(** [test_value + i], the word written and expected at index [i]. *)
Definition word (iter : Z) (i : nat) : Z := u32 (test_value iter + Z.of_nat i).

(** Lines 96-100: every word of the buffer is written. *)
Definition fill_buffer (buffer : list Z) (iter : Z) : list Z :=
  fold_left (fun b i => <[i := word iter i]> b) (seq 0 (length buffer))
            buffer.

(** Lines 81-89 and 109-117: at most [retries] polls, until a buffer shows
    up. *)
Fixpoint wait_buffer {B : Type} (retries : nat) (polls : nat -> option B)
    (k : nat) : option B :=
  match retries with
  | O => None
  | S retries' =>
      match polls k with
      | Some b => Some b
      | None => wait_buffer retries' polls (S k)
      end
  end.

(** Lines 128-137: [valid], the loop leaving at the first mismatch. *)
Fixpoint check_words (iter : Z) (read_data : list Z) (idxs : list nat)
    : bool :=
  match idxs with
  | [] => true
  | i :: rest =>
      if negb (nth i read_data 0 =? word iter i) then false
      else check_words iter read_data rest
  end.

(** Lines 142-147. *)
Definition record_latency (st : test_state) (latency : Z) : test_state :=
  mk_state
    (if latency <? min_latency st then latency else min_latency st)
    (if latency >? max_latency st then latency else max_latency st)
    (u64 (total_latency st + latency))
    (u32 (successful st + 1))
    (reader_sw_count st) (writer_sw_count st).

(** Lines 74-153: one iteration of the main test loop, in a run that is
    not interrupted: the read wait of line 110 also ends when the signal
    handler clears [keep_running], which is taken to stay set here. *)
Definition iteration (iter : Z) (env : loop_env) (st : test_state)
    : test_state :=
  match wait_buffer 100 (write_polls env) 0 with
  | None => st                                              (* continue *)
  | Some _ =>
      let st := mk_state (min_latency st) (max_latency st)
                  (total_latency st) (successful st)
                  (reader_sw_count st + 1) (writer_sw_count st) in
      match wait_buffer 1000 (read_polls env) 0 with
      | None => st                                          (* continue *)
      | Some read_data =>
          let valid := check_words iter read_data (seq 0 16) in
          let st := mk_state (min_latency st) (max_latency st)
                      (total_latency st) (successful st)
                      (reader_sw_count st) (writer_sw_count st + 1) in
          if valid
          then record_latency st (u64 (end_time env - start_time env))
          else st
      end
  end.

(** An engine that has a write buffer at once and returns [words] on the
    first poll of the read side. *)
Definition prompt_env (words : list Z) (t0 t1 : Z) : loop_env :=
  mk_env (fun _ => Some tt) (fun _ => Some words) t0 t1.

End SimpleLoopback.

(** * Properties *)

Lemma u32_small x : 0 <= x < 2 ^ 32 -> u32 x = x.
Proof. intros H. unfold u32. apply Z.mod_small. exact H. Qed.

Lemma u64_small x : 0 <= x < 2 ^ 64 -> u64 x = x.
Proof. intros H. unfold u64. apply Z.mod_small. exact H. Qed.

Lemma u32_range x : 0 <= u32 x < 2 ^ 32.
Proof. unfold u32. apply Z.mod_pos_bound. reflexivity. Qed.

Lemma u64_range x : 0 <= u64 x < 2 ^ 64.
Proof. unfold u64. apply Z.mod_pos_bound. reflexivity. Qed.

(** ** Arrays as lists *)

Lemma nth_insert_eq {A} (l : list A) i x d :
  (i < length l)%nat -> nth i (<[i := x]> l) d = x.
Proof.
  intros H. rewrite nth_lookup, list_lookup_insert_eq by exact H. reflexivity.
Qed.

Lemma nth_insert_ne {A} (l : list A) i j x d :
  i <> j -> nth j (<[i := x]> l) d = nth j l d.
Proof.
  intros H. rewrite !nth_lookup, list_lookup_insert_ne by exact H.
  reflexivity.
Qed.

Lemma fold_insert_length {A} (f : nat -> A) (idxs : list nat) (b : list A) :
  length (fold_left (fun b i => <[i := f i]> b) idxs b) = length b.
Proof.
  revert b. induction idxs as [|i idxs IH]; intros b; simpl.
  - reflexivity.
  - rewrite IH. apply length_insert.
Qed.

Lemma fold_insert_seq_S {A} (f : nat -> A) (s n : nat) (b : list A) :
  fold_left (fun b i => <[i := f i]> b) (seq s (S n)) b =
  <[(s + n)%nat := f (s + n)%nat]>
    (fold_left (fun b i => <[i := f i]> b) (seq s n) b).
Proof. rewrite seq_S, fold_left_app. reflexivity. Qed.

(** After [for (i = s; i < s + n; i++) b[i] = f i] every slot in the range
    holds its word and the other slots are as before. *)
Lemma fold_insert_nth {A} (f : nat -> A) (d : A) (s n : nat) (b : list A) :
  (s + n <= length b)%nat ->
  forall i,
    nth i (fold_left (fun b i => <[i := f i]> b) (seq s n) b) d =
    if (s <=? i)%nat && (i <? s + n)%nat then f i else nth i b d.
Proof.
  induction n as [|n IH]; intros Hlen i.
  - simpl. replace (i <? s + 0)%nat with (i <? s)%nat
      by (f_equal; lia).
    destruct (Nat.leb_spec s i), (Nat.ltb_spec i s); try reflexivity; lia.
  - rewrite fold_insert_seq_S.
    destruct (Nat.eq_dec i (s + n)%nat) as [->|Hne].
    + rewrite nth_insert_eq by (rewrite fold_insert_length; lia).
      destruct (Nat.leb_spec s (s + n)%nat),
               (Nat.ltb_spec (s + n)%nat (s + S n)%nat);
        try reflexivity; lia.
    + rewrite nth_insert_ne by congruence. rewrite IH by lia.
      destruct (Nat.leb_spec s i), (Nat.ltb_spec i (s + n)%nat),
               (Nat.ltb_spec i (s + S n)%nat); try reflexivity; lia.
Qed.

(** ** The pending ring and the consumer of the final latency test *)

Section FinalFacts.

Import Final.

Variable iterations : Z.
Variable packet_size : Z.
Variable DMA_BUFFER_SIZE : Z.

Abbreviation send_step :=
  (Final.send_step iterations packet_size DMA_BUFFER_SIZE).
Abbreviation recv_step := (Final.recv_step iterations packet_size).
Abbreviation match_pending := (Final.match_pending packet_size).
Abbreviation payload_valid := (Final.payload_valid packet_size).
Abbreviation fill_packet := (Final.fill_packet packet_size DMA_BUFFER_SIZE).

Lemma next_slot idx :
  0 <= idx < MAX_PENDING ->
  Z.rem (idx + 1) MAX_PENDING = (idx + 1) mod MAX_PENDING.
Proof.
  intros H. apply Z.rem_mod_nonneg; unfold MAX_PENDING in *; lia.
Qed.

Lemma ledger_len_range st : 0 <= ledger_len st < MAX_PENDING.
Proof. unfold ledger_len. apply Z.mod_pos_bound. reflexivity. Qed.

(** The scan leaves the loop: [MAX_PENDING] rounds are enough from any
    slot of the ring. *)
Lemma scan_fuel st data s t :
  0 <= pending_tail st < MAX_PENDING ->
  forall fuel idx,
    0 <= idx < MAX_PENDING ->
    (pending_tail st - idx) mod MAX_PENDING < Z.of_nat fuel ->
    exists r, match_pending fuel st data s t idx = Some r.
Proof.
  intros Ht. induction fuel as [|fuel IH]; intros idx Hi Hd.
  - pose proof (Z.mod_pos_bound (pending_tail st - idx) MAX_PENDING eq_refl).
    lia.
  - simpl. destruct (idx =? pending_tail st) eqn:E; [eauto|].
    destruct (lm_sequence (pending_at st idx) =? s); [eauto|].
    apply Z.eqb_neq in E. rewrite next_slot by exact Hi.
    apply IH.
    + apply Z.mod_pos_bound. reflexivity.
    + rewrite Nat2Z.inj_succ in Hd. unfold MAX_PENDING in *.
      revert Hd. generalize (Z.of_nat fuel). intros f Hd.
      Z.to_euclidean_division_equations. lia.
Qed.

Lemma live_slot_not_tail st j :
  ring_ok st -> 0 <= j < ledger_len st ->
  (pending_head st + j) mod MAX_PENDING <> pending_tail st.
Proof.
  unfold ring_ok, ledger_len, MAX_PENDING. intros (Hh & Ht & _) Hj.
  Z.to_euclidean_division_equations. lia.
Qed.

(** The scan stops at the first live entry that carries [s]. *)
Lemma scan_from st data s t (n : nat) :
  ring_ok st ->
  Z.of_nat n < ledger_len st ->
  (forall j, 0 <= j < Z.of_nat n -> lm_sequence (ledger_entry st j) <> s) ->
  lm_sequence (ledger_entry st (Z.of_nat n)) = s ->
  forall (m i fuel : nat),
    (i + m = n)%nat -> (m < fuel)%nat ->
    match_pending fuel st data s t
      ((pending_head st + Z.of_nat i) mod MAX_PENDING) =
    Some (if payload_valid data s
          then record_latency st
                 (u64 (t - lm_timestamp (ledger_entry st (Z.of_nat n))))
          else st, true).
Proof.
  intros Hok Hn Hfresh Hhit.
  induction m as [|m IH]; intros i fuel Him Hf;
    (destruct fuel as [|fuel]; [lia|]); simpl.
  - assert (i = n) by lia. subst i.
    destruct (Z.eqb_spec ((pending_head st + Z.of_nat n) mod MAX_PENDING)
                (pending_tail st)) as [E|_].
    { exfalso. revert E. apply live_slot_not_tail; [exact Hok | lia]. }
    fold (ledger_entry st (Z.of_nat n)). rewrite Hhit, Z.eqb_refl.
    reflexivity.
  - destruct (Z.eqb_spec ((pending_head st + Z.of_nat i) mod MAX_PENDING)
                (pending_tail st)) as [E|_].
    { exfalso. revert E. apply live_slot_not_tail; [exact Hok | lia]. }
    fold (ledger_entry st (Z.of_nat i)).
    destruct (Z.eqb_spec (lm_sequence (ledger_entry st (Z.of_nat i))) s)
      as [E|_].
    { exfalso. revert E. apply Hfresh. lia. }
    rewrite next_slot by (apply Z.mod_pos_bound; reflexivity).
    rewrite Z.add_mod_idemp_l by (unfold MAX_PENDING; lia).
    replace (pending_head st + Z.of_nat i + 1)
      with (pending_head st + Z.of_nat (S i)) by lia.
    apply IH; lia.
Qed.

Lemma scan_hits st data s t (n : nat) :
  ring_ok st ->
  Z.of_nat n < ledger_len st ->
  (forall j, 0 <= j < Z.of_nat n -> lm_sequence (ledger_entry st j) <> s) ->
  lm_sequence (ledger_entry st (Z.of_nat n)) = s ->
  match_pending (Z.to_nat MAX_PENDING) st data s t (pending_head st) =
  Some (if payload_valid data s
        then record_latency st
               (u64 (t - lm_timestamp (ledger_entry st (Z.of_nat n))))
        else st, true).
Proof.
  intros Hok Hn Hfresh Hhit.
  pose proof (scan_from st data s t n Hok Hn Hfresh Hhit n 0%nat
                (Z.to_nat MAX_PENDING)) as H.
  simpl Z.of_nat in H. rewrite Z.add_0_r in H.
  rewrite Z.mod_small in H by (destruct Hok as (Hh & _); exact Hh).
  apply H; [lia|]. pose proof (ledger_len_range st). lia.
Qed.

(** A first echo of a probe that is in the ring. *)
Lemma recv_first_echo st data rx (n : nat) :
  ring_ok st ->
  nth 0 data 0 = MARKER_VALUE ->
  nth 1 data 0 < iterations ->
  processed_at st (nth 1 data 0) = 0 ->
  Z.of_nat n < ledger_len st ->
  (forall j, 0 <= j < Z.of_nat n ->
             lm_sequence (ledger_entry st j) <> nth 1 data 0) ->
  lm_sequence (ledger_entry st (Z.of_nat n)) = nth 1 data 0 ->
  recv_step st (Some data) rx =
  Some (release_read (count_received
    (if payload_valid data (nth 1 data 0)
     then record_latency (mark_processed st (nth 1 data 0))
            (u64 (rx - lm_timestamp (ledger_entry st (Z.of_nat n))))
     else mark_processed st (nth 1 data 0)))).
Proof.
  intros Hok Hm Hlt Hp Hn Hfresh Hhit. unfold Final.recv_step.
  rewrite Hm, Z.eqb_refl. cbv zeta. rewrite Hp.
  apply Z.ltb_lt in Hlt. rewrite Hlt.
  change (true && negb (0 =? 0))%bool with false. cbv iota.
  change (pending_head st)
    with (pending_head (mark_processed st (nth 1 data 0))).
  rewrite (scan_hits (mark_processed st (nth 1 data 0)) data _ rx n);
    try assumption.
  reflexivity.
Qed.

(** An echo of a sequence that is already marked in [processed]. *)
Lemma recv_duplicate st data rx :
  nth 0 data 0 = MARKER_VALUE ->
  nth 1 data 0 < iterations ->
  processed_at st (nth 1 data 0) <> 0 ->
  recv_step st (Some data) rx =
  Some (release_read (count_received (count_duplicate st))).
Proof.
  intros Hm Hlt Hp. unfold Final.recv_step.
  rewrite Hm, Z.eqb_refl. cbv zeta. apply Z.ltb_lt in Hlt. rewrite Hlt.
  apply Z.eqb_neq in Hp. rewrite Hp. reflexivity.
Qed.

(** The producer with a buffer at hand and room in the ring. *)
Lemma send_with_room st now :
  sent st < iterations ->
  Z.rem (pending_tail st + 1) MAX_PENDING <> pending_head st ->
  send_step st true now =
  (commit_send (store_pending st
     (mk_measurement now (sequence st) MARKER_VALUE)
     (Z.rem (pending_tail st + 1) MAX_PENDING)),
   Some (fill_packet (sequence st))).
Proof.
  intros Hs Hroom. unfold Final.send_step.
  apply Z.ltb_lt in Hs. rewrite Hs. cbv zeta.
  apply Z.eqb_neq in Hroom. rewrite Hroom. reflexivity.
Qed.

(** The producer with a buffer at hand and a full ring. *)
Lemma send_ring_full st now :
  sent st < iterations ->
  Z.rem (pending_tail st + 1) MAX_PENDING = pending_head st ->
  send_step st true now = (commit_send st, Some (fill_packet (sequence st))).
Proof.
  intros Hs Hfull. unfold Final.send_step.
  apply Z.ltb_lt in Hs. rewrite Hs. cbv zeta.
  apply Z.eqb_eq in Hfull. rewrite Hfull. reflexivity.
Qed.

Section Stored.

Variable st : test_state.
Variable m : latency_measurement.
Hypothesis Hok : ring_ok st.
Hypothesis Hroom :
  Z.rem (pending_tail st + 1) MAX_PENDING <> pending_head st.

Let st' := store_pending st m (Z.rem (pending_tail st + 1) MAX_PENDING).

Lemma stored_len : ledger_len st' = ledger_len st + 1.
Proof.
  destruct Hok as (Hh & Ht & _). revert Hroom.
  unfold ledger_len, st'. simpl. rewrite next_slot by exact Ht.
  unfold MAX_PENDING in *. intros Hr.
  Z.to_euclidean_division_equations. lia.
Qed.

Lemma stored_ok : ring_ok st'.
Proof.
  destruct Hok as (Hh & Ht & Hl). unfold ring_ok, st'. simpl.
  rewrite next_slot by exact Ht. rewrite length_insert.
  repeat split; try lia; try exact Hl;
    apply Z.mod_pos_bound; reflexivity.
Qed.

Lemma stored_old j :
  0 <= j < ledger_len st -> ledger_entry st' j = ledger_entry st j.
Proof.
  intros Hj. unfold ledger_entry, pending_at, st'. simpl.
  apply nth_insert_ne. intros E.
  apply (live_slot_not_tail st j Hok Hj).
  pose proof (Z.mod_pos_bound (pending_head st + j) MAX_PENDING eq_refl).
  destruct Hok as (_ & Ht & _). lia.
Qed.

Lemma stored_new : ledger_entry st' (ledger_len st) = m.
Proof.
  destruct Hok as (Hh & Ht & Hl).
  unfold ledger_entry, pending_at, st'. simpl.
  replace ((pending_head st + ledger_len st) mod MAX_PENDING)
    with (pending_tail st).
  - apply nth_insert_eq. rewrite Hl. unfold MAX_PENDING in *. lia.
  - unfold ledger_len, MAX_PENDING in *.
    Z.to_euclidean_division_equations. lia.
Qed.

End Stored.

(** The packet built by the producer carries the marker and the sequence
    number in its first two words and passes the integrity loop of the
    consumer. *)
Lemma fill_packet_length s :
  length (fill_packet s) = Z.to_nat (DMA_BUFFER_SIZE / 4).
Proof.
  unfold Final.fill_packet. cbv zeta.
  rewrite fold_insert_length, !length_insert. apply repeat_length.
Qed.

Lemma loopback_payload_valid s :
  packet_size <= DMA_BUFFER_SIZE ->
  payload_valid (fill_packet s) s = true.
Proof.
  intros Hfit. unfold Final.payload_valid.
  assert (Hw : (Final.packet_words packet_size
                <= Z.to_nat (DMA_BUFFER_SIZE / 4))%nat).
  { unfold Final.packet_words.
    assert (packet_size / 4 <= DMA_BUFFER_SIZE / 4)
      by (apply Z.div_le_mono; lia).
    lia. }
  assert (H : forall i, In i (Final.payload_indices packet_size) ->
                nth i (fill_packet s) 0 = u32 (s + Z.of_nat i)).
  { intros i Hi. unfold Final.payload_indices in Hi. apply in_seq in Hi.
    unfold Final.fill_packet. cbv zeta. unfold Final.payload_indices.
    rewrite (fold_insert_nth (fun i => u32 (s + Z.of_nat i)) 0 2)
      by (rewrite !length_insert, repeat_length; lia).
    destruct (Nat.leb_spec 2%nat i),
             (Nat.ltb_spec i (2 + (Final.packet_words packet_size - 2))%nat);
      try reflexivity; lia. }
  revert H. generalize (Final.payload_indices packet_size). intros idxs.
  induction idxs as [|i idxs IH]; intros H; simpl.
  - reflexivity.
  - rewrite (H i) by (left; reflexivity). rewrite Z.eqb_refl.
    apply IH. intros j Hj. apply H. right. exact Hj.
Qed.

Lemma loopback_header s :
  8 <= packet_size <= DMA_BUFFER_SIZE ->
  nth 0 (fill_packet s) 0 = MARKER_VALUE /\ nth 1 (fill_packet s) 0 = s.
Proof.
  intros Hfit. unfold Final.fill_packet. cbv zeta.
  assert (Hlen : (2 <= Z.to_nat (DMA_BUFFER_SIZE / 4))%nat).
  { assert (2 <= DMA_BUFFER_SIZE / 4)
      by (apply Z.div_le_lower_bound; lia).
    lia. }
  unfold Final.payload_indices.
  rewrite !(fold_insert_nth (fun i => u32 (s + Z.of_nat i)) 0 2)
    by (rewrite !length_insert, repeat_length; unfold Final.packet_words;
        assert (packet_size / 4 <= DMA_BUFFER_SIZE / 4)
          by (apply Z.div_le_mono; lia); lia).
  cbn [Nat.leb andb]. split.
  - rewrite nth_insert_ne by discriminate.
    apply nth_insert_eq. rewrite repeat_length. lia.
  - apply nth_insert_eq. rewrite length_insert, repeat_length. lia.
Qed.

(** A first echo whose payload fails the integrity loop is marked in
    [processed] and counted in [received], and nothing else: its latency
    enters none of the statistics. *)
Lemma damaged_echo_not_recorded st data rx (n : nat) :
  ring_ok st ->
  nth 0 data 0 = MARKER_VALUE ->
  nth 1 data 0 < iterations ->
  processed_at st (nth 1 data 0) = 0 ->
  Z.of_nat n < ledger_len st ->
  (forall j, 0 <= j < Z.of_nat n ->
             lm_sequence (ledger_entry st j) <> nth 1 data 0) ->
  lm_sequence (ledger_entry st (Z.of_nat n)) = nth 1 data 0 ->
  payload_valid data (nth 1 data 0) = false ->
  exists st',
    recv_step st (Some data) rx = Some st' /\
    latency_stats st' = latency_stats st /\
    duplicates st' = duplicates st /\
    received st' = u32 (received st + 1).
Proof.
  intros Hok Hm Hlt Hp Hn Hfresh Hhit Hbad.
  rewrite (recv_first_echo st data rx n) by assumption.
  rewrite Hbad. eexists. split; [reflexivity|]. repeat split.
Qed.

(** A mark in [processed] is never cleared. *)
Lemma mark_is_kept (l : list Z) i j :
  nth j l 0 <> 0 -> nth j (<[i := 1]> l) 0 <> 0.
Proof.
  intros H. destruct (Nat.eq_dec i j) as [->|Hne].
  - destruct (Nat.lt_ge_cases j (length l)) as [Hlt|Hge].
    + rewrite nth_insert_eq by exact Hlt. discriminate.
    + rewrite list_insert_ge by exact Hge. exact H.
  - rewrite nth_insert_ne by exact Hne. exact H.
Qed.

Lemma match_pending_processed data s t fuel : forall st idx st' found,
  match_pending fuel st data s t idx = Some (st', found) ->
  processed st' = processed st.
Proof.
  induction fuel as [|fuel IH]; intros st idx st' found; simpl.
  - discriminate.
  - destruct (idx =? pending_tail st).
    + intros [= <- _]. reflexivity.
    + destruct (lm_sequence (pending_at st idx) =? s).
      * destruct (payload_valid data s); intros [= <- _]; reflexivity.
      * apply IH.
Qed.

Lemma recv_step_keeps_mark st buf_rd rx_time st' s :
  recv_step st buf_rd rx_time = Some st' ->
  processed_at st s <> 0 -> processed_at st' s <> 0.
Proof.
  unfold Final.recv_step, processed_at. destruct buf_rd as [data|].
  - destruct (nth 0 data 0 =? MARKER_VALUE).
    + cbv zeta.
      destruct ((nth 1 data 0 <? iterations)
                && negb (nth (Z.to_nat (nth 1 data 0)) (processed st) 0
                         =? 0))%bool.
      * intros [= <-]. trivial.
      * destruct (nth 1 data 0 <? iterations).
        -- destruct (Final.match_pending _ _ _ _ _ _ _)
             as [[st1 found]|] eqn:E; [|discriminate].
           intros [= <-] Hs. apply match_pending_processed in E.
           cbn [processed release_read count_received]. rewrite E.
           cbn [processed mark_processed]. apply mark_is_kept. exact Hs.
        -- intros [= <-]. trivial.
    + intros [= <-]. trivial.
  - intros [= <-]. trivial.
Qed.

Lemma send_step_keeps_processed st buf_wr now :
  processed (fst (send_step st buf_wr now)) = processed st.
Proof.
  unfold Final.send_step. destruct (sent st <? iterations); [|reflexivity].
  destruct buf_wr; [|reflexivity]. cbv zeta.
  destruct (negb _); reflexivity.
Qed.

Lemma run_keeps_mark s inputs : forall st st',
  Final.run iterations packet_size DMA_BUFFER_SIZE st inputs = Some st' ->
  processed_at st s <> 0 -> processed_at st' s <> 0.
Proof.
  induction inputs as [|i rest IH]; intros st st'; simpl.
  - intros [= <-]. trivial.
  - destruct (Final.loop_condition iterations st (in_keep_running i));
      [|intros [= <-]; trivial].
    unfold Final.loop_body.
    destruct (recv_step _ _ _) as [st1|] eqn:E; [|discriminate].
    intros Hrun Hs. apply (IH st1 st' Hrun).
    apply (recv_step_keeps_mark _ _ _ _ s E).
    unfold processed_at. rewrite send_step_keeps_processed. exact Hs.
Qed.

Lemma bool_min a b : (if a <? b then a else b) = Z.min b a.
Proof. destruct (Z.ltb_spec a b); lia. Qed.

Lemma bool_max a b : (if a >? b then a else b) = Z.max b a.
Proof. rewrite Z.gtb_ltb. destruct (Z.ltb_spec b a); lia. Qed.

(** C2, as the code has it.  With a write buffer at hand and a full ring
    the producer still hands the packet to the DMA engine and advances
    [sent], [sequence] and [reader_sw_count], but stores no entry.  In
    every case the entries already in the ring are kept where they are,
    the ring holds at most [MAX_PENDING - 1] entries and its indices stay
    inside the array. *)
Theorem full_ring_skips_the_entry st now :
  ring_ok st ->
  sent st < iterations ->
  let r := send_step st true now in
  (Z.rem (pending_tail st + 1) MAX_PENDING = pending_head st ->
     snd r = Some (fill_packet (sequence st)) /\
     sent (fst r) = u32 (sent st + 1) /\
     sequence (fst r) = u32 (sequence st + 1) /\
     reader_sw_count (fst r) = reader_sw_count st + 1 /\
     pending (fst r) = pending st /\
     pending_head (fst r) = pending_head st /\
     pending_tail (fst r) = pending_tail st) /\
  (forall j, 0 <= j < ledger_len st ->
     ledger_entry (fst r) j = ledger_entry st j) /\
  ledger_len st <= ledger_len (fst r) <= MAX_PENDING - 1 /\
  ring_ok (fst r).
Proof.
  intros Hok Hsent r. unfold r.
  destruct (Z.eq_dec (Z.rem (pending_tail st + 1) MAX_PENDING)
              (pending_head st)) as [Hfull|Hroom].
  - rewrite (send_ring_full st now Hsent Hfull). cbn [fst snd].
    pose proof (ledger_len_range st) as Hr.
    change (ledger_len (commit_send st)) with (ledger_len st).
    split; [intros _; repeat split|].
    split; [reflexivity|]. split; [lia|exact Hok].
  - rewrite (send_with_room st now Hsent Hroom). cbn [fst snd].
    split; [intros E; contradiction|].
    set (m := mk_measurement now (sequence st) MARKER_VALUE).
    split; [|split].
    + intros j Hj.
      change (ledger_entry (commit_send ?x)) with (ledger_entry x).
      apply stored_old; assumption.
    + change (ledger_len (commit_send ?x)) with (ledger_len x).
      rewrite (stored_len st m Hok Hroom).
      pose proof (ledger_len_range
        (store_pending st m (Z.rem (pending_tail st + 1) MAX_PENDING))).
      rewrite (stored_len st m Hok Hroom) in H. lia.
    + exact (stored_ok st m Hok).
Qed.

(** C7, as the code has it.  An echo whose first word is not the marker is
    dropped without being counted anywhere: the read buffer is released
    ([writer_sw_count] advances) and nothing else changes: no counter, no
    latency statistic, no entry of the ring, no mark in [processed]. *)
Theorem foreign_marker_is_ignored st data rx_time :
  nth 0 data 0 <> MARKER_VALUE ->
  recv_step st (Some data) rx_time = Some (release_read st) /\
  counters (release_read st) = counters st /\
  latency_stats (release_read st) = latency_stats st /\
  pending (release_read st) = pending st /\
  ledger_len (release_read st) = ledger_len st /\
  processed (release_read st) = processed st /\
  writer_sw_count (release_read st) = writer_sw_count st + 1.
Proof.
  intros Hm. unfold Final.recv_step.
  apply Z.eqb_neq in Hm. rewrite Hm. repeat split.
Qed.

(** C10.  An echo with the marker in place whose sequence number is not
    below [iterations] is neither marked in [processed] nor looked up in
    the ring nor counted as a duplicate: [received] grows by one, the read
    buffer is released and everything else, the latency statistics
    included, stays as it was. *)
Theorem out_of_range_sequence_only_received st data rx_time :
  nth 0 data 0 = MARKER_VALUE ->
  iterations <= nth 1 data 0 ->
  recv_step st (Some data) rx_time =
    Some (release_read (count_received st)) /\
  forall st', recv_step st (Some data) rx_time = Some st' ->
    processed st' = processed st /\
    pending st' = pending st /\
    pending_head st' = pending_head st /\
    pending_tail st' = pending_tail st /\
    duplicates st' = duplicates st /\
    latency_stats st' = latency_stats st /\
    sent st' = sent st /\
    sequence st' = sequence st /\
    reader_sw_count st' = reader_sw_count st /\
    received st' = u32 (received st + 1) /\
    writer_sw_count st' = writer_sw_count st + 1.
Proof.
  intros Hm Hge.
  assert (E : recv_step st (Some data) rx_time =
              Some (release_read (count_received st))).
  { unfold Final.recv_step. rewrite Hm, Z.eqb_refl. cbv zeta.
    apply Z.ltb_ge in Hge. rewrite Hge. reflexivity. }
  split; [exact E|]. intros st' H. rewrite E in H.
  injection H as <-. repeat split.
Qed.

End FinalFacts.

Section FinalRun.

Import Final.

Variable iterations : Z.
Variable packet_size : Z.
Variable DMA_BUFFER_SIZE : Z.
Hypothesis iterations_u32 : 0 <= iterations < 2 ^ 32.

Abbreviation send_step' :=
  (Final.send_step iterations packet_size DMA_BUFFER_SIZE).
Abbreviation recv_step' := (Final.recv_step iterations packet_size).
Abbreviation run_inv' := (Final.run_inv iterations).

Lemma initial_state_inv : run_inv' (initial_state iterations).
Proof.
  unfold Final.run_inv, ring_ok, initial_state, ledger_len.
  cbn [pending pending_head pending_tail processed sequence sent].
  rewrite !repeat_length. unfold MAX_PENDING.
  split; [repeat split; lia|]. split; [reflexivity|].
  split; [reflexivity|]. split; [lia|].
  intros j Hj. change ((0 - 0) mod 256) with 0 in Hj. lia.
Qed.

(** The scan only ever touches the latency statistics. *)
Lemma match_pending_frame data s t fuel : forall st idx st' found,
  Final.match_pending packet_size fuel st data s t idx = Some (st', found) ->
  st' = st \/ exists latency, st' = record_latency st latency.
Proof.
  induction fuel as [|fuel IH]; intros st idx st' found; simpl.
  - discriminate.
  - destruct (idx =? pending_tail st).
    + intros [= <- _]. left. reflexivity.
    + destruct (lm_sequence (pending_at st idx) =? s).
      * destruct (Final.payload_valid packet_size data s);
          intros [= <- _]; [right; eauto | left; reflexivity].
      * apply IH.
Qed.

(** The consumer never moves the ring, the send counters or the length of
    [processed]. *)
Lemma recv_step_frame st buf_rd rx_time st' :
  recv_step' st buf_rd rx_time = Some st' ->
  pending st' = pending st /\
  pending_head st' = pending_head st /\
  pending_tail st' = pending_tail st /\
  sequence st' = sequence st /\
  sent st' = sent st /\
  length (processed st') = length (processed st).
Proof.
  unfold Final.recv_step. destruct buf_rd as [data|].
  - destruct (nth 0 data 0 =? MARKER_VALUE).
    + cbv zeta.
      destruct ((nth 1 data 0 <? iterations)
                && negb (processed_at st (nth 1 data 0) =? 0))%bool.
      * intros [= <-]. repeat split.
      * destruct (nth 1 data 0 <? iterations).
        -- destruct (Final.match_pending _ _ _ _ _ _ _)
             as [[st1 found]|] eqn:E; [|discriminate].
           intros [= <-].
           apply match_pending_frame in E as [-> | (latency & ->)];
             cbn [pending pending_head pending_tail sequence sent processed
                  release_read count_received record_latency mark_processed];
             rewrite length_insert; repeat split.
        -- intros [= <-]. repeat split.
    + intros [= <-]. repeat split.
  - intros [= <-]. repeat split.
Qed.

(** The consumer always comes back: the scan of the ring ends. *)
Lemma recv_step_returns st buf_rd rx_time :
  ring_ok st -> exists st', recv_step' st buf_rd rx_time = Some st'.
Proof.
  intros (Hh & Ht & Hl). unfold Final.recv_step.
  destruct buf_rd as [data|]; [|eauto].
  destruct (nth 0 data 0 =? MARKER_VALUE); [|eauto]. cbv zeta.
  destruct ((nth 1 data 0 <? iterations)
            && negb (processed_at st (nth 1 data 0) =? 0))%bool; [eauto|].
  destruct (nth 1 data 0 <? iterations); [|eauto].
  destruct (scan_fuel packet_size (mark_processed st (nth 1 data 0)) data
              (nth 1 data 0) rx_time Ht (Z.to_nat MAX_PENDING)
              (pending_head st) Hh) as ([st1 found] & ->); [|eauto].
  pose proof (Z.mod_pos_bound (pending_tail st - pending_head st)
                MAX_PENDING eq_refl) as Hm.
  cbn [pending_tail mark_processed]. unfold MAX_PENDING in *. lia.
Qed.

Lemma send_step_inv st buf_wr now :
  run_inv' st -> run_inv' (fst (send_step' st buf_wr now)).
Proof.
  intros Hinv. pose proof Hinv as (Hok & Hlen & Hseq & Hsent & Hold).
  unfold Final.send_step.
  destruct (Z.ltb_spec (sent st) iterations) as [Hlt|_]; [|exact Hinv].
  destruct buf_wr; [|exact Hinv]. cbv zeta. cbn [fst].
  assert (Hs : u32 (sent st + 1) = sent st + 1) by (apply u32_small; lia).
  destruct (Z.eqb_spec (Z.rem (pending_tail st + 1) MAX_PENDING)
              (pending_head st)) as [Hfull|Hroom]; cbn [negb].
  - unfold Final.run_inv.
    change (ring_ok (commit_send st)) with (ring_ok st).
    change (ledger_len (commit_send st)) with (ledger_len st).
    change (ledger_entry (commit_send st)) with (ledger_entry st).
    cbn [processed sequence sent commit_send]. rewrite Hseq, Hs.
    split; [exact Hok|]. split; [exact Hlen|]. split; [reflexivity|].
    split; [lia|]. intros j Hj. apply Hold in Hj. lia.
  - set (m := mk_measurement now (sequence st) MARKER_VALUE).
    set (nt := Z.rem (pending_tail st + 1) MAX_PENDING).
    pose proof (stored_len st m Hok Hroom) as Hl.
    pose proof (stored_ok st m Hok) as Hok'.
    pose proof (stored_new st m Hok Hroom) as Hnew.
    pose proof (stored_old st m Hok) as Hkeep.
    fold nt in Hl, Hok', Hnew, Hkeep.
    unfold Final.run_inv.
    change (ring_ok (commit_send ?x)) with (ring_ok x).
    change (ledger_len (commit_send ?x)) with (ledger_len x).
    change (ledger_entry (commit_send ?x)) with (ledger_entry x).
    cbn [processed sequence sent commit_send store_pending].
    rewrite Hseq, Hs, Hl.
    split; [exact Hok'|]. split; [exact Hlen|]. split; [reflexivity|].
    split; [lia|]. intros j Hj.
    destruct (Z.eq_dec j (ledger_len st)) as [->|Hne].
    + rewrite Hnew. cbn [lm_sequence m]. lia.
    + rewrite Hkeep by lia. assert (Hj' : 0 <= j < ledger_len st) by lia.
      apply Hold in Hj'. lia.
Qed.

Lemma recv_step_inv st buf_rd rx_time st' :
  run_inv' st -> recv_step' st buf_rd rx_time = Some st' -> run_inv' st'.
Proof.
  intros (Hok & Hlen & Hseq & Hsent & Hold) E.
  apply recv_step_frame in E as (Hp & Hh & Ht & Hs & Hn & Hl).
  unfold Final.run_inv, ring_ok, ledger_len, ledger_entry, pending_at in *.
  rewrite Hp, Hh, Ht, Hs, Hn, Hl.
  split; [exact Hok|]. split; [exact Hlen|]. split; [exact Hseq|].
  split; [exact Hsent|]. exact Hold.
Qed.

(** Every turn of the main loop comes back and keeps the invariant; at
    the head of a turn no entry of the ring carries the sequence number
    that is about to be sent. *)
Lemma loop_body_inv st i :
  run_inv' st ->
  exists st',
    Final.loop_body iterations packet_size DMA_BUFFER_SIZE st i = Some st' /\
    run_inv' st'.
Proof.
  intros Hinv. unfold Final.loop_body.
  pose proof (send_step_inv st (in_buf_wr i) (in_now i) Hinv) as H1.
  destruct (recv_step_returns (fst (send_step' st (in_buf_wr i) (in_now i)))
              (in_buf_rd i) (in_rx_time i)) as (st' & E); [apply H1|].
  exists st'. split; [exact E|]. eapply recv_step_inv; eassumption.
Qed.

(** The loop comes back from any series of turns, in a state that
    satisfies the invariant. *)
Lemma run_reaches_inv inputs : forall st,
  run_inv' st ->
  exists st',
    Final.run iterations packet_size DMA_BUFFER_SIZE st inputs = Some st' /\
    run_inv' st'.
Proof.
  induction inputs as [|i rest IH]; intros st Hinv; simpl.
  - eauto.
  - destruct (Final.loop_condition iterations st (in_keep_running i));
      [|eauto].
    destruct (loop_body_inv st i Hinv) as (st1 & -> & H1). apply IH. exact H1.
Qed.

Lemma run_inv_fresh st : run_inv' st -> ledger_fresh st (sequence st).
Proof.
  intros (_ & _ & _ & _ & Hold) j Hj. apply Hold in Hj. lia.
Qed.

End FinalRun.

(** ** C1: the first echo of a stored probe and its duplicates *)

Section FinalOnce.

Import Final.

Variable iterations : Z.
Variable packet_size : Z.
Variable DMA_BUFFER_SIZE : Z.

Abbreviation send_step2 :=
  (Final.send_step iterations packet_size DMA_BUFFER_SIZE).
Abbreviation recv_step2 := (Final.recv_step iterations packet_size).
Abbreviation quiet_steps2 :=
  (Final.quiet_steps iterations packet_size DMA_BUFFER_SIZE).

(** The producer keeps the head of the ring and every entry in it: the
    ring can only grow at its tail. *)
Lemma send_step_ring st buf_wr now :
  ring_ok st ->
  ring_ok (fst (send_step2 st buf_wr now)) /\
  pending_head (fst (send_step2 st buf_wr now)) = pending_head st /\
  ledger_len st <= ledger_len (fst (send_step2 st buf_wr now)) /\
  forall j, 0 <= j < ledger_len st ->
    ledger_entry (fst (send_step2 st buf_wr now)) j = ledger_entry st j.
Proof.
  intros Hok. unfold Final.send_step.
  destruct (sent st <? iterations);
    [|cbn [fst]; repeat split; [apply Hok..|lia]].
  destruct buf_wr; [|cbn [fst]; repeat split; [apply Hok..|lia]].
  cbv zeta. cbn [fst].
  destruct (Z.eqb_spec (Z.rem (pending_tail st + 1) MAX_PENDING)
              (pending_head st)) as [Hfull|Hroom]; cbn [negb].
  - change (ring_ok (commit_send st)) with (ring_ok st).
    change (ledger_len (commit_send st)) with (ledger_len st).
    change (ledger_entry (commit_send st)) with (ledger_entry st).
    repeat split; [apply Hok..|lia].
  - set (m := mk_measurement now (sequence st) MARKER_VALUE).
    change (ring_ok (commit_send ?x)) with (ring_ok x).
    change (ledger_len (commit_send ?x)) with (ledger_len x).
    change (ledger_entry (commit_send ?x)) with (ledger_entry x).
    rewrite (stored_len st m Hok Hroom).
    split; [exact (stored_ok st m Hok)|]. split; [reflexivity|].
    split; [lia|]. intros j Hj. apply (stored_old st m Hok j Hj).
Qed.

(** A buffer that does not carry the marker together with [s] leaves the
    mark of [s] in [processed] as it is. *)
Lemma recv_step_quiet st buf_rd rx_time st' s :
  recv_step2 st buf_rd rx_time = Some st' ->
  0 <= s ->
  (forall data, buf_rd = Some data ->
     0 <= nth 1 data 0 /\
     (nth 0 data 0 = MARKER_VALUE -> nth 1 data 0 <> s)) ->
  processed_at st' s = processed_at st s.
Proof.
  unfold Final.recv_step, processed_at. destruct buf_rd as [data|].
  - intros E Hs Hq. destruct (Hq data eq_refl) as (Hpos & Hne). revert E.
    destruct (Z.eqb_spec (nth 0 data 0) MARKER_VALUE) as [Hm|_].
    + cbv zeta.
      destruct ((nth 1 data 0 <? iterations)
                && negb (nth (Z.to_nat (nth 1 data 0)) (processed st) 0
                         =? 0))%bool.
      * intros [= <-]. reflexivity.
      * destruct (nth 1 data 0 <? iterations).
        -- destruct (Final.match_pending _ _ _ _ _ _ _)
             as [[st1 found]|] eqn:E; [|discriminate].
           intros [= <-]. apply match_pending_processed in E.
           cbn [processed release_read count_received]. rewrite E.
           cbn [processed mark_processed]. apply nth_insert_ne.
           specialize (Hne Hm). lia.
        -- intros [= <-]. reflexivity.
    + intros [= <-]. reflexivity.
  - intros [= <-]. reflexivity.
Qed.

(** While no echo of [s] is read the ring keeps its head and its entries,
    and [s] stays unmarked. *)
Lemma quiet_steps_keep s st st' :
  quiet_steps2 s st st' ->
  ring_ok st -> 0 <= s ->
  ring_ok st' /\
  pending_head st' = pending_head st /\
  ledger_len st <= ledger_len st' /\
  (forall j, 0 <= j < ledger_len st ->
     ledger_entry st' j = ledger_entry st j) /\
  processed_at st' s = processed_at st s /\
  length (processed st') = length (processed st).
Proof.
  intros Hq Hok Hs.
  induction Hq as [|st1 buf_wr now Hq IH|st1 buf_rd rx_time st2 Hq IH E Hbuf].
  - repeat split; try apply Hok; lia.
  - destruct IH as (Hok1 & Hh & Hl & He & Hp & Hn).
    destruct (send_step_ring st1 buf_wr now Hok1) as (Hok2 & Hh2 & Hl2 & He2).
    split; [exact Hok2|]. split; [congruence|]. split; [lia|].
    split; [intros j Hj; rewrite He2 by lia; apply He; exact Hj|].
    unfold processed_at in *. rewrite send_step_keeps_processed.
    split; assumption.
  - destruct IH as (Hok1 & Hh & Hl & He & Hp & Hn).
    pose proof (recv_step_quiet st1 buf_rd rx_time st2 s E Hs Hbuf) as Hp2.
    apply recv_step_frame in E as (Ep & Eh & Et & _ & _ & El).
    unfold ring_ok, ledger_len, ledger_entry, pending_at in *.
    rewrite Ep, Eh, Et, El, Hp2.
    repeat split; try apply Hok1; try assumption; apply He.
Qed.

(** C1, as the code has it.  At the head of a turn of the main loop
    ([run_inv]) the producer stores a probe with sequence [s] in the
    pending ring, no buffer carrying [s] having been read before.  The loop
    then takes any number of further steps, producer or consumer, in which
    no echo of [s] is read ([quiet_steps]).  The first echo that carries
    the marker and [s] is then found in the ring and [s] is marked as
    processed.  If its payload passes the integrity loop, [successful]
    grows by one and the latency [rx1 - now] enters [total_latency],
    [min_latency] and [max_latency]; if the payload fails it, the four
    latency statistics stay as they were.  Either way [received] grows by
    one, [duplicates] does not move, and from then on, after any further
    turns of the loop, an echo that carries [s] is not matched again: it
    only increments [duplicates] and leaves the four latency statistics as
    they were. *)
Theorem exactly_once_matching st now st1 data1 rx1 :
  Final.run_inv iterations st ->
  sent st < iterations ->
  Z.rem (pending_tail st + 1) MAX_PENDING <> pending_head st ->
  processed_at st (sequence st) = 0 ->
  quiet_steps2 (sequence st) (fst (send_step2 st true now)) st1 ->
  nth 0 data1 0 = MARKER_VALUE ->
  nth 1 data1 0 = sequence st ->
  exists st2,
    recv_step2 st1 (Some data1) rx1 = Some st2 /\
    (Final.payload_valid packet_size data1 (sequence st) = true ->
       successful st2 = u32 (successful st1 + 1) /\
       total_latency st2 = u64 (total_latency st1 + u64 (rx1 - now)) /\
       min_latency st2 = Z.min (min_latency st1) (u64 (rx1 - now)) /\
       max_latency st2 = Z.max (max_latency st1) (u64 (rx1 - now))) /\
    (Final.payload_valid packet_size data1 (sequence st) = false ->
       latency_stats st2 = latency_stats st1) /\
    duplicates st2 = duplicates st1 /\
    received st2 = u32 (received st1 + 1) /\
    forall inputs st3 data2 rx2,
      Final.run iterations packet_size DMA_BUFFER_SIZE st2 inputs = Some st3 ->
      nth 0 data2 0 = MARKER_VALUE ->
      nth 1 data2 0 = sequence st ->
      exists st4,
        recv_step2 st3 (Some data2) rx2 = Some st4 /\
        duplicates st4 = u32 (duplicates st3 + 1) /\
        latency_stats st4 = latency_stats st3.
Proof.
  intros (Hok & Hlen & Hss & Hsr & Hold) Hsent Hroom Hproc Hq Hm1 Hs1.
  assert (Hseq : 0 <= sequence st < iterations) by lia.
  pose proof (ledger_len_range st) as Hrange.
  set (m := mk_measurement now (sequence st) MARKER_VALUE).
  pose proof (stored_len st m Hok Hroom) as Hl.
  pose proof (stored_ok st m Hok) as Hok0.
  pose proof (stored_new st m Hok Hroom) as Hnew.
  rewrite (send_with_room iterations packet_size DMA_BUFFER_SIZE st now
             Hsent Hroom) in Hq.
  cbn [fst] in Hq. fold m in Hq.
  set (st0 := commit_send
                (store_pending st m (Z.rem (pending_tail st + 1) MAX_PENDING)))
    in Hq.
  destruct (quiet_steps_keep (sequence st) st0 st1 Hq Hok0 ltac:(lia))
    as (Hok1 & Hh1 & Hl1 & He1 & Hp1 & Hn1).
  change (ledger_len st0)
    with (ledger_len (store_pending st m
                        (Z.rem (pending_tail st + 1) MAX_PENDING)))
    in Hl1, He1.
  change (ledger_entry st0)
    with (ledger_entry (store_pending st m
                          (Z.rem (pending_tail st + 1) MAX_PENDING)))
    in He1.
  change (processed_at st0 (sequence st))
    with (processed_at st (sequence st)) in Hp1.
  change (processed st0) with (processed st) in Hn1.
  rewrite Hl in Hl1, He1.
  assert (Hfirst := recv_first_echo iterations packet_size st1 data1 rx1
                      (Z.to_nat (ledger_len st))).
  rewrite Z2Nat.id in Hfirst by lia. rewrite Hs1 in Hfirst.
  rewrite (He1 (ledger_len st)) in Hfirst by lia.
  rewrite Hnew in Hfirst. cbn [lm_timestamp lm_sequence m] in Hfirst.
  eexists. split.
  { apply Hfirst; try assumption; try reflexivity; try lia.
    intros j Hj. rewrite He1 by lia.
    rewrite (stored_old st m Hok j) by lia.
    assert (Hj' : 0 <= j < ledger_len st) by lia. apply Hold in Hj'. lia. }
  split.
  { intros ->.
    cbn [successful total_latency min_latency max_latency
         release_read count_received record_latency mark_processed].
    rewrite bool_min, bool_max. repeat split. }
  split; [intros ->; reflexivity|].
  split; [destruct (Final.payload_valid _ _ _); reflexivity|].
  split; [destruct (Final.payload_valid _ _ _); reflexivity|].
  intros inputs st3 data2 rx2 Hrun Hm2 Hs2.
  assert (Hmark : processed_at st3 (sequence st) <> 0).
  { apply (run_keeps_mark iterations packet_size DMA_BUFFER_SIZE
             (sequence st) inputs _ st3 Hrun).
    unfold processed_at.
    assert (Hin : (Z.to_nat (sequence st) < length (processed st1))%nat)
      by (rewrite Hn1, Hlen; lia).
    destruct (Final.payload_valid _ _ _);
      cbn [processed release_read count_received record_latency
           mark_processed];
      rewrite nth_insert_eq by exact Hin; discriminate. }
  exists (release_read (count_received (count_duplicate st3))).
  split; [apply recv_duplicate; rewrite ?Hs2; try assumption; lia|].
  split; reflexivity.
Qed.

End FinalOnce.

Section FinalExamples.

Import Final.

Lemma after_three_sends_ok : ring_ok (after_sends 3).
Proof. vm_compute. repeat split; discriminate. Qed.

Lemma after_three_sends_inv : run_inv 1000 (after_sends 3).
Proof.
  split; [exact after_three_sends_ok|].
  split; [vm_compute; reflexivity|].
  split; [vm_compute; reflexivity|].
  split; [vm_compute; split; discriminate|].
  intros j Hj. change (ledger_len (after_sends 3)) with 3 in Hj.
  assert (j = 0 \/ j = 1 \/ j = 2) as [-> | [-> | ->]] by lia;
    vm_compute; split; (discriminate || reflexivity).
Qed.

(** The probe with sequence 3 is sent at time 100.  The next step sends
    probe 4, then the echo of probe 1 is read; the echo of probe 3 comes
    back at 130, the following turn sends probe 5, and the echo of probe 3
    comes back once more at 150. *)
Lemma exactly_once_matching_witness :
  let st0 := fst (send_step 1000 1024 8192 (after_sends 3) true 100) in
  let sta := fst (send_step 1000 1024 8192 st0 true 110) in
  let echo := fill_packet 1024 8192 3 in
  let turn := mk_input true true 140 None 0 in
  exists st1 st2 st3 st4,
    recv_step 1000 1024 sta (Some (fill_packet 1024 8192 1)) 120 = Some st1 /\
    recv_step 1000 1024 st1 (Some echo) 130 = Some st2 /\
    run 1000 1024 8192 st2 [turn] = Some st3 /\
    recv_step 1000 1024 st3 (Some echo) 150 = Some st4 /\
    successful st2 = u32 (successful st1 + 1) /\
    total_latency st2 = u64 (total_latency st1 + 30) /\
    duplicates st2 = duplicates st1 /\
    duplicates st4 = u32 (duplicates st3 + 1) /\
    latency_stats st4 = latency_stats st3.
Proof.
  intros st0 sta echo turn.
  destruct (recv_step_returns 1000 1024 sta
              (Some (fill_packet 1024 8192 1)) 120) as (st1 & E1).
  { vm_compute. repeat split; discriminate. }
  assert (Hq : quiet_steps 1000 1024 8192 3 st0 st1).
  { apply (quiet_recv 1000 1024 8192 3 st0 sta
             (Some (fill_packet 1024 8192 1)) 120 st1).
    - apply quiet_send. apply quiet_start.
    - exact E1.
    - intros data [= <-]. vm_compute. split; intros; discriminate. }
  destruct (exactly_once_matching 1000 1024 8192 (after_sends 3) 100 st1
              echo 130) as (st2 & H1 & H2 & _ & H3 & _ & Hdup).
  - exact after_three_sends_inv.
  - vm_compute. reflexivity.
  - vm_compute. discriminate.
  - vm_compute. reflexivity.
  - exact Hq.
  - vm_compute. reflexivity.
  - vm_compute. reflexivity.
  - destruct H2 as (H2 & H2' & _); [vm_compute; reflexivity|].
    assert (Hinv : run_inv 1000 st2).
    { eapply (recv_step_inv 1000 1024); [|exact H1].
      eapply (recv_step_inv 1000 1024); [|exact E1].
      apply (send_step_inv 1000 1024 8192 ltac:(lia)).
      apply (send_step_inv 1000 1024 8192 ltac:(lia)).
      exact after_three_sends_inv. }
    destruct (run_reaches_inv 1000 1024 8192 ltac:(lia) [turn] st2 Hinv)
      as (st3 & Hrun & _).
    destruct (Hdup [turn] st3 echo 150 Hrun) as (st4 & H4 & H5 & H6);
      [vm_compute; reflexivity | vm_compute; reflexivity |].
    exists st1, st2, st3, st4. repeat split; assumption.
Defined.

(** C1 fails on the code.  Probe 3 is stored in the ring at time 100.  Its
    first echo comes back at 130 with word 5 cleared: it carries the marker
    and sequence 3, yet no latency is recorded and [successful] stays 0,
    and the intact echo that follows at 150 is counted as a duplicate.  The
    same happens to an intact first echo when a buffer with the marker and
    sequence 3 was read before the probe was sent. *)
Lemma first_echo_can_go_unmeasured :
  let echo := fill_packet 1024 8192 3 in
  let damaged := <[5%nat := 0]> echo in
  let st0 := fst (send_step 1000 1024 8192 (after_sends 3) true 100) in
  (ledger_entry st0 3 = mk_measurement 100 3 MARKER_VALUE /\
   nth 0 damaged 0 = MARKER_VALUE /\ nth 1 damaged 0 = 3 /\
   exists st2 st3,
     recv_step 1000 1024 st0 (Some damaged) 130 = Some st2 /\
     latency_stats st2 = (0, UINT64_MAX, 0, 0) /\
     recv_step 1000 1024 st2 (Some echo) 150 = Some st3 /\
     latency_stats st3 = (0, UINT64_MAX, 0, 0) /\
     duplicates st3 = 1) /\
  exists sa sc,
    recv_step 1000 1024 (after_sends 3) (Some echo) 90 = Some sa /\
    let sb := fst (send_step 1000 1024 8192 sa true 100) in
    ledger_entry sb 3 = mk_measurement 100 3 MARKER_VALUE /\
    recv_step 1000 1024 sb (Some echo) 130 = Some sc /\
    latency_stats sc = (0, UINT64_MAX, 0, 0) /\
    duplicates sc = 1.
Proof.
  cbv zeta. split.
  - split; [vm_compute; reflexivity|].
    split; [vm_compute; reflexivity|].
    split; [vm_compute; reflexivity|].
    eexists. eexists.
    split; [vm_compute; reflexivity|].
    split; [vm_compute; reflexivity|].
    split; [vm_compute; reflexivity|].
    split; vm_compute; reflexivity.
  - eexists. eexists.
    split; [vm_compute; reflexivity|].
    split; [vm_compute; reflexivity|].
    split; [vm_compute; reflexivity|].
    split; vm_compute; reflexivity.
Qed.

(** C2 fails on the code.  After 255 probes the ring is full; the 256th
    probe is handed to the DMA engine and counted in [sent] although no
    entry is stored for it. *)
Lemma full_ring_still_transmits :
  let st := after_sends 255 in
  let r := send_step 1000 1024 8192 st true 7 in
  ledger_len st = 255 /\
  Z.rem (pending_tail st + 1) MAX_PENDING = pending_head st /\
  sequence st = 255 /\
  snd r = Some (fill_packet 1024 8192 255) /\
  sent (fst r) = sent st + 1 /\
  reader_sw_count (fst r) = reader_sw_count st + 1 /\
  pending (fst r) = pending st /\
  ledger_len (fst r) = 255 /\
  forallb (fun m => negb (lm_sequence m =? 255)) (pending (fst r)) = true.
Proof. vm_compute. repeat split. Qed.

Lemma full_ring_skips_the_entry_witness :
  let st := after_sends 255 in
  let r := send_step 1000 1024 8192 st true 7 in
  snd r = Some (fill_packet 1024 8192 (sequence st)) /\
  sent (fst r) = u32 (sent st + 1) /\
  pending (fst r) = pending st /\
  ledger_len (fst r) <= MAX_PENDING - 1.
Proof.
  intros st r.
  destruct (full_ring_skips_the_entry 1000 1024 8192 st 7)
    as (Hfull & _ & Hlen & _).
  - vm_compute. repeat split; discriminate.
  - vm_compute. reflexivity.
  - destruct Hfull as (H1 & H2 & _ & _ & H5 & _).
    + vm_compute. reflexivity.
    + split; [exact H1|]. split; [exact H2|]. split; [exact H5|].
      apply Hlen.
Defined.

(** C7 fails on the code.  After an echo with a foreign first word none of
    the counters of the test has moved: the echo is not counted. *)
Lemma foreign_marker_not_counted :
  exists st',
    recv_step 1000 1024 (after_sends 3) (Some foreign_buffer) 130 = Some st' /\
    counters st' = counters (after_sends 3).
Proof. eexists. split; vm_compute; reflexivity. Qed.

Lemma foreign_marker_is_ignored_witness :
  recv_step 1000 1024 (after_sends 3) (Some foreign_buffer) 130 =
    Some (release_read (after_sends 3)).
Proof.
  apply (foreign_marker_is_ignored 1000 1024 (after_sends 3)
           foreign_buffer 130).
  vm_compute. discriminate.
Defined.

(** An echo with the marker and sequence 5000 in a run of 1000 probes. *)
Lemma out_of_range_sequence_only_received_witness :
  recv_step 1000 1024 (after_sends 3)
    (Some (MARKER_VALUE :: 5000 :: repeat 0 2046)) 130 =
  Some (release_read (count_received (after_sends 3))).
Proof.
  apply (out_of_range_sequence_only_received 1000 1024 (after_sends 3)
           (MARKER_VALUE :: 5000 :: repeat 0 2046) 130).
  - reflexivity.
  - vm_compute. discriminate.
Defined.

End FinalExamples.

(** ** The pattern codec of the optimized DMA test *)

Section OptimizedV2Facts.

Import OptimizedV2.

Lemma fill_words_nth word buffer count i :
  (count <= length buffer)%nat -> (i < count)%nat ->
  nth i (fill_words word buffer count) 0 = word i.
Proof.
  intros Hlen Hi. unfold fill_words.
  rewrite (fold_insert_nth word 0 0 count buffer) by lia.
  destruct (Nat.leb_spec 0%nat i), (Nat.ltb_spec i (0 + count)%nat);
    try reflexivity; lia.
Qed.

Lemma fill_random_S buffer count seed :
  fill_random buffer (S count) seed =
  let bs := fill_random buffer count seed in
  (<[count := lcg_next (snd bs)]> (fst bs), lcg_next (snd bs)).
Proof. unfold fill_random. rewrite seq_S, fold_left_app. reflexivity. Qed.

Lemma fill_random_spec buffer seed count :
  (count <= length buffer)%nat ->
  length (fst (fill_random buffer count seed)) = length buffer /\
  snd (fill_random buffer count seed) = lcg_iter count seed /\
  forall i, (i < count)%nat ->
    nth i (fst (fill_random buffer count seed)) 0 = lcg_iter (S i) seed.
Proof.
  induction count as [|count IH]; intros Hlen.
  - repeat split. intros i Hi. lia.
  - destruct IH as (IHl & IHs & IHn); [lia|].
    rewrite fill_random_S. cbv zeta. cbn [fst snd].
    split; [rewrite length_insert; exact IHl|].
    split; [rewrite IHs; reflexivity|].
    intros i Hi. destruct (Nat.eq_dec i count) as [->|Hne].
    + rewrite nth_insert_eq by lia. rewrite IHs. reflexivity.
    + rewrite nth_insert_ne by congruence. apply IHn. lia.
Qed.

Lemma differing_cons expected buffer i rest :
  differing expected buffer (i :: rest) =
  (if nth i buffer 0 =? expected i then 0 else 1)
  + differing expected buffer rest.
Proof. reflexivity. Qed.

Lemma differing_nonneg expected buffer idxs :
  0 <= differing expected buffer idxs.
Proof.
  induction idxs as [|i rest IH]; simpl; [lia|].
  destruct (nth i buffer 0 =? expected i); lia.
Qed.

(** The shared loop counts mismatches up to the eleventh. *)
Lemma verify_scan_errors expected report buffer idxs :
  forall e log, 0 <= e <= 10 ->
    fst (verify_scan expected report buffer idxs e log) =
    Z.min (e + differing expected buffer idxs) 11.
Proof.
  induction idxs as [|i rest IH]; intros e log He.
  - simpl. lia.
  - rewrite differing_cons. simpl.
    pose proof (differing_nonneg expected buffer rest).
    destruct (nth i buffer 0 =? expected i).
    + rewrite IH by lia. lia.
    + destruct (Z.gtb_spec (e + 1) 10).
      * simpl. lia.
      * rewrite IH by lia. lia.
Qed.

(** It prints one line per counted mismatch when asked to report. *)
Lemma verify_scan_printed expected report buffer idxs :
  forall e log,
    Z.of_nat (length (snd (verify_scan expected report buffer idxs e log))) =
    Z.of_nat (length log)
    + (if report
       then fst (verify_scan expected report buffer idxs e log) - e
       else 0).
Proof.
  induction idxs as [|i rest IH]; intros e log.
  - simpl. destruct report; lia.
  - simpl. destruct (nth i buffer 0 =? expected i).
    + apply IH.
    + destruct (Z.gtb_spec (e + 1) 10).
      * simpl. destruct report; [rewrite length_app; simpl|]; lia.
      * rewrite IH. destruct report; [rewrite length_app; simpl|]; lia.
Qed.

Lemma verify_random_errors report buffer seed0 m :
  forall k e log, 0 <= e <= 10 ->
    fst (fst (verify_random report buffer (seq k m) (lcg_iter k seed0) e log))
    = Z.min (e + differing (fun i => lcg_iter (S i) seed0) buffer (seq k m))
            11.
Proof.
  induction m as [|m IH]; intros k e log He.
  - simpl. lia.
  - cbn [seq]. rewrite differing_cons. cbn [verify_random]. cbv zeta.
    change (lcg_next (lcg_iter k seed0)) with (lcg_iter (S k) seed0).
    pose proof (differing_nonneg (fun i => lcg_iter (S i) seed0) buffer
                  (seq (S k) m)).
    destruct (nth k buffer 0 =? lcg_iter (S k) seed0).
    + rewrite IH by lia. lia.
    + destruct (Z.gtb_spec (e + 1) 10).
      * cbn [fst]. lia.
      * rewrite IH by lia. lia.
Qed.

Lemma differing_ext expected expected' buffer idxs :
  (forall i, expected i = expected' i) ->
  differing expected buffer idxs = differing expected' buffer idxs.
Proof.
  intros H. induction idxs as [|i rest IH].
  - reflexivity.
  - rewrite !differing_cons, IH, H. reflexivity.
Qed.

Lemma differing_zero expected buffer idxs :
  (forall i, In i idxs -> nth i buffer 0 = expected i) ->
  differing expected buffer idxs = 0.
Proof.
  induction idxs as [|i rest IH]; intros H.
  - reflexivity.
  - rewrite differing_cons, IH by (intros j Hj; apply H; right; exact Hj).
    rewrite (H i) by (left; reflexivity). rewrite Z.eqb_refl. reflexivity.
Qed.

Ltac pattern_cases cfg H :=
  unfold supported, PATTERN_SEQ, PATTERN_ALT in H;
  assert (pattern_type cfg = 0 \/ pattern_type cfg = 1 \/
          pattern_type cfg = 2 \/ pattern_type cfg = 3 \/
          pattern_type cfg = 4) as [E | [E | [E | [E | E]]]] by lia.

(** What [verify_pattern] returns, in every supported mode: the number of
    differing words, counted up to the eleventh. *)
Lemma verify_pattern_errors cfg buffer count seed :
  supported cfg ->
  errors (verify_pattern cfg buffer count seed) =
  Z.min (mismatches cfg buffer count seed) 11.
Proof.
  intros Hs. unfold mismatches.
  unfold verify_pattern, expected_word. cbv zeta.
  pattern_cases cfg Hs; rewrite E; cbn [Z.eqb PATTERN_SEQ PATTERN_RANDOM
    PATTERN_ONES PATTERN_ZEROS PATTERN_ALT Pos.eqb errors].
  - rewrite verify_scan_errors by lia. reflexivity.
  - rewrite (verify_random_errors _ buffer seed count 0%nat) by lia.
    reflexivity.
  - rewrite verify_scan_errors by lia. reflexivity.
  - rewrite verify_scan_errors by lia. reflexivity.
  - rewrite verify_scan_errors by lia. reflexivity.
Qed.

Lemma generated_matches cfg buffer count seed i :
  supported cfg -> (count <= length buffer)%nat -> (i < count)%nat ->
  nth i (fst (generate_pattern cfg buffer count seed)) 0 =
  expected_word cfg seed i.
Proof.
  intros Hs Hlen Hi. unfold generate_pattern, expected_word.
  pattern_cases cfg Hs; rewrite E; cbn [Z.eqb PATTERN_SEQ PATTERN_RANDOM
    PATTERN_ONES PATTERN_ZEROS PATTERN_ALT Pos.eqb fst].
  - apply fill_words_nth; assumption.
  - apply fill_random_spec; assumption.
  - rewrite fill_words_nth by assumption. reflexivity.
  - rewrite fill_words_nth by assumption. reflexivity.
  - apply fill_words_nth; assumption.
Qed.

End OptimizedV2Facts.

(** ** Verification in the DMA latency test *)

Lemma dma_differing_nonneg buffer expected idxs :
  0 <= DmaLatency.count_differing buffer expected idxs.
Proof.
  induction idxs as [|i rest IH]; simpl; [lia|].
  destruct (nth i buffer 0 =? nth i expected 0); lia.
Qed.

Lemma verify_loop_errors report buffer expected idxs :
  forall e log,
    fst (DmaLatency.verify_loop report buffer expected idxs e log) =
    e + DmaLatency.count_differing buffer expected idxs.
Proof.
  induction idxs as [|i rest IH]; intros e log; simpl.
  - lia.
  - destruct (nth i buffer 0 =? nth i expected 0); simpl; rewrite IH; lia.
Qed.

Lemma verify_loop_printed report buffer expected idxs :
  forall e log, 0 <= e ->
    Z.of_nat
      (length (snd (DmaLatency.verify_loop report buffer expected idxs e log)))
    = Z.of_nat (length log)
      + (if report
         then Z.min (e + DmaLatency.count_differing buffer expected idxs) 10
              - Z.min e 10
         else 0).
Proof.
  induction idxs as [|i rest IH]; intros e log He; simpl.
  - destruct report; lia.
  - pose proof (dma_differing_nonneg buffer expected rest).
    destruct (nth i buffer 0 =? nth i expected 0); simpl.
    + rewrite IH by lia. destruct report; lia.
    + rewrite IH by lia. destruct report; simpl; [|lia].
      destruct (Z.ltb_spec e 10); [rewrite length_app; simpl|]; lia.
Qed.

Lemma dma_differing_same buffer idxs :
  DmaLatency.count_differing buffer buffer idxs = 0.
Proof.
  induction idxs as [|i rest IH]; simpl; [reflexivity|].
  rewrite Z.eqb_refl, IH. reflexivity.
Qed.

(** ** C3 and C4: the pattern codec *)

(** C3.  Verifying a freshly generated payload reports no mismatch.  In
    the optimized DMA test this holds for each of the five pattern modes,
    every starting seed and every word count that fits the buffer, the
    verifier starting from the seed the generator started from.  In the DMA
    latency test the verifier compares against the copy of the generated
    words kept in [verify_buf], for every mode, iteration and [rand()]
    stream. *)
Theorem generate_then_verify_is_clean :
  (forall cfg buffer count seed,
     OptimizedV2.supported cfg ->
     (count <= length buffer)%nat ->
     OptimizedV2.errors
       (OptimizedV2.verify_pattern cfg
          (fst (OptimizedV2.generate_pattern cfg buffer count seed))
          count seed) = 0) /\
  (forall cfg rand buffer count iteration pos,
     let generated :=
       fst (DmaLatency.generate_pattern cfg rand buffer count iteration pos) in
     let verify_buf := firstn count generated in
     DmaLatency.verify_pattern cfg (firstn count generated) verify_buf count
     = (0, [])).
Proof.
  split.
  - intros cfg buffer count seed Hs Hlen.
    rewrite verify_pattern_errors by exact Hs.
    unfold OptimizedV2.mismatches. rewrite differing_zero; [reflexivity|].
    intros i Hi. apply in_seq in Hi.
    apply generated_matches; [exact Hs | exact Hlen | lia].
  - intros cfg rand buffer count iteration pos generated verify_buf.
    unfold verify_buf. generalize (firstn count generated). intros b.
    pose proof (verify_loop_errors (DmaLatency.verbose cfg) b b
                  (seq 0 count) 0 []) as He.
    pose proof (verify_loop_printed (DmaLatency.verbose cfg) b b
                  (seq 0 count) 0 [] (Z.le_refl 0)) as Hp.
    rewrite dma_differing_same in He, Hp. unfold DmaLatency.verify_pattern.
    destruct (DmaLatency.verify_loop _ b b (seq 0 count) 0 []) as [e log].
    simpl in He, Hp. subst e.
    assert (length log = 0%nat) as Hlog
      by (destruct (DmaLatency.verbose cfg); simpl in Hp; lia).
    destruct log; [reflexivity | discriminate].
Qed.

(** Random mode over a buffer of 64 words from seed 12345. *)
Lemma generate_then_verify_is_clean_witness :
  let cfg := OptimizedV2.mk_config OptimizedV2.PATTERN_RANDOM true in
  OptimizedV2.errors
    (OptimizedV2.verify_pattern cfg
       (fst (OptimizedV2.generate_pattern cfg (repeat 0 64) 64 12345))
       64 12345) = 0.
Proof.
  intros cfg.
  apply (proj1 generate_then_verify_is_clean cfg (repeat 0 64) 64%nat 12345).
  - vm_compute. split; discriminate.
  - vm_compute. lia.
Defined.

(** C4, as the code has it.  [verify_pattern] of the DMA latency test
    returns the number of differing words whatever it is and prints the
    first ten of them when verbose.  [verify_pattern] of the optimized DMA
    test leaves its loop at the eleventh mismatch: it returns the number of
    differing words only up to 11. *)
Theorem verify_counts_mismatches :
  (forall cfg buffer expected count,
     let r := DmaLatency.verify_pattern cfg buffer expected count in
     fst r = DmaLatency.count_differing buffer expected (seq 0 count) /\
     Z.of_nat (length (snd r)) =
       if DmaLatency.verbose cfg then Z.min (fst r) 10 else 0) /\
  (forall cfg buffer count seed,
     OptimizedV2.supported cfg ->
     OptimizedV2.errors (OptimizedV2.verify_pattern cfg buffer count seed) =
     Z.min (OptimizedV2.mismatches cfg buffer count seed) 11).
Proof.
  split.
  - intros cfg buffer expected count r. unfold r, DmaLatency.verify_pattern.
    rewrite verify_loop_printed by lia. rewrite verify_loop_errors.
    split; [lia|]. destruct (DmaLatency.verbose cfg); simpl; lia.
  - intros cfg buffer count seed Hs. apply verify_pattern_errors. exact Hs.
Qed.

(** Twelve wrong words in zeros mode: the DMA latency test counts twelve,
    the optimized DMA test eleven. *)
Lemma verify_counts_mismatches_witness :
  let cfg := OptimizedV2.mk_config OptimizedV2.PATTERN_ZEROS false in
  OptimizedV2.errors (OptimizedV2.verify_pattern cfg (repeat 1 12) 12 0) =
  Z.min (OptimizedV2.mismatches cfg (repeat 1 12) 12 0) 11.
Proof.
  intros cfg.
  apply (proj2 verify_counts_mismatches cfg (repeat 1 12) 12%nat 0).
  vm_compute. split; discriminate.
Defined.

(** C4 fails on the optimized DMA test: a buffer with twelve wrong words
    is reported with [errors = 11]. *)
Lemma verify_stops_at_eleven :
  let cfg := OptimizedV2.mk_config OptimizedV2.PATTERN_ZEROS false in
  OptimizedV2.mismatches cfg (repeat 1 12) 12 0 = 12 /\
  OptimizedV2.errors (OptimizedV2.verify_pattern cfg (repeat 1 12) 12 0) = 11.
Proof. vm_compute. split; reflexivity. Qed.

(** ** The statistics of the DMA latency test *)

Section DmaLatencyFacts.

Import DmaLatency.

Lemma sum_insert (h : list Z) : forall i x,
  (i < length h)%nat ->
  fold_right Z.add 0 (<[i := x]> h) = fold_right Z.add 0 h - nth i h 0 + x.
Proof.
  induction h as [|c h IH]; intros i x Hi; simpl in *.
  - lia.
  - destruct i as [|i]; simpl.
    + lia.
    + rewrite IH by lia. lia.
Qed.

Lemma sum_bounds (h : list Z) :
  Forall (fun c => 0 <= c) h ->
  forall i, 0 <= nth i h 0 <= fold_right Z.add 0 h.
Proof.
  induction 1 as [|c h Hc Hh IH]; intros i; simpl.
  - destruct i; lia.
  - destruct i as [|i]; [|specialize (IH i)]; try lia.
    specialize (IH 0%nat). lia.
Qed.

Lemma Forall_insert_nonneg (h : list Z) i x :
  Forall (fun c => 0 <= c) h -> 0 <= x ->
  Forall (fun c => 0 <= c) (<[i := x]> h).
Proof.
  intros Hh Hx. revert i.
  induction Hh as [|c h Hc Hh IH]; intros i; simpl.
  - constructor.
  - destruct i; simpl; constructor; auto.
Qed.

Lemma int_of_latency l :
  0 <= l -> int_of_double (Qmake l 1000) = l / 1000.
Proof.
  intros Hl. unfold int_of_double. simpl. apply Z.quot_div_nonneg; lia.
Qed.

(** What one call of [update_stats] does to the counters. *)
Lemma update_stats_counts cfg g l hist :
  histogram cfg = true ->
  latency_histogram g = Some hist ->
  0 <= l ->
  count (update_stats cfg g l) = u64 (count g + 1) /\
  if l / 1000 <? HISTOGRAM_BUCKETS
  then latency_histogram (update_stats cfg g l) =
         Some (<[Z.to_nat (l / 1000) :=
                   u64 (nth (Z.to_nat (l / 1000)) hist 0 + 1)]> hist) /\
       histogram_overflow (update_stats cfg g l) = histogram_overflow g
  else latency_histogram (update_stats cfg g l) = Some hist /\
       histogram_overflow (update_stats cfg g l) =
         u64 (histogram_overflow g + 1).
Proof.
  intros Hc Hh Hl. unfold update_stats. cbv zeta.
  assert (Hs : forall g0, count (store_sample cfg g0 l) = count g0 /\
             latency_histogram (store_sample cfg g0 l) = latency_histogram g0
             /\ histogram_overflow (store_sample cfg g0 l) =
                histogram_overflow g0).
  { intros g0. unfold store_sample. destruct (recent_samples g0); [|tauto].
    destruct (sample_count g0 <? iterations cfg); repeat split. }
  destruct (Hs (update_histogram cfg (accumulate g (Qmake l 1000))
                  (Qmake l 1000))) as (-> & -> & ->).
  unfold update_histogram. cbn [latency_histogram accumulate].
  rewrite Hh, Hc, int_of_latency by exact Hl.
  destruct (l / 1000 <? HISTOGRAM_BUCKETS); repeat split.
Qed.

Lemma update_stats_keeps_inv cfg g l :
  histogram cfg = true ->
  hist_inv g ->
  0 <= l ->
  count g + 1 < 2 ^ 64 ->
  hist_inv (update_stats cfg g l) /\
  count (update_stats cfg g l) = count g + 1.
Proof.
  intros Hc (hist & Hh & Hlen & Hpos & Hov & Hsum) Hl Hbound.
  destruct (update_stats_counts cfg g l hist Hc Hh Hl) as (Hcount & Hcase).
  unfold bucket_total in Hsum. rewrite Hh in Hsum. cbv iota in Hsum.
  pose proof (sum_bounds hist Hpos) as Hb.
  assert (0 <= count g) by (specialize (Hb 0%nat); lia).
  rewrite u64_small in Hcount by lia. split; [|exact Hcount].
  unfold hist_inv, bucket_total. rewrite Hcount.
  assert (0 <= l / 1000) by (apply Z.div_pos; lia).
  destruct (Z.ltb_spec (l / 1000) HISTOGRAM_BUCKETS) as [Hlt|Hge];
    destruct Hcase as (-> & ->).
  - specialize (Hb (Z.to_nat (l / 1000))).
    rewrite u64_small by lia. eexists. split; [reflexivity|].
    split; [rewrite length_insert; exact Hlen|].
    split; [apply Forall_insert_nonneg; [exact Hpos | lia]|].
    split; [exact Hov|].
    rewrite sum_insert by (rewrite Hlen; unfold HISTOGRAM_BUCKETS in *; lia).
    lia.
  - pose proof (Hb 0%nat). rewrite u64_small by lia.
    eexists. split; [reflexivity|].
    repeat split; try assumption; lia.
Qed.

Lemma record_all_keeps_inv cfg ls :
  histogram cfg = true ->
  Forall latency_in_range ls ->
  forall g,
    hist_inv g ->
    count g + Z.of_nat (length ls) < 2 ^ 64 ->
    hist_inv (record_all cfg g ls) /\
    count (record_all cfg g ls) = count g + Z.of_nat (length ls).
Proof.
  intros Hc Hls. induction Hls as [|l ls Hl Hls IH]; intros g Hg Hbound.
  - simpl. split; [exact Hg | lia].
  - cbn [record_all fold_left]. cbn [length] in Hbound.
    destruct (update_stats_keeps_inv cfg g l Hc Hg) as (Hg' & Hcount).
    { apply Hl. } { lia. }
    destruct (IH (update_stats cfg g l) Hg') as (Hinv & Hn); [lia|].
    unfold record_all in *. cbn [length]. split; [exact Hinv | lia].
Qed.

Lemma initial_inv cfg : histogram cfg = true -> hist_inv (initial_globals cfg).
Proof.
  intros Hc. unfold hist_inv, initial_globals, bucket_total.
  cbn [latency_histogram histogram_overflow count]. rewrite Hc.
  eexists. split; [reflexivity|].
  split; [apply repeat_length|].
  generalize (Z.to_nat HISTOGRAM_BUCKETS). intros n.
  split; [induction n as [|n IH]; simpl; constructor; [lia | exact IH]|].
  split; [lia|].
  induction n as [|n IH]; simpl in *; lia.
Qed.

(** Inside the range of the [int] conversion.  With the histogram enabled,
    after any series of recorded latencies, each at most
    [1000 * INT_MAX + 999] nanoseconds, the bucket counters and the
    overflow counter add up to [stats.count], which is the number of
    recorded samples.  One call adds one to [count] and one to exactly one
    of the two: to bucket [latency / 1000] (whole microseconds) when that
    index is below [HISTOGRAM_BUCKETS], to the overflow counter
    otherwise. *)
Lemma histogram_accounting_in_range cfg :
  histogram cfg = true ->
  (forall ls,
     Forall latency_in_range ls ->
     Z.of_nat (length ls) < 2 ^ 64 ->
     let g := record_all cfg (initial_globals cfg) ls in
     count g = Z.of_nat (length ls) /\
     bucket_total g + histogram_overflow g = count g) /\
  (forall g hist l,
     hist_inv g -> latency_histogram g = Some hist ->
     latency_in_range l -> count g + 1 < 2 ^ 64 ->
     let g' := update_stats cfg g l in
     count g' = count g + 1 /\
     bucket_total g' + histogram_overflow g' = count g' /\
     if l / 1000 <? HISTOGRAM_BUCKETS
     then latency_histogram g' =
            Some (<[Z.to_nat (l / 1000) :=
                      nth (Z.to_nat (l / 1000)) hist 0 + 1]> hist) /\
          histogram_overflow g' = histogram_overflow g
     else latency_histogram g' = Some hist /\
          histogram_overflow g' = histogram_overflow g + 1).
Proof.
  intros Hc. split.
  - intros ls Hls Hlen g.
    destruct (record_all_keeps_inv cfg ls Hc Hls (initial_globals cfg))
      as (Hinv & Hcount).
    + apply initial_inv. exact Hc.
    + simpl. exact Hlen.
    + fold g in Hinv, Hcount. simpl in Hcount. split; [exact Hcount|].
      destruct Hinv as (h & _ & _ & _ & _ & Hsum). exact Hsum.
  - intros g hist l Hg Hh Hl Hbound g'.
    destruct (update_stats_keeps_inv cfg g l Hc Hg) as (Hg' & Hcount);
      [apply Hl | exact Hbound |].
    fold g' in Hg', Hcount. split; [exact Hcount|].
    split; [destruct Hg' as (h & _ & _ & _ & _ & Hsum); exact Hsum|].
    destruct (update_stats_counts cfg g l hist Hc Hh) as (_ & Hcase);
      [apply Hl|]. fold g' in Hcase.
    destruct Hg as (h0 & Hh0 & Hlen0 & Hpos & Hov & Hsum).
    rewrite Hh in Hh0. injection Hh0 as <-.
    unfold bucket_total in Hsum. rewrite Hh in Hsum. cbv iota in Hsum.
    pose proof (sum_bounds hist Hpos (Z.to_nat (l / 1000))) as Hb.
    destruct (l / 1000 <? HISTOGRAM_BUCKETS).
    + rewrite u64_small in Hcase by lia. exact Hcase.
    + rewrite u64_small in Hcase by lia. exact Hcase.
Qed.

(** Four latencies: 0.5 us, 1.5 ms, 999.999 us and 1 ms. *)
Lemma histogram_accounting_in_range_example :
  let cfg := config_with 10000 PATTERN_FIXED false in
  let g := record_all cfg (initial_globals cfg)
             [500; 1500000; 999999; 1000000] in
  count g = 4 /\ bucket_total g + histogram_overflow g = count g.
Proof.
  intros cfg g.
  apply (proj1 (histogram_accounting_in_range cfg eq_refl)
           [500; 1500000; 999999; 1000000]).
  - repeat constructor; vm_compute; discriminate.
  - vm_compute. reflexivity.
Qed.

(** *** The conversion of the bucket index *)

(** Where the conversion is defined the checked update is the update. *)
Lemma update_stats_defined_in_range cfg g hist l :
  histogram cfg = true ->
  latency_histogram g = Some hist ->
  length hist = Z.to_nat HISTOGRAM_BUCKETS ->
  latency_in_range l ->
  update_stats_defined cfg g l = Some (update_stats cfg g l).
Proof.
  intros Hc Hh Hlen (Hl & Hu).
  unfold update_stats_defined, update_stats, update_histogram_defined,
    update_histogram, int_of_double_defined.
  cbv zeta. cbn [latency_histogram accumulate]. rewrite Hh, Hc.
  rewrite int_of_latency by exact Hl.
  assert (Hq : 0 <= l / 1000 <= INT_MAX).
  { split; [apply Z.div_pos; lia|].
    apply Z.lt_succ_r. apply Z.div_lt_upper_bound; unfold INT_MAX in *; lia. }
  assert (E1 : (INT_MIN <=? l / 1000) = true)
    by (apply Z.leb_le; unfold INT_MIN; lia).
  assert (E2 : (l / 1000 <=? INT_MAX) = true) by (apply Z.leb_le; lia).
  rewrite E1, E2. cbn [andb].
  destruct (Z.ltb_spec (l / 1000) HISTOGRAM_BUCKETS) as [Hlt|Hge];
    [|reflexivity].
  assert (E3 : (0 <=? l / 1000) = true) by (apply Z.leb_le; lia).
  assert (E4 : (l / 1000 <? Z.of_nat (length hist)) = true)
    by (apply Z.ltb_lt; rewrite Hlen; unfold HISTOGRAM_BUCKETS in *; lia).
  rewrite E3, E4. reflexivity.
Qed.

(** Past the range of [int] the conversion of line 203 has no defined
    result, and neither has the call. *)
Lemma update_stats_defined_past_int cfg g hist l :
  histogram cfg = true ->
  latency_histogram g = Some hist ->
  1000 * INT_MAX + 999 < l ->
  update_stats_defined cfg g l = None.
Proof.
  intros Hc Hh Hl.
  unfold update_stats_defined, update_histogram_defined,
    int_of_double_defined.
  cbv zeta. cbn [latency_histogram accumulate]. rewrite Hh, Hc.
  rewrite int_of_latency by (unfold INT_MAX in *; lia).
  assert (Hq : INT_MAX < l / 1000).
  { apply Z.lt_le_trans with (INT_MAX + 1); [lia|].
    apply Z.div_le_lower_bound; unfold INT_MAX in *; lia. }
  assert (E2 : (l / 1000 <=? INT_MAX) = false) by (apply Z.leb_gt; lia).
  rewrite E2, andb_false_r. reflexivity.
Qed.

Lemma record_all_defined_in_range cfg ls :
  histogram cfg = true ->
  Forall latency_in_range ls ->
  forall g, hist_inv g ->
    count g + Z.of_nat (length ls) < 2 ^ 64 ->
    record_all_defined cfg g ls = Some (record_all cfg g ls).
Proof.
  intros Hc Hls. induction Hls as [|l ls Hl Hls IH]; intros g Hg Hbound.
  - reflexivity.
  - cbn [record_all_defined record_all fold_left]. cbn [length] in Hbound.
    pose proof Hg as (hist & Hh & Hlen & _).
    rewrite (update_stats_defined_in_range cfg g hist l Hc Hh Hlen Hl).
    destruct (update_stats_keeps_inv cfg g l Hc Hg) as (Hg' & Hcount);
      [apply Hl | lia |].
    apply IH; [exact Hg' | lia].
Qed.

Lemma record_all_defined_past_int cfg ls :
  histogram cfg = true ->
  Forall (fun l => 0 <= l) ls ->
  Exists (fun l => 1000 * INT_MAX + 999 < l) ls ->
  forall g, hist_inv g ->
    count g + Z.of_nat (length ls) < 2 ^ 64 ->
    record_all_defined cfg g ls = None.
Proof.
  intros Hc Hpos Hex.
  induction Hex as [l ls Hl|l ls Hex IH]; intros g Hg Hbound;
    pose proof Hg as (hist & Hh & Hlen & _);
    cbn [record_all_defined]; cbn [length] in Hbound.
  - rewrite (update_stats_defined_past_int cfg g hist l Hc Hh Hl).
    reflexivity.
  - inversion Hpos as [|l' ls' Hl0 Hpos' [E1 E2]]; subst.
    destruct (Z.le_gt_cases l (1000 * INT_MAX + 999)) as [Hin|Hout].
    + rewrite (update_stats_defined_in_range cfg g hist l Hc Hh Hlen)
        by (split; assumption).
      destruct (update_stats_keeps_inv cfg g l Hc Hg) as (Hg' & Hcount);
        [exact Hl0 | lia |].
      apply IH; [exact Hpos' | exact Hg' | lia].
    + rewrite (update_stats_defined_past_int cfg g hist l Hc Hh Hout).
      reflexivity.
Qed.

(** C5 on the code.  A latency of 2^31 microseconds (about 36 minutes)
    has bucket index 2147483648, beyond [HISTOGRAM_BUCKETS - 1], so the
    claim sends it to the overflow counter.  In [update_stats] the index is
    first converted with [(int)latency_us], which has no defined result for
    that value: the call is undefined and no counter is known to move.  In
    general, from the cleared histogram a series of fewer than 2^64
    latencies is accounted for as the claim says (the bucket counters and
    the overflow counter add up to [stats.count], the number of samples)
    when every latency is at most [1000 * INT_MAX + 999] nanoseconds, and
    has no defined result as soon as one latency lies above that. *)
Theorem histogram_index_overflows_int :
  let cfg := config_with 10000 PATTERN_FIXED false in
  let l := 2147483648000 in
  (0 <= l < 2 ^ 64 /\
   HISTOGRAM_BUCKETS - 1 < l / 1000 /\
   int_of_double_defined (Qmake l 1000) = None /\
   update_stats_defined cfg (initial_globals cfg) l = None /\
   record_all_defined cfg (initial_globals cfg) [500; l] = None) /\
  forall cfg ls,
    histogram cfg = true ->
    Forall (fun l => 0 <= l) ls ->
    Z.of_nat (length ls) < 2 ^ 64 ->
    (Forall latency_in_range ls ->
     exists g,
       record_all_defined cfg (initial_globals cfg) ls = Some g /\
       count g = Z.of_nat (length ls) /\
       bucket_total g + histogram_overflow g = count g) /\
    (Exists (fun l => 1000 * INT_MAX + 999 < l) ls ->
     record_all_defined cfg (initial_globals cfg) ls = None).
Proof.
  cbv zeta. split.
  - split; [split; [discriminate | reflexivity]|].
    split; [reflexivity|]. split; [reflexivity|].
    split; vm_compute; reflexivity.
  - intros cfg ls Hc Hpos Hlen. split.
    + intros Hls.
      destruct (record_all_keeps_inv cfg ls Hc Hls (initial_globals cfg))
        as (Hinv & Hcount); [apply initial_inv; exact Hc | exact Hlen |].
      exists (record_all cfg (initial_globals cfg) ls).
      split; [apply record_all_defined_in_range;
              [exact Hc | exact Hls | apply initial_inv; exact Hc
              | exact Hlen]|].
      split; [exact Hcount|].
      destruct Hinv as (h & _ & _ & _ & _ & Hsum). exact Hsum.
    + intros Hex.
      apply record_all_defined_past_int;
        [exact Hc | exact Hpos | exact Hex | apply initial_inv; exact Hc
        | exact Hlen].
Qed.


(** *** The sample buffer *)

(** Once [sample_count] has reached [config.iterations] the guard of the
    store is false and the sample is not kept. *)
Lemma store_sample_when_full cfg g latency_ns :
  iterations cfg <= sample_count g ->
  store_sample cfg g latency_ns = g.
Proof.
  intros Hfull. unfold store_sample.
  destruct (recent_samples g); [|reflexivity].
  apply Z.ltb_ge in Hfull. rewrite Hfull. reflexivity.
Qed.

Lemma full_buffer_is_frozen cfg g latency_ns :
  iterations cfg <= sample_count g ->
  let g' := update_stats cfg g latency_ns in
  recent_samples g' = recent_samples g /\
  sample_index g' = sample_index g /\
  sample_count g' = sample_count g.
Proof.
  intros Hfull g'. unfold g', update_stats. cbv zeta.
  rewrite store_sample_when_full.
  - unfold update_histogram, accumulate. cbn [latency_histogram].
    destruct (latency_histogram g); [|repeat split].
    destruct (histogram cfg); [|repeat split].
    destruct (_ <? HISTOGRAM_BUCKETS); repeat split.
  - unfold update_histogram, accumulate. cbn [latency_histogram].
    destruct (latency_histogram g); [|exact Hfull].
    destruct (histogram cfg); [|exact Hfull].
    destruct (_ <? HISTOGRAM_BUCKETS); exact Hfull.
Qed.

(** C6 on the code: a run in continuous mode with [-n 2] that measures
    10, 20 and 30 microseconds.  The third sample is counted in
    [stats.count] but not stored: the buffer still holds the first two, and
    the oldest one has not been overwritten. *)
Theorem third_sample_is_not_stored :
  let cfg := config_with 2 PATTERN_FIXED true in
  let g := record_all cfg (initial_globals cfg) [10000; 20000; 30000] in
  count g = 3 /\
  recent_samples g = Some [10000; 20000] /\
  sample_count g = 2 /\
  sample_index g = 0.
Proof. vm_compute. repeat split. Qed.

(** *** A measurement whose payload comes back damaged *)

Lemma store_sample_count cfg g latency_ns :
  count (store_sample cfg g latency_ns) = count g.
Proof.
  unfold store_sample. destruct (recent_samples g); [|reflexivity].
  destruct (sample_count g <? iterations cfg); reflexivity.
Qed.

Lemma update_histogram_count cfg g latency_us :
  count (update_histogram cfg g latency_us) = count g.
Proof.
  unfold update_histogram. destruct (latency_histogram g); [|reflexivity].
  destruct (histogram cfg); [|reflexivity].
  destruct (_ <? HISTOGRAM_BUCKETS); reflexivity.
Qed.

Lemma measured_latency cfg rand env g write_buf iteration pos w d :
  wait_buffer 1000 (write_polls env) 0 = Some w ->
  wait_buffer 1000 (read_polls env) 0 = Some d ->
  fst (fst (measure_dma_latency cfg rand env g write_buf iteration pos)) =
  u64 (t_end env - t_start env).
Proof.
  intros Hw Hr. unfold measure_dma_latency.
  destruct (generate_pattern _ _ _ _ _ _) as [wb pos'].
  rewrite Hw, Hr. reflexivity.
Qed.

Lemma measurement_keeps_count cfg rand env g write_buf iteration pos :
  count (snd (fst (measure_dma_latency cfg rand env g write_buf
                     iteration pos))) = count g.
Proof.
  unfold measure_dma_latency.
  destruct (generate_pattern _ _ _ _ _ _) as [wb pos'].
  destruct (wait_buffer 1000 (write_polls env) 0); [|reflexivity].
  destruct (wait_buffer 1000 (read_polls env) 0); [|reflexivity].
  cbn [fst snd]. destruct (verify_data cfg); [|reflexivity].
  destruct (_ >? 0); reflexivity.
Qed.

(** Whatever the verification finds, a measurement that got both buffers
    is recorded by [update_stats]. *)
Lemma measured_turn_is_counted cfg rand wd env g write_buf iteration pos w d :
  wait_buffer 1000 (write_polls env) 0 = Some w ->
  wait_buffer 1000 (read_polls env) 0 = Some d ->
  u64 (t_end env - t_start env) <> UINT64_MAX ->
  count (fst (measurement_turn cfg rand wd env g write_buf iteration pos)) =
  u64 (count g + 1).
Proof.
  intros Hw Hr Hne. unfold measurement_turn.
  pose proof (measured_latency cfg rand env g write_buf iteration pos w d
                Hw Hr) as Hl.
  pose proof (measurement_keeps_count cfg rand env g write_buf iteration pos)
    as Hc.
  destruct (measure_dma_latency cfg rand env g write_buf iteration pos)
    as [[latency g1] pos1].
  cbn [fst snd] in Hl, Hc. subst latency.
  apply Z.eqb_neq in Hne. rewrite Hne. cbn [negb fst].
  assert (Hu : count (update_stats cfg g1 (u64 (t_end env - t_start env)))
               = u64 (count g1 + 1)).
  { unfold update_stats. cbv zeta.
    rewrite store_sample_count, update_histogram_count. reflexivity. }
  destruct (negb (continuous cfg) && wd && _)%bool;
    cbn [count set_keep_running]; rewrite Hu, Hc; reflexivity.
Qed.

(** C8 on the code: the fixed pattern is sent, sixteen words come back 5
    microseconds later with the fourth word damaged.  The error counter
    grows by one and the 5 microseconds are recorded all the same: in
    [count], in the sums, in the minimum and the maximum, in bucket 5 of the
    histogram and in the sample buffer. *)
Theorem damaged_measurement_is_recorded :
  let cfg := config_with 10000 PATTERN_FIXED false in
  let env := prompt_env damaged_words 1000 6000 in
  let g := fst (measurement_turn cfg (fun _ => 0) true env
                  (initial_globals cfg) (repeat 0 16) 0 0) in
  errors g = 1 /\
  count g = 1 /\
  sum_us g = (5000 # 1000)%Q /\
  min_us g = (5000 # 1000)%Q /\
  max_us g = (5000 # 1000)%Q /\
  bucket_total g = 1 /\
  option_map (fun h => nth 5 h 0) (latency_histogram g) = Some 1 /\
  option_map (fun r => nth 0 r 0) (recent_samples g) = Some 5000 /\
  sample_count g = 1.
Proof. vm_compute. repeat split. Qed.

(** *** The sort of [calculate_percentile] *)

Lemma swap_length a i j : length (swap a i j) = length a.
Proof. unfold swap. rewrite !length_insert. reflexivity. Qed.

Lemma swap_nth a i j k :
  (i < length a)%nat -> (j < length a)%nat -> i <> j ->
  nth k (swap a i j) 0 =
  if Nat.eq_dec k i then nth j a 0
  else if Nat.eq_dec k j then nth i a 0 else nth k a 0.
Proof.
  intros Hi Hj Hij. unfold swap.
  destruct (Nat.eq_dec k i) as [->|Hki].
  - rewrite nth_insert_ne by congruence. apply nth_insert_eq. exact Hi.
  - destruct (Nat.eq_dec k j) as [->|Hkj].
    + apply nth_insert_eq. rewrite length_insert. exact Hj.
    + rewrite !nth_insert_ne by congruence. reflexivity.
Qed.

Lemma pass_upto_S i n a :
  pass_upto i (S n) a =
  let b := pass_upto i n a in
  if nth i b 0 >? nth (S i + n) b 0 then swap b i (S i + n) else b.
Proof. unfold pass_upto. rewrite seq_S, fold_left_app. reflexivity. Qed.

(** After [n] rounds slot [i] holds a value that is not above any of the
    [n] slots behind it; the slots before [i] are untouched and the values
    from slot [i] on are values that were there before. *)
Lemma pass_upto_spec i a : forall n,
  (S i + n <= length a)%nat ->
  let b := pass_upto i n a in
  length b = length a /\
  (forall l, (S i <= l < S i + n)%nat -> nth i b 0 <= nth l b 0) /\
  (forall k, (k < i)%nat -> nth k b 0 = nth k a 0) /\
  (forall l, (i <= l < length a)%nat ->
     exists l', (i <= l' < length a)%nat /\ nth l b 0 = nth l' a 0).
Proof.
  induction n as [|n IH]; intros Hlen.
  - cbn. repeat split; try lia; intros; try lia. eauto.
  - destruct IH as (IHl & IHmin & IHfix & IHval); [lia|].
    rewrite pass_upto_S. cbv zeta.
    set (b := pass_upto i n a) in *. set (j := (S i + n)%nat).
    assert (Hi : (i < length b)%nat) by lia.
    assert (Hj : (j < length b)%nat) by (unfold j; lia).
    assert (Hij : i <> j) by (unfold j; lia).
    destruct (Z.gtb_spec (nth i b 0) (nth j b 0)) as [Hgt|Hle].
    + split; [rewrite swap_length; exact IHl|].
      split; [|split].
      * intros l Hl. rewrite !(swap_nth b i j) by assumption.
        destruct (Nat.eq_dec i i) as [_|]; [|congruence].
        destruct (Nat.eq_dec l i) as [->|_]; [lia|].
        destruct (Nat.eq_dec l j) as [->|Hlj]; [lia|].
        assert (nth i b 0 <= nth l b 0) by (apply IHmin; unfold j in *; lia).
        lia.
      * intros k Hk. rewrite (swap_nth b i j) by assumption.
        destruct (Nat.eq_dec k i) as [->|_]; [lia|].
        destruct (Nat.eq_dec k j) as [->|_]; [unfold j in Hk; lia|].
        apply IHfix. exact Hk.
      * intros l Hl. rewrite (swap_nth b i j) by assumption.
        destruct (Nat.eq_dec l i) as [->|_]; [apply IHval; unfold j; lia|].
        destruct (Nat.eq_dec l j) as [->|_]; [apply IHval; lia|].
        apply IHval. exact Hl.
    + split; [exact IHl|]. split; [|split; assumption].
      intros l Hl. destruct (Nat.eq_dec l j) as [->|Hlj]; [lia|].
      apply IHmin. unfold j in *. lia.
Qed.

Lemma sort_pass_settles i a :
  (S i <= length a)%nat ->
  settled i a ->
  length (sort_pass (length a) i a) = length a /\
  settled (S i) (sort_pass (length a) i a).
Proof.
  intros Hi Hs.
  destruct (pass_upto_spec i a (length a - S i)) as (Hl & Hmin & Hfix & Hval);
    [lia|].
  fold (sort_pass (length a) i a) in Hl, Hmin, Hfix, Hval.
  split; [exact Hl|].
  intros i0 j0 Hi0 Hj0. rewrite Hl in Hj0.
  destruct (Nat.eq_dec i0 i) as [->|Hne].
  - apply Hmin. lia.
  - rewrite (Hfix i0) by lia.
    destruct (Nat.lt_ge_cases j0 i) as [Hlt|Hge].
    + rewrite (Hfix j0) by lia. apply Hs; lia.
    + destruct (Hval j0) as (l' & Hl' & ->); [lia|]. apply Hs; lia.
Qed.

Lemma sort_upto_settles a : forall n,
  (n <= length a - 1)%nat ->
  let b := fold_left (fun x i => sort_pass (length a) i x) (seq 0 n) a in
  length b = length a /\ settled n b.
Proof.
  induction n as [|n IH]; intros Hn.
  - cbn. split; [reflexivity|]. intros i j Hi. lia.
  - destruct IH as (IHl & IHs); [lia|].
    rewrite seq_S, fold_left_app. cbn [fold_left Nat.add].
    set (b := fold_left _ (seq 0 n) a) in *.
    destruct (sort_pass_settles n b) as (Hl & Hs); [lia | exact IHs |].
    rewrite IHl in Hl, Hs. split; assumption.
Qed.

(** The array is in ascending order after the two loops. *)
Lemma sort_samples_sorted a i j :
  (i <= j < length a)%nat ->
  nth i (sort_samples (length a) a) 0 <= nth j (sort_samples (length a) a) 0.
Proof.
  intros Hij. unfold sort_samples.
  destruct (sort_upto_settles a (length a - 1)) as (Hl & Hs); [lia|].
  destruct (Nat.eq_dec i j) as [->|Hne]; [lia|].
  apply Hs; lia.
Qed.

(** *** Percentiles *)

Lemma int_of_double_floor x : (0 <= x)%Q -> int_of_double x = Qfloor x.
Proof.
  destruct x as [n d]. unfold Qle, int_of_double. simpl. intros H.
  apply Z.quot_div_nonneg; lia.
Qed.

Lemma scaled_le p q c :
  0 <= c -> (p <= q)%Q ->
  (p * inject_Z c / 100 <= q * inject_Z c / 100)%Q.
Proof.
  intros Hc Hpq. unfold Qdiv.
  apply Qmult_le_compat_r; [|discriminate].
  apply Qmult_le_compat_r; [exact Hpq|].
  unfold Qle. simpl. lia.
Qed.

Lemma scaled_nonneg p c :
  0 <= c -> (0 <= p)%Q -> (0 <= p * inject_Z c / 100)%Q.
Proof.
  intros Hc Hp. unfold Qdiv.
  apply Qmult_le_0_compat; [|discriminate].
  apply Qmult_le_0_compat; [exact Hp|].
  unfold Qle. simpl. lia.
Qed.

(** A larger percentile never yields a smaller latency. *)
Lemma percentile_monotone g samples p q :
  recent_samples g = Some samples ->
  0 < sample_count g <= Z.of_nat (length samples) ->
  (0 <= p)%Q -> (p <= q)%Q ->
  (calculate_percentile g p <= calculate_percentile g q)%Q.
Proof.
  intros Hs Hc Hp Hpq. unfold calculate_percentile. rewrite Hs.
  destruct (Z.eqb_spec (sample_count g) 0) as [E|_]; [lia|]. cbv zeta.
  set (c := sample_count g) in *.
  set (a := firstn (Z.to_nat c) samples).
  assert (Ha : length a = Z.to_nat c)
    by (unfold a; rewrite length_firstn; lia).
  rewrite <- Ha.
  assert (Hq : (0 <= q)%Q) by (eapply Qle_trans; eassumption).
  rewrite !int_of_double_floor by (apply scaled_nonneg; [lia | assumption]).
  pose proof (Qfloor_resp_le _ _ (scaled_le p q c ltac:(lia) Hpq)) as Hmono.
  pose proof (Qfloor_resp_le _ _ (scaled_nonneg p c ltac:(lia) Hp)) as Hpos.
  change (Qfloor 0) with 0 in Hpos.
  set (ip := Qfloor (p * inject_Z c / 100)) in *.
  set (iq := Qfloor (q * inject_Z c / 100)) in *.
  unfold Qle. cbn [Qnum Qden].
  apply Z.mul_le_mono_nonneg_r; [lia|].
  apply sort_samples_sorted.
  destruct (Z.geb_spec ip c), (Z.geb_spec iq c); lia.
Qed.

(** C9.  For a sample buffer that holds at least one sample the four
    percentiles printed by the report are in ascending order. *)
Theorem percentiles_are_monotonic g samples :
  recent_samples g = Some samples ->
  0 < sample_count g <= Z.of_nat (length samples) ->
  (calculate_percentile g 50 <= calculate_percentile g 90)%Q /\
  (calculate_percentile g 90 <= calculate_percentile g 95)%Q /\
  (calculate_percentile g 95 <= calculate_percentile g 99)%Q.
Proof.
  intros Hs Hc.
  repeat split; apply (percentile_monotone g samples); try assumption;
    unfold Qle; simpl; lia.
Qed.

(** Seven samples recorded out of order. *)
Lemma percentiles_are_monotonic_witness :
  let cfg := config_with 100 PATTERN_FIXED false in
  let g := record_all cfg (initial_globals cfg)
             [7000; 3000; 9000; 1000; 8000; 2000; 5000] in
  (calculate_percentile g 50 <= calculate_percentile g 90)%Q /\
  (calculate_percentile g 90 <= calculate_percentile g 95)%Q /\
  (calculate_percentile g 95 <= calculate_percentile g 99)%Q.
Proof.
  intros cfg g.
  apply (percentiles_are_monotonic g
           ([7000; 3000; 9000; 1000; 8000; 2000; 5000] ++ repeat 0 93)).
  - vm_compute. reflexivity.
  - vm_compute. split; [reflexivity | discriminate].
Defined.

End DmaLatencyFacts.

(** ** The percentiles of the register latency test *)

Section RegisterLatencyFacts.

Import RegisterLatency.

Variable qsort : list Z -> list Z.
Hypothesis qsort_ascending : forall a i j,
  (i <= j < length a)%nat -> nth i (qsort a) 0 <= nth j (qsort a) 0.

(** With [count] samples, [count * 99] inside the range of [int], the
    percentiles read from the sorted array are in ascending order. *)
Lemma register_percentiles_ascending latencies :
  let count := Z.of_nat (length latencies) in
  0 < count -> count * 99 <= INT_MAX ->
  let r := calculate_percentiles qsort latencies count in
  (p50 r <= p90 r)%Q /\ (p90 r <= p95 r)%Q /\ (p95 r <= p99 r)%Q.
Proof.
  intros count Hpos Hfit r. unfold r, calculate_percentiles.
  cbn [p50 p90 p95 p99]. unfold Qle. cbn [Qnum Qden].
  rewrite !Z.quot_div_nonneg by lia.
  repeat split; apply Z.mul_le_mono_nonneg_r; try lia;
    apply qsort_ascending; unfold count in *;
    Z.to_euclidean_division_equations; lia.
Qed.

End RegisterLatencyFacts.

(** The exchange sort of the DMA latency test is one such sort. *)
Lemma register_percentiles_with_exchange_sort latencies :
  let count := Z.of_nat (length latencies) in
  0 < count -> count * 99 <= INT_MAX ->
  let r := RegisterLatency.calculate_percentiles
             (fun a => DmaLatency.sort_samples (length a) a)
             latencies count in
  (RegisterLatency.p50 r <= RegisterLatency.p90 r)%Q /\
  (RegisterLatency.p90 r <= RegisterLatency.p95 r)%Q /\
  (RegisterLatency.p95 r <= RegisterLatency.p99 r)%Q.
Proof.
  apply (register_percentiles_ascending
           (fun a => DmaLatency.sort_samples (length a) a)).
  intros a i j Hij. apply sort_samples_sorted. exact Hij.
Qed.

(** * Further properties of the final latency test *)

Section FinalMore.

Import Final.

Variable iterations : Z.
Variable packet_size : Z.
Variable DMA_BUFFER_SIZE : Z.

Abbreviation send_step2 :=
  (Final.send_step iterations packet_size DMA_BUFFER_SIZE).
Abbreviation recv_step2 := (Final.recv_step iterations packet_size).
Abbreviation match_pending2 := (Final.match_pending packet_size).
Abbreviation run2 := (Final.run iterations packet_size DMA_BUFFER_SIZE).
Abbreviation fill_packet2 :=
  (Final.fill_packet packet_size DMA_BUFFER_SIZE).

(** X1.  What the producer writes the consumer accepts: the packet built
    for sequence [s] (a packet of at least two words that fits a DMA
    buffer) fills the whole buffer, carries the marker in word 0 and [s] in
    word 1, and passes the integrity loop run for [s]. *)
Theorem producer_packet_passes_consumer_check s :
  8 <= packet_size <= DMA_BUFFER_SIZE ->
  length (fill_packet2 s) = Z.to_nat (DMA_BUFFER_SIZE / 4) /\
  nth 0 (fill_packet2 s) 0 = MARKER_VALUE /\
  nth 1 (fill_packet2 s) 0 = s /\
  Final.payload_valid packet_size (fill_packet2 s) s = true.
Proof.
  intros Hfit. split; [apply fill_packet_length|].
  destruct (loopback_header packet_size DMA_BUFFER_SIZE s Hfit) as (H0 & H1).
  split; [exact H0|]. split; [exact H1|].
  apply loopback_payload_valid. lia.
Qed.

(** The scan of a ring that holds no entry for [s] ends without a match
    and without touching the state. *)
Lemma scan_misses st data s t :
  ring_ok st -> ledger_fresh st s ->
  forall (m i fuel : nat),
    Z.of_nat i + Z.of_nat m = ledger_len st -> (m < fuel)%nat ->
    match_pending2 fuel st data s t
      ((pending_head st + Z.of_nat i) mod MAX_PENDING) = Some (st, false).
Proof.
  intros Hok Hfresh. induction m as [|m IH]; intros i fuel Him Hf;
    (destruct fuel as [|fuel]; [lia|]); simpl.
  - replace ((pending_head st + Z.of_nat i) mod MAX_PENDING)
      with (pending_tail st).
    + rewrite Z.eqb_refl. reflexivity.
    + destruct Hok as (Hh & Ht & _). unfold ledger_len, MAX_PENDING in *.
      Z.to_euclidean_division_equations. lia.
  - destruct (Z.eqb_spec ((pending_head st + Z.of_nat i) mod MAX_PENDING)
                (pending_tail st)) as [E|_].
    { exfalso. revert E. apply live_slot_not_tail; [exact Hok | lia]. }
    fold (ledger_entry st (Z.of_nat i)).
    destruct (Z.eqb_spec (lm_sequence (ledger_entry st (Z.of_nat i))) s)
      as [E|_].
    { exfalso. revert E. apply Hfresh. lia. }
    rewrite next_slot by (apply Z.mod_pos_bound; reflexivity).
    rewrite Z.add_mod_idemp_l by (unfold MAX_PENDING; lia).
    replace (pending_head st + Z.of_nat i + 1)
      with (pending_head st + Z.of_nat (S i)) by lia.
    apply IH; lia.
Qed.

(** An echo with the marker and a fresh sequence below [iterations] for
    which the ring holds no entry. *)
Lemma recv_unknown_sequence st data rx :
  ring_ok st ->
  nth 0 data 0 = MARKER_VALUE ->
  nth 1 data 0 < iterations ->
  processed_at st (nth 1 data 0) = 0 ->
  ledger_fresh st (nth 1 data 0) ->
  recv_step2 st (Some data) rx =
  Some (release_read (count_received (mark_processed st (nth 1 data 0)))).
Proof.
  intros Hok Hm Hlt Hp Hfresh. unfold Final.recv_step.
  rewrite Hm, Z.eqb_refl. cbv zeta. rewrite Hp.
  apply Z.ltb_lt in Hlt. rewrite Hlt.
  change (true && negb (0 =? 0))%bool with false. cbv iota.
  pose proof (ledger_len_range st) as Hr.
  pose proof (scan_misses (mark_processed st (nth 1 data 0)) data
                (nth 1 data 0) rx Hok Hfresh
                (Z.to_nat (ledger_len st)) 0%nat (Z.to_nat MAX_PENDING)) as H.
  change (ledger_len (mark_processed st (nth 1 data 0)))
    with (ledger_len st) in H.
  cbn [pending_head mark_processed Z.of_nat] in H.
  rewrite Z.add_0_r, Z.mod_small in H by (destruct Hok as (Hh & _); exact Hh).
  rewrite H by (unfold MAX_PENDING in *; lia). reflexivity.
Qed.

(** The scan either leaves the state alone or records a latency for a
    live entry of the ring that carries the sequence looked for. *)
Lemma match_outcome data s t st :
  ring_ok st ->
  forall fuel (i : nat) st' found,
    Z.of_nat i <= ledger_len st ->
    match_pending2 fuel st data s t
      ((pending_head st + Z.of_nat i) mod MAX_PENDING) = Some (st', found) ->
    st' = st \/
    exists k latency,
      0 <= k < ledger_len st /\
      lm_sequence (ledger_entry st k) = s /\
      0 <= latency < 2 ^ 64 /\ st' = record_latency st latency.
Proof.
  intros Hok. induction fuel as [|fuel IH]; intros i st' found Hi; simpl.
  - discriminate.
  - destruct (Z.eqb_spec ((pending_head st + Z.of_nat i) mod MAX_PENDING)
                (pending_tail st)) as [_|Hne].
    + intros [= <- _]. left. reflexivity.
    + assert (Hlt : Z.of_nat i < ledger_len st).
      { destruct (Z.eq_dec (Z.of_nat i) (ledger_len st)) as [E|E]; [|lia].
        exfalso. apply Hne. rewrite E. destruct Hok as (Hh & Ht & _).
        unfold ledger_len, MAX_PENDING in *.
        Z.to_euclidean_division_equations. lia. }
      fold (ledger_entry st (Z.of_nat i)).
      destruct (Z.eqb_spec (lm_sequence (ledger_entry st (Z.of_nat i))) s)
        as [Hs|_].
      * destruct (Final.payload_valid packet_size data s);
          intros [= <- _]; [right | left; reflexivity].
        exists (Z.of_nat i),
               (u64 (t - lm_timestamp (ledger_entry st (Z.of_nat i)))).
        pose proof (u64_range
                      (t - lm_timestamp (ledger_entry st (Z.of_nat i)))).
        repeat split; try assumption; lia.
      * rewrite next_slot by (apply Z.mod_pos_bound; reflexivity).
        rewrite Z.add_mod_idemp_l by (unfold MAX_PENDING; lia).
        replace (pending_head st + Z.of_nat i + 1)
          with (pending_head st + Z.of_nat (S i)) by lia.
        apply IH. lia.
Qed.

(** Every call of the consumer falls into one of six cases. *)
Lemma recv_cases st buf_rd rx st' :
  ring_ok st ->
  recv_step2 st buf_rd rx = Some st' ->
  recv_outcome iterations st buf_rd st'.
Proof.
  intros Hok. unfold Final.recv_step. destruct buf_rd as [data|].
  - destruct (Z.eqb_spec (nth 0 data 0) MARKER_VALUE) as [Hm|Hm].
    + cbv zeta.
      destruct (Z.ltb_spec (nth 1 data 0) iterations) as [Hlt|Hge].
      * destruct (Z.eqb_spec (processed_at st (nth 1 data 0)) 0) as [Hp|Hp];
          cbn [negb andb].
        -- destruct (Final.match_pending _ _ _ _ _ _ _)
             as [[st1 found]|] eqn:E; [|discriminate].
           intros [= <-].
           pose proof (match_outcome data (nth 1 data 0) rx
                         (mark_processed st (nth 1 data 0)) Hok
                         (Z.to_nat MAX_PENDING) 0%nat st1 found) as H.
           change (ledger_len (mark_processed st (nth 1 data 0)))
             with (ledger_len st) in H.
           change (ledger_entry (mark_processed st (nth 1 data 0)))
             with (ledger_entry st) in H.
           cbn [pending_head mark_processed Z.of_nat] in H.
           rewrite Z.add_0_r, Z.mod_small in H
             by (destruct Hok as (Hh & _); exact Hh).
           pose proof (ledger_len_range st) as Hr.
           destruct (H ltac:(lia) E)
             as [-> | (k & latency & Hk & Hs & Hl & ->)].
           ++ apply recv_unmatched; assumption.
           ++ apply (recv_matched iterations st data k latency);
                assumption.
        -- intros [= <-]. apply recv_again; assumption.
      * cbn [andb]. intros [= <-]. apply recv_out_of_range; assumption.
    + intros [= <-]. apply recv_foreign. exact Hm.
  - intros [= <-]. apply recv_nothing.
Qed.

Lemma marked_upto_range l : forall n, 0 <= marked_upto n l <= Z.of_nat n.
Proof.
  induction n as [|n IH]; simpl marked_upto.
  - simpl. lia.
  - destruct (nth n l 0 =? 0); lia.
Qed.

Lemma marked_upto_grows l i : forall n,
  marked_upto n l <= marked_upto n (<[i := 1]> l).
Proof.
  induction n as [|n IH]; simpl; [lia|].
  destruct (Nat.eq_dec i n) as [->|Hne].
  - destruct (Nat.lt_ge_cases n (length l)) as [Hlt|Hge].
    + rewrite nth_insert_eq by exact Hlt. simpl.
      destruct (nth n l 0 =? 0); lia.
    + rewrite list_insert_ge in * by exact Hge. lia.
  - rewrite nth_insert_ne by exact Hne.
    destruct (nth n l 0 =? 0); lia.
Qed.

Lemma marked_upto_new l i : forall n,
  (i < n)%nat -> (i < length l)%nat -> nth i l 0 = 0 ->
  marked_upto n (<[i := 1]> l) = marked_upto n l + 1.
Proof.
  induction n as [|n IH]; intros Hi Hl H0; [lia|]. simpl.
  destruct (Nat.eq_dec i n) as [->|Hne].
  - rewrite nth_insert_eq by exact Hl. rewrite H0. simpl.
    assert (E : forall k, (k <= n)%nat ->
              marked_upto k (<[n := 1]> l) = marked_upto k l).
    { induction k as [|k IHk]; intros Hk; simpl; [reflexivity|].
      rewrite nth_insert_ne by lia. rewrite IHk by lia. reflexivity. }
    rewrite E by lia. lia.
  - rewrite nth_insert_ne by exact Hne. rewrite IH by (try assumption; lia).
    lia.
Qed.

Hypothesis iterations_u32 : 0 <= iterations < 2 ^ 32.

Lemma initial_steady : steady iterations (initial_state iterations).
Proof.
  split; [apply initial_state_inv; exact iterations_u32|].
  split; [|split].
  - unfold ring_shape, initial_state.
    cbn [pending_head pending_tail sent]. unfold MAX_PENDING.
    split; [reflexivity|]. split; [reflexivity|]. intros j Hj. lia.
  - cbn [successful initial_state processed].
    pose proof (marked_upto_range (repeat 0 (Z.to_nat iterations)) 255). lia.
  - left. repeat split.
Qed.

Lemma send_step_steady st buf_wr now :
  steady iterations st ->
  steady iterations (fst (send_step2 st buf_wr now)).
Proof.
  intros (Hinv & Hshape & Hsucc & Hext).
  pose proof (send_step_inv iterations packet_size DMA_BUFFER_SIZE
                iterations_u32 st buf_wr now Hinv) as Hinv'.
  split; [exact Hinv'|]. clear Hinv'.
  destruct Hinv as (Hok & Hlen & Hseq & Hsent & _).
  pose proof Hshape as (Hh & Ht & Hent).
  unfold Final.send_step.
  destruct (Z.ltb_spec (sent st) iterations) as [Hlt|_];
    [|split; [exact Hshape | split; assumption]].
  destruct buf_wr; [|split; [exact Hshape | split; assumption]].
  cbv zeta. cbn [fst].
  assert (Hs : u32 (sent st + 1) = sent st + 1) by (apply u32_small; lia).
  destruct Hok as (Hhr & Htr & Hl).
  assert (Hnext : Z.rem (pending_tail st + 1) MAX_PENDING
                  = (pending_tail st + 1) mod MAX_PENDING)
    by (apply next_slot; exact Htr).
  unfold MAX_PENDING in *.
  destruct (Z.eqb_spec (Z.rem (pending_tail st + 1) 256) (pending_head st))
    as [Hfull|Hroom]; cbn [negb].
  - assert (pending_tail st = 255)
      by (rewrite Hnext, Hh in Hfull; clear - Hfull Htr;
          Z.to_euclidean_division_equations; lia).
    split; [|split; assumption].
    unfold ring_shape, MAX_PENDING.
    cbn [pending_head pending_tail sent commit_send].
    rewrite Hs. split; [exact Hh|]. split; [lia|]. exact Hent.
  - assert (Hsmall : sent st < 255).
    { destruct (Z.lt_ge_cases (sent st) 255) as [|Hge]; [assumption|].
      exfalso. apply Hroom. rewrite Hnext, Hh, Ht.
      rewrite Z.min_r by lia. reflexivity. }
    rewrite Z.min_l in Ht by lia.
    split; [|split; assumption].
    unfold ring_shape, pending_at, MAX_PENDING.
    cbn [pending_head pending_tail sent pending commit_send store_pending].
    rewrite Hs, Hnext, Ht. rewrite Z.mod_small by lia.
    split; [exact Hh|]. split; [lia|]. intros j Hj.
    destruct (Z.eq_dec j (sent st)) as [->|Hne].
    + rewrite nth_insert_eq by lia.
      cbn [lm_sequence lm_marker]. split; [exact Hseq | reflexivity].
    + rewrite nth_insert_ne by lia. apply Hent. lia.
Qed.

Lemma record_keeps_extremes st latency :
  0 <= latency < 2 ^ 64 -> extremes_ok st ->
  extremes_ok (record_latency st latency).
Proof.
  intros Hl Hext. right. cbn [min_latency max_latency record_latency].
  rewrite bool_min, bool_max.
  destruct Hext as [(_ & -> & -> & _) | (H0 & H1 & H2)];
    unfold UINT64_MAX; lia.
Qed.

Lemma recv_step_steady st buf_rd rx st' :
  steady iterations st ->
  recv_step2 st buf_rd rx = Some st' ->
  steady iterations st'.
Proof.
  intros (Hinv & Hshape & Hsucc & Hext) E.
  pose proof (recv_step_inv iterations packet_size st buf_rd rx st' Hinv E)
    as Hinv'.
  pose proof (recv_step_frame iterations packet_size st buf_rd rx st' E)
    as (Hp & Hh & Ht & _ & Hn & _).
  split; [exact Hinv'|]. split.
  { destruct Hshape as (H1 & H2 & H3). unfold ring_shape, pending_at.
    rewrite Hp, Hh, Ht, Hn. repeat split; try assumption; apply H3;
      assumption. }
  destruct Hinv as (Hok & Hlen & _ & _ & _).
  destruct Hshape as (H1 & H2 & H3).
  apply recv_cases in E; [|exact Hok].
  destruct E as [ | data Hm | data Hm Hge | data Hm Hlt Hpr | data Hm Hlt Hpr
                | data k latency Hm Hlt Hpr Hk Hs Hl ];
    try (split; assumption).
  - split; [|exact Hext].
    cbn [successful processed release_read count_received mark_processed].
    pose proof (marked_upto_grows (processed st)
                  (Z.to_nat (nth 1 data 0)) 255). lia.
  - split; [|apply record_keeps_extremes; assumption].
    cbn [successful processed release_read count_received mark_processed
         record_latency].
    assert (Hlen' : ledger_len st = pending_tail st).
    { unfold ledger_len. rewrite H1, Z.sub_0_r. apply Z.mod_small.
      apply Hok. }
    assert (Hks : nth 1 data 0 = k).
    { rewrite <- Hs. unfold ledger_entry. rewrite H1, Z.add_0_l.
      rewrite Z.mod_small by (destruct Hok as (_ & Hb & _); lia).
      apply H3. lia. }
    assert (k < 255) by (unfold MAX_PENDING in *; lia).
    rewrite marked_upto_new;
      [ | lia | rewrite Hlen; lia | rewrite Hks in Hpr; rewrite Hks;
                                    exact Hpr ].
    pose proof (marked_upto_range (processed st) 255).
    rewrite u32_small by lia. lia.
Qed.

Lemma run_steady inputs : forall st st',
  steady iterations st ->
  run2 st inputs = Some st' -> steady iterations st'.
Proof.
  induction inputs as [|i rest IH]; intros st st' Hst; simpl.
  - intros [= <-]. exact Hst.
  - destruct (Final.loop_condition iterations st (in_keep_running i));
      [|intros [= <-]; exact Hst].
    unfold Final.loop_body.
    destruct (recv_step2 _ _ _) as [st1|] eqn:E; [|discriminate].
    apply IH. eapply recv_step_steady; [|exact E].
    apply send_step_steady. exact Hst.
Qed.

Lemma run_from_initial inputs :
  exists st,
    run2 (initial_state iterations) inputs = Some st /\
    steady iterations st.
Proof.
  destruct (run_reaches_inv iterations packet_size DMA_BUFFER_SIZE
              iterations_u32 inputs (initial_state iterations))
    as (st & E & _).
  - apply initial_state_inv. exact iterations_u32.
  - exists st. split; [exact E|].
    eapply run_steady; [apply initial_steady | exact E].
Qed.

(** X2.  The main loop is memory safe and comes back: whatever the DMA
    engine delivers turn after turn, the loop returns (the scan of the ring
    ends), the ring indices stay inside [pending], [processed] keeps one
    slot per iteration, and [sequence] equals [sent], which never exceeds
    [iterations]. *)
Theorem main_loop_returns_in_bounds inputs :
  exists st,
    run2 (initial_state iterations) inputs = Some st /\
    0 <= pending_head st < MAX_PENDING /\
    0 <= pending_tail st < MAX_PENDING /\
    length (pending st) = Z.to_nat MAX_PENDING /\
    length (processed st) = Z.to_nat iterations /\
    sequence st = sent st /\
    0 <= sent st <= iterations.
Proof.
  destruct (run_from_initial inputs)
    as (st & E & ((Hh & Ht & Hl) & Hp & Hs & Hn & _) & _).
  exists st. repeat split; try assumption; lia.
Qed.

(** X3.  The ring never drains.  In every state of a run the head is still
    on slot 0, the ring holds [min sent 255] entries, and entry [j] is the
    probe with sequence [j]: only the first 255 probes of a run ever get an
    entry. *)
Theorem ring_keeps_the_first_255_probes inputs :
  exists st,
    run2 (initial_state iterations) inputs = Some st /\
    pending_head st = 0 /\
    ledger_len st = Z.min (sent st) 255 /\
    forall j, 0 <= j < ledger_len st ->
      lm_sequence (ledger_entry st j) = j /\
      lm_marker (ledger_entry st j) = MARKER_VALUE.
Proof.
  destruct (run_from_initial inputs)
    as (st & E & ((Hh & Ht & Hl) & _) & (H1 & H2 & H3) & _).
  assert (Hlen : ledger_len st = pending_tail st).
  { unfold ledger_len. rewrite H1, Z.sub_0_r. apply Z.mod_small. exact Ht. }
  exists st. split; [exact E|]. split; [exact H1|].
  split; [rewrite Hlen, H2; reflexivity|].
  intros j Hj. unfold ledger_entry. rewrite H1, Z.add_0_l.
  rewrite Z.mod_small by lia. apply H3. lia.
Qed.

(** X4.  At most 255 probes are ever measured, so a run of more than 255
    iterations never leaves the main loop on its own: its condition
    [sent < iterations || successful < sent] stays true until the signal
    handler clears [keep_running]. *)
Theorem long_run_never_completes inputs :
  exists st,
    run2 (initial_state iterations) inputs = Some st /\
    0 <= successful st <= 255 /\
    (255 < iterations -> Final.loop_condition iterations st true = true).
Proof.
  destruct (run_from_initial inputs)
    as (st & E & (_ & _ & _ & Hn & _) & _ & Hsucc & _).
  pose proof (marked_upto_range (processed st) 255) as Hm.
  exists st. split; [exact E|]. split; [lia|].
  intros Hbig. unfold Final.loop_condition. rewrite andb_true_r.
  destruct (Z.ltb_spec (sent st) iterations) as [|Hge]; [reflexivity|].
  apply Z.ltb_lt. lia.
Qed.

(** X5.  Whenever the report prints latency statistics
    ([successful > 0]), the minimum is not above the maximum and both are
    values of a [uint64_t], whatever was received. *)
Theorem recorded_minimum_not_above_maximum inputs :
  exists st,
    run2 (initial_state iterations) inputs = Some st /\
    (successful st <> 0 ->
     0 <= min_latency st /\ min_latency st <= max_latency st /\
     max_latency st < 2 ^ 64).
Proof.
  destruct (run_from_initial inputs) as (st & E & _ & _ & _ & Hext).
  exists st. split; [exact E|]. intros Hs.
  destruct Hext as [(H0 & _) | H]; [contradiction | exact H].
Qed.

(** The marks of [processed] once an echo has been marked. *)
Lemma later_echo_is_a_duplicate st1 s :
  s < iterations ->
  processed_at st1 s <> 0 ->
  forall inputs st2 data2 rx2,
    run2 st1 inputs = Some st2 ->
    nth 0 data2 0 = MARKER_VALUE -> nth 1 data2 0 = s ->
    recv_step2 st2 (Some data2) rx2 =
    Some (release_read (count_received (count_duplicate st2))).
Proof.
  intros Hlt Hmark inputs st2 data2 rx2 Hrun Hm Hs.
  apply recv_duplicate; rewrite ?Hs; try assumption.
  eapply run_keeps_mark; eassumption.
Qed.

(** X6.  A damaged first echo forfeits its probe.  When the first echo of
    a probe that is in the ring fails the integrity loop, it is counted in
    [received] and marked in [processed], and no latency is recorded; from
    then on every echo with that sequence number, an intact one included,
    is only counted as a duplicate: the probe is never measured. *)
Theorem damaged_echo_forfeits_the_probe inputs0 st data rx :
  run2 (initial_state iterations) inputs0 = Some st ->
  nth 0 data 0 = MARKER_VALUE ->
  0 <= nth 1 data 0 < Z.min (sent st) 255 ->
  processed_at st (nth 1 data 0) = 0 ->
  Final.payload_valid packet_size data (nth 1 data 0) = false ->
  exists st1,
    recv_step2 st (Some data) rx = Some st1 /\
    latency_stats st1 = latency_stats st /\
    duplicates st1 = duplicates st /\
    received st1 = u32 (received st + 1) /\
    forall inputs st2 data2 rx2,
      run2 st1 inputs = Some st2 ->
      nth 0 data2 0 = MARKER_VALUE -> nth 1 data2 0 = nth 1 data 0 ->
      recv_step2 st2 (Some data2) rx2 =
      Some (release_read (count_received (count_duplicate st2))).
Proof.
  intros Hrun Hm Hs Hp Hbad.
  destruct (run_from_initial inputs0) as (st' & E & Hst).
  rewrite Hrun in E. injection E as <-.
  destruct Hst as (((Hh & Ht & Hl) & Hlen & _ & Hn & _) & (H1 & H2 & H3) & _).
  assert (Hll : ledger_len st = pending_tail st).
  { unfold ledger_len. rewrite H1, Z.sub_0_r. apply Z.mod_small. exact Ht. }
  assert (Hent : forall j, 0 <= j < pending_tail st ->
                   lm_sequence (ledger_entry st j) = j).
  { intros j Hj. unfold ledger_entry. rewrite H1, Z.add_0_l.
    rewrite Z.mod_small by lia. apply H3. exact Hj. }
  unfold MAX_PENDING in *.
  assert (Hfirst := recv_first_echo iterations packet_size st data rx
                      (Z.to_nat (nth 1 data 0))).
  rewrite Z2Nat.id in Hfirst by lia. rewrite Hbad in Hfirst.
  rewrite Hfirst; try assumption; try lia.
  - eexists. split; [reflexivity|]. do 3 (split; [reflexivity|]).
    apply later_echo_is_a_duplicate; [lia|].
    unfold processed_at.
    cbn [processed release_read count_received mark_processed].
    rewrite nth_insert_eq by lia. discriminate.
  - exact (conj Hh (conj Ht Hl)).
  - intros j Hj. rewrite Hent by lia. lia.
  - apply Hent. lia.
Qed.

(** X7.  An echo that arrives without an entry forfeits its probe too.  An
    echo with the marker whose sequence number is below [iterations] but
    has no entry in the ring (not sent yet, or sent while the ring was
    full) is counted in [received] and marked in [processed] without any
    latency; every later echo with that number is only a duplicate. *)
Theorem unmatched_echo_forfeits_the_probe inputs0 st data rx :
  run2 (initial_state iterations) inputs0 = Some st ->
  nth 0 data 0 = MARKER_VALUE ->
  Z.min (sent st) 255 <= nth 1 data 0 < iterations ->
  processed_at st (nth 1 data 0) = 0 ->
  exists st1,
    recv_step2 st (Some data) rx = Some st1 /\
    latency_stats st1 = latency_stats st /\
    duplicates st1 = duplicates st /\
    received st1 = u32 (received st + 1) /\
    forall inputs st2 data2 rx2,
      run2 st1 inputs = Some st2 ->
      nth 0 data2 0 = MARKER_VALUE -> nth 1 data2 0 = nth 1 data 0 ->
      recv_step2 st2 (Some data2) rx2 =
      Some (release_read (count_received (count_duplicate st2))).
Proof.
  intros Hrun Hm Hs Hp.
  destruct (run_from_initial inputs0) as (st' & E & Hst).
  rewrite Hrun in E. injection E as <-.
  destruct Hst as ((Hok & Hlen & _ & Hn & _) & (H1 & H2 & H3) & _).
  pose proof Hok as (Hh & Ht & Hl).
  assert (Hll : ledger_len st = pending_tail st).
  { unfold ledger_len. rewrite H1, Z.sub_0_r. apply Z.mod_small. exact Ht. }
  unfold MAX_PENDING in *.
  rewrite recv_unknown_sequence; try assumption; try lia.
  - eexists. split; [reflexivity|]. do 3 (split; [reflexivity|]).
    apply later_echo_is_a_duplicate; [lia|].
    unfold processed_at.
    cbn [processed release_read count_received mark_processed].
    rewrite nth_insert_eq by lia. discriminate.
  - intros j Hj. unfold ledger_entry. rewrite H1, Z.add_0_l.
    rewrite Z.mod_small by (unfold MAX_PENDING; lia).
    destruct (H3 j) as (-> & _); lia.
Qed.

Lemma send_step_tally st buf_wr now flushed n :
  tally flushed n st -> n + 1 < 2 ^ 32 ->
  tally flushed (n + 1) (fst (send_step2 st buf_wr now)).
Proof.
  intros (H1 & H2 & H3 & H4 & H5 & H6 & H7) Hn. unfold Final.send_step.
  destruct (sent st <? iterations);
    [|cbn [fst]; unfold tally; repeat split; lia].
  destruct buf_wr; [|cbn [fst]; unfold tally; repeat split; lia].
  cbv zeta. cbn [fst]. unfold tally.
  assert (Hs : u32 (sent st + 1) = sent st + 1) by (apply u32_small; lia).
  destruct (negb _);
    cbn [successful duplicates received writer_sw_count reader_sw_count sent
         commit_send store_pending];
    rewrite Hs; repeat split; lia.
Qed.

Lemma recv_step_tally st buf_rd rx st' flushed n :
  ring_ok st -> tally flushed n st -> n < 2 ^ 32 ->
  writer_sw_count st - flushed < n ->
  recv_step2 st buf_rd rx = Some st' ->
  tally flushed n st'.
Proof.
  intros Hok (H1 & H2 & H3 & H4 & H5 & H6 & H7) Hn Hw E.
  apply recv_cases in E; [|exact Hok].
  assert (Hr : u32 (received st + 1) = received st + 1)
    by (apply u32_small; lia).
  assert (Hd : u32 (duplicates st + 1) = duplicates st + 1)
    by (apply u32_small; lia).
  assert (Hs : u32 (successful st + 1) = successful st + 1)
    by (apply u32_small; lia).
  destruct E; unfold tally;
    cbn [successful duplicates received writer_sw_count reader_sw_count sent
         release_read count_received count_duplicate mark_processed
         record_latency];
    rewrite ?Hr, ?Hd, ?Hs; repeat split; lia.
Qed.

Lemma run_tally flushed inputs : forall st st' n,
  Final.run_inv iterations st -> tally flushed n st ->
  n + Z.of_nat (length inputs) < 2 ^ 32 ->
  run2 st inputs = Some st' ->
  tally flushed (n + Z.of_nat (length inputs)) st'.
Proof.
  induction inputs as [|i rest IH]; intros st st' n Hinv Ht Hn;
    cbn [length Final.run] in *.
  - intros [= <-]. rewrite Z.add_0_r. exact Ht.
  - assert (Hmono : tally flushed (n + Z.of_nat (S (length rest))) st).
    { destruct Ht as (H1 & H2 & H3 & H4 & H5 & H6 & H7).
      unfold tally. repeat split; lia. }
    destruct (Final.loop_condition iterations st (in_keep_running i));
      [|intros [= <-]; exact Hmono].
    unfold Final.loop_body.
    destruct (recv_step2 _ _ _) as [st1|] eqn:E; [|discriminate].
    intros Hrun.
    pose proof (send_step_inv iterations packet_size DMA_BUFFER_SIZE
                  iterations_u32 st (in_buf_wr i) (in_now i) Hinv) as Hinv1.
    pose proof (send_step_tally st (in_buf_wr i) (in_now i) flushed n Ht
                  ltac:(lia)) as Ht1.
    assert (Hw : writer_sw_count
                   (fst (send_step2 st (in_buf_wr i) (in_now i))) - flushed
                 < n + 1).
    { destruct Ht as (_ & _ & _ & _ & H5 & _).
      unfold Final.send_step. destruct (sent st <? iterations); [|simpl; lia].
      destruct (in_buf_wr i); [|simpl; lia]. cbv zeta.
      destruct (negb _); cbn [fst writer_sw_count commit_send store_pending];
        lia. }
    pose proof (recv_step_tally _ _ _ _ flushed (n + 1) (proj1 Hinv1) Ht1
                  ltac:(lia) Hw E) as Ht2.
    replace (n + Z.of_nat (S (length rest)))
      with (n + 1 + Z.of_nat (length rest)) by lia.
    apply (IH st1 st' (n + 1)); try assumption; [|lia].
    eapply recv_step_inv; eassumption.
Qed.

Lemma flushed_state_inv flushed :
  Final.run_inv iterations (flushed_state iterations flushed).
Proof.
  unfold Final.run_inv, ring_ok, flushed_state, ledger_len.
  cbn [pending pending_head pending_tail processed sequence sent].
  rewrite !repeat_length. unfold MAX_PENDING.
  split; [repeat split; lia|]. split; [reflexivity|].
  split; [reflexivity|]. split; [lia|].
  intros j Hj. change ((0 - 0) mod 256) with 0 in Hj. lia.
Qed.

(** X8.  The counters of the report add up.  The main loop is entered
    with [dma.writer_sw_count] at the number of stale buffers the flush
    loop consumed.  After any run of fewer than 2^32 turns every received
    packet was released once in the loop
    ([received <= writer_sw_count - flushed <= turns]), every measurement
    and every duplicate is a received packet
    ([successful + duplicates <= received]) and every probe counted in
    [sent] was committed to the DMA engine ([reader_sw_count = sent]). *)
Theorem counters_add_up flushed inputs :
  Z.of_nat (length inputs) < 2 ^ 32 ->
  exists st,
    run2 (flushed_state iterations flushed) inputs = Some st /\
    successful st + duplicates st <= received st /\
    received st <= writer_sw_count st - flushed /\
    writer_sw_count st - flushed <= Z.of_nat (length inputs) /\
    reader_sw_count st = sent st /\
    sent st <= Z.of_nat (length inputs).
Proof.
  intros Hlen.
  destruct (run_reaches_inv iterations packet_size DMA_BUFFER_SIZE
              iterations_u32 inputs (flushed_state iterations flushed)
              (flushed_state_inv flushed)) as (st & E & _).
  exists st. split; [exact E|].
  destruct (run_tally flushed inputs (flushed_state iterations flushed) st 0)
    as (H1 & H2 & H3 & H4 & H5 & H6 & H7); try assumption.
  - apply flushed_state_inv.
  - unfold tally, flushed_state. simpl. repeat split; lia.
  - repeat split; lia.
Qed.

End FinalMore.

Section FinalMoreExamples.

Import Final.

Lemma default_iterations_fit : 0 <= 1000 < 2 ^ 32.
Proof. split; [discriminate | reflexivity]. Qed.

Lemma three_sends_reach :
  run 1000 1024 8192 (initial_state 1000) three_sends = Some (after_sends 3).
Proof. vm_compute. reflexivity. Qed.

Lemma producer_packet_passes_consumer_check_witness :
  nth 0 (fill_packet 1024 8192 7) 0 = MARKER_VALUE /\
  nth 1 (fill_packet 1024 8192 7) 0 = 7 /\
  payload_valid 1024 (fill_packet 1024 8192 7) 7 = true.
Proof.
  apply (producer_packet_passes_consumer_check 1024 8192 7).
  vm_compute. split; discriminate.
Defined.

Lemma main_loop_returns_in_bounds_witness :
  exists st,
    run 1000 1024 8192 (initial_state 1000) sends_and_echo = Some st /\
    0 <= pending_head st < MAX_PENDING /\
    0 <= pending_tail st < MAX_PENDING /\
    length (pending st) = Z.to_nat MAX_PENDING /\
    length (processed st) = Z.to_nat 1000 /\
    sequence st = sent st /\
    0 <= sent st <= 1000.
Proof.
  exact (main_loop_returns_in_bounds 1000 1024 8192 default_iterations_fit
           sends_and_echo).
Defined.

Lemma ring_keeps_the_first_255_probes_witness :
  exists st,
    run 1000 1024 8192 (initial_state 1000) sends_and_echo = Some st /\
    pending_head st = 0 /\
    ledger_len st = Z.min (sent st) 255 /\
    forall j, 0 <= j < ledger_len st ->
      lm_sequence (ledger_entry st j) = j /\
      lm_marker (ledger_entry st j) = MARKER_VALUE.
Proof.
  exact (ring_keeps_the_first_255_probes 1000 1024 8192
           default_iterations_fit sends_and_echo).
Defined.

Lemma long_run_never_completes_witness :
  exists st,
    run 1000 1024 8192 (initial_state 1000) sends_and_echo = Some st /\
    0 <= successful st <= 255 /\
    (255 < 1000 -> loop_condition 1000 st true = true).
Proof.
  exact (long_run_never_completes 1000 1024 8192 default_iterations_fit
           sends_and_echo).
Defined.

Lemma recorded_minimum_not_above_maximum_witness :
  exists st,
    run 1000 1024 8192 (initial_state 1000) sends_and_echo = Some st /\
    (successful st <> 0 ->
     0 <= min_latency st /\ min_latency st <= max_latency st /\
     max_latency st < 2 ^ 64).
Proof.
  exact (recorded_minimum_not_above_maximum 1000 1024 8192
           default_iterations_fit sends_and_echo).
Defined.

Lemma damaged_echo_forfeits_the_probe_witness :
  exists st1,
    recv_step 1000 1024 (after_sends 3) (Some damaged_probe) 50 = Some st1 /\
    latency_stats st1 = latency_stats (after_sends 3) /\
    recv_step 1000 1024 st1 (Some (fill_packet 1024 8192 1)) 60 =
    Some (release_read (count_received (count_duplicate st1))).
Proof.
  destruct (damaged_echo_forfeits_the_probe 1000 1024 8192
              default_iterations_fit three_sends (after_sends 3)
              damaged_probe 50) as (st1 & H1 & H2 & _ & _ & H5).
  - exact three_sends_reach.
  - vm_compute. reflexivity.
  - vm_compute. split; [discriminate | reflexivity].
  - vm_compute. reflexivity.
  - vm_compute. reflexivity.
  - exists st1. split; [exact H1|]. split; [exact H2|].
    apply (H5 [] st1); [reflexivity | vm_compute; reflexivity
                        | vm_compute; reflexivity].
Defined.

Lemma unmatched_echo_forfeits_the_probe_witness :
  exists st1,
    recv_step 1000 1024 (after_sends 3) (Some (fill_packet 1024 8192 7)) 50
    = Some st1 /\
    latency_stats st1 = latency_stats (after_sends 3) /\
    recv_step 1000 1024 st1 (Some (fill_packet 1024 8192 7)) 60 =
    Some (release_read (count_received (count_duplicate st1))).
Proof.
  destruct (unmatched_echo_forfeits_the_probe 1000 1024 8192
              default_iterations_fit three_sends (after_sends 3)
              (fill_packet 1024 8192 7) 50) as (st1 & H1 & H2 & _ & _ & H5).
  - exact three_sends_reach.
  - vm_compute. reflexivity.
  - vm_compute. split; [discriminate | reflexivity].
  - vm_compute. reflexivity.
  - exists st1. split; [exact H1|]. split; [exact H2|].
    apply (H5 [] st1); [reflexivity | vm_compute; reflexivity
                        | vm_compute; reflexivity].
Defined.

(** Seven stale buffers flushed before the loop, then three sends and the
    echo of probe 1. *)
Lemma counters_add_up_witness :
  exists st,
    run 1000 1024 8192 (flushed_state 1000 7) sends_and_echo = Some st /\
    successful st + duplicates st <= received st /\
    received st <= writer_sw_count st - 7 /\
    writer_sw_count st - 7 <= Z.of_nat (length sends_and_echo) /\
    reader_sw_count st = sent st /\
    sent st <= Z.of_nat (length sends_and_echo).
Proof.
  apply (counters_add_up 1000 1024 8192 default_iterations_fit 7
           sends_and_echo).
  vm_compute. reflexivity.
Defined.

End FinalMoreExamples.

(** * Further properties of the DMA latency test *)

Section DmaLatencyMore.

Import DmaLatency.

Lemma wait_buffer_first {B : Type} (poll : nat -> option B) b :
  forall retries k,
    wait_buffer retries poll k = Some b <->
    exists j, (j <= retries)%nat /\ poll (k + j)%nat = Some b /\
              forall i, (i < j)%nat -> poll (k + i)%nat = None.
Proof.
  induction retries as [|retries IH]; intros k; simpl.
  - destruct (poll k) as [b'|] eqn:E; split.
    + intros [= <-]. exists 0%nat. rewrite Nat.add_0_r.
      repeat split; [lia | exact E | intros i Hi; lia].
    + intros (j & Hj & Hb & _). assert (j = 0%nat) by lia. subst j.
      rewrite Nat.add_0_r in Hb. congruence.
    + discriminate.
    + intros (j & Hj & Hb & _). assert (j = 0%nat) by lia. subst j.
      rewrite Nat.add_0_r in Hb. congruence.
  - destruct (poll k) as [b'|] eqn:E; split.
    + intros [= <-]. exists 0%nat. rewrite Nat.add_0_r.
      repeat split; [lia | exact E | intros i Hi; lia].
    + intros (j & Hj & Hb & Hnone). destruct j as [|j].
      * rewrite Nat.add_0_r in Hb. congruence.
      * specialize (Hnone 0%nat ltac:(lia)). rewrite Nat.add_0_r in Hnone.
        congruence.
    + intros H. apply IH in H as (j & Hj & Hb & Hnone).
      exists (S j). replace (k + S j)%nat with (S k + j)%nat by lia.
      repeat split; [lia | exact Hb |]. intros i Hi.
      destruct i as [|i]; [rewrite Nat.add_0_r; exact E|].
      replace (k + S i)%nat with (S k + i)%nat by lia. apply Hnone. lia.
    + intros (j & Hj & Hb & Hnone). apply IH. destruct j as [|j].
      * rewrite Nat.add_0_r in Hb. congruence.
      * exists j. replace (S k + j)%nat with (k + S j)%nat by lia.
        repeat split; [lia | exact Hb |]. intros i Hi.
        replace (S k + i)%nat with (k + S i)%nat by lia. apply Hnone. lia.
Qed.

(** X9.  The retry loop of [measure_dma_latency] polls at most 1001 times
    and hands over the first buffer that shows up: it returns [b] exactly
    when some poll among the first 1001 returns [b] and every poll before
    it returned [NULL]. *)
Theorem retry_loop_takes_the_first_buffer {B : Type}
    (poll : nat -> option B) (b : B) :
  wait_buffer 1000 poll 0 = Some b <->
  exists j, (j <= 1000)%nat /\ poll j = Some b /\
            forall i, (i < j)%nat -> poll i = None.
Proof. apply (wait_buffer_first poll b 1000 0). Qed.

Lemma count_differing_zero buffer expected idxs :
  count_differing buffer expected idxs = 0 <->
  forall i, In i idxs -> nth i buffer 0 = nth i expected 0.
Proof.
  induction idxs as [|i rest IH]; simpl.
  - split; [intros _ i [] | reflexivity].
  - pose proof (dma_differing_nonneg buffer expected rest) as Hpos.
    destruct (Z.eqb_spec (nth i buffer 0) (nth i expected 0)) as [E|E].
    + rewrite Z.add_0_l, IH. split.
      * intros H j [<-|Hj]; [exact E | apply H; exact Hj].
      * intros H j Hj. apply H. right. exact Hj.
    + split; [lia|]. intros H. exfalso. apply E, H. left. reflexivity.
Qed.

(** X10.  [verify_pattern] of the DMA latency test accepts a buffer exactly
    when it agrees with the expected one on each of the first [count]
    words: it returns 0 for no other buffer. *)
Theorem verify_accepts_only_equal_words cfg buffer expected count :
  fst (verify_pattern cfg buffer expected count) = 0 <->
  forall i, (i < count)%nat -> nth i buffer 0 = nth i expected 0.
Proof.
  unfold verify_pattern. rewrite verify_loop_errors, Z.add_0_l.
  rewrite count_differing_zero. split.
  - intros H i Hi. apply H, in_seq. lia.
  - intros H i Hi. apply in_seq in Hi. apply H. lia.
Qed.

Lemma measure_frame cfg rand env g write_buf iteration pos :
  let g' := snd (fst (measure_dma_latency cfg rand env g write_buf
                        iteration pos)) in
  g' = g \/
  exists n, 0 < n <= Z.of_nat (Z.to_nat (transfer_size cfg / 4)) /\
            verify_data cfg = true /\ g' = add_errors g n.
Proof.
  unfold measure_dma_latency.
  destruct (generate_pattern _ _ _ _ _ _) as [wb pos'].
  destruct (wait_buffer 1000 (write_polls env) 0); [|left; reflexivity].
  destruct (wait_buffer 1000 (read_polls env) 0) as [rd|];
    [|left; reflexivity].
  cbn [fst snd]. destruct (verify_data cfg); [|left; reflexivity].
  set (words := Z.to_nat (transfer_size cfg / 4)).
  destruct (Z.gtb_spec
              (fst (verify_pattern cfg (firstn words rd) (firstn words wb)
                      words)) 0) as [Hpos|_]; [|left; reflexivity].
  right. eexists. split; [|split; reflexivity]. split; [exact Hpos|].
  unfold verify_pattern. rewrite verify_loop_errors, Z.add_0_l.
  clear Hpos. generalize (firstn words rd) (firstn words wb). intros b e.
  assert (H : forall idxs,
            count_differing b e idxs <= Z.of_nat (length idxs)).
  { induction idxs as [|i rest IH]; simpl; [lia|].
    destruct (nth i b 0 =? nth i e 0); lia. }
  specialize (H (seq 0 words)). rewrite length_seq in H. exact H.
Qed.

(** X11.  A measurement touches nothing but the error counter.  Whatever
    the DMA engine does, [measure_dma_latency] leaves the latency
    statistics, the histogram and the sample buffer as they were; it returns
    the globals unchanged, or with the number of differing words (at least
    one) added to [stats.errors].  The warm-up phase, which only calls this
    function, can therefore raise [errors] but never [count]. *)
Theorem measurement_only_touches_errors cfg rand env g write_buf iteration
    pos :
  let g' := snd (fst (measure_dma_latency cfg rand env g write_buf
                        iteration pos)) in
  g' = g \/
  exists n, 0 < n <= Z.of_nat (Z.to_nat (transfer_size cfg / 4)) /\
            verify_data cfg = true /\ g' = add_errors g n.
Proof. apply measure_frame. Qed.

(** X12.  A measurement that times out leaves no trace.  When no write
    buffer or no read buffer shows up within the 1001 polls, the
    measurement returns [UINT64_MAX] and the turn of the measurement loop
    records nothing: no counter, statistic, histogram bucket or sample
    changes (only [keep_running] may be cleared by the end-of-run test). *)
Theorem timed_out_measurement_leaves_no_trace cfg rand warmup_done env g
    write_buf iteration pos :
  wait_buffer 1000 (write_polls env) 0 = None \/
  wait_buffer 1000 (read_polls env) 0 = None ->
  fst (fst (measure_dma_latency cfg rand env g write_buf iteration pos))
    = UINT64_MAX /\
  let g' := fst (measurement_turn cfg rand warmup_done env g write_buf
                   iteration pos) in
  set_keep_running g' (keep_running g) = g.
Proof.
  intros Htimeout. unfold measurement_turn, measure_dma_latency.
  destruct (generate_pattern _ _ _ _ _ _) as [wb pos'].
  assert (Hg : set_keep_running g (keep_running g) = g)
    by (destruct g; reflexivity).
  destruct (wait_buffer 1000 (write_polls env) 0) as [w|].
  - destruct (wait_buffer 1000 (read_polls env) 0) as [rd|].
    + destruct Htimeout; discriminate.
    + cbn [fst snd]. split; [reflexivity|].
      rewrite Z.eqb_refl. cbn [negb].
      destruct (negb (continuous cfg) && warmup_done && _)%bool;
        cbn [fst]; [destruct g; reflexivity | exact Hg].
  - cbn [fst snd]. split; [reflexivity|].
    rewrite Z.eqb_refl. cbn [negb].
    destruct (negb (continuous cfg) && warmup_done && _)%bool;
      cbn [fst]; [destruct g; reflexivity | exact Hg].
Qed.

End DmaLatencyMore.

(** * The sample buffer, the extremes and the measurement thread *)

Section DmaLatencyRun.

Import DmaLatency.

Lemma accumulate_samples g x :
  recent_samples (accumulate g x) = recent_samples g /\
  sample_index (accumulate g x) = sample_index g /\
  sample_count (accumulate g x) = sample_count g.
Proof. repeat split. Qed.

Lemma update_histogram_samples cfg g x :
  recent_samples (update_histogram cfg g x) = recent_samples g /\
  sample_index (update_histogram cfg g x) = sample_index g /\
  sample_count (update_histogram cfg g x) = sample_count g.
Proof.
  unfold update_histogram. destruct (latency_histogram g); [|repeat split].
  destruct (histogram cfg); [|repeat split].
  destruct (_ <? HISTOGRAM_BUCKETS); repeat split.
Qed.

Lemma update_histogram_extremes cfg g x :
  min_us (update_histogram cfg g x) = min_us g /\
  max_us (update_histogram cfg g x) = max_us g.
Proof.
  unfold update_histogram. destruct (latency_histogram g); [|repeat split].
  destruct (histogram cfg); [|repeat split].
  destruct (_ <? HISTOGRAM_BUCKETS); repeat split.
Qed.

Lemma store_sample_extremes cfg g l :
  min_us (store_sample cfg g l) = min_us g /\
  max_us (store_sample cfg g l) = max_us g.
Proof.
  unfold store_sample. destruct (recent_samples g); [|repeat split].
  destruct (sample_count g <? iterations cfg); repeat split.
Qed.

(** What [update_stats] does to the sample buffer. *)
Lemma update_stats_samples cfg g l samples :
  recent_samples g = Some samples ->
  let g' := update_stats cfg g l in
  if sample_count g <? iterations cfg then
    recent_samples g' = Some (<[Z.to_nat (sample_index g) := l]> samples) /\
    sample_index g' = Z.rem (sample_index g + 1) (iterations cfg) /\
    sample_count g' = sample_count g + 1
  else
    recent_samples g' = Some samples /\
    sample_index g' = sample_index g /\
    sample_count g' = sample_count g.
Proof.
  intros Hs. cbv zeta. unfold update_stats. cbv zeta.
  set (g1 := update_histogram cfg (accumulate g (l # 1000)) (l # 1000)).
  destruct (update_histogram_samples cfg (accumulate g (l # 1000)) (l # 1000))
    as (Hr & Hi & Hc).
  fold g1 in Hr, Hi, Hc. cbn [accumulate recent_samples sample_index
                               sample_count] in Hr, Hi, Hc.
  unfold store_sample. rewrite Hr, Hs, Hc, Hi.
  destruct (sample_count g <? iterations cfg).
  - repeat split.
  - rewrite Hr, Hs, Hc, Hi. repeat split.
Qed.

Lemma record_all_snoc cfg g ls l :
  record_all cfg g (ls ++ [l]) = update_stats cfg (record_all cfg g ls) l.
Proof. unfold record_all. rewrite fold_left_app. reflexivity. Qed.

Lemma firstn_insert_snoc (a : list Z) c l :
  (c < length a)%nat ->
  firstn (S c) (<[c := l]> a) = firstn c a ++ [l].
Proof.
  revert c. induction a as [|x a IH]; intros c Hc; simpl in Hc; [lia|].
  destruct c as [|c]; [reflexivity|].
  cbn. f_equal. apply IH. lia.
Qed.

Lemma samples_round_trip cfg ls :
  0 <= iterations cfg ->
  let g := record_all cfg (initial_globals cfg) ls in
  let n := Z.to_nat (iterations cfg) in
  let k := Nat.min (length ls) n in
  exists samples,
    recent_samples g = Some samples /\
    length samples = n /\
    sample_count g = Z.of_nat k /\
    sample_index g = (if sample_count g <? iterations cfg
                      then sample_count g else 0) /\
    firstn k samples = firstn n ls.
Proof.
  intros Hn. cbv zeta. induction ls as [|l ls IH] using rev_ind.
  - exists (repeat 0 (Z.to_nat (iterations cfg))). cbn.
    rewrite repeat_length.
    repeat split. destruct (0 <? iterations cfg); reflexivity.
    rewrite firstn_nil. reflexivity.
  - destruct IH as (s & Hs & Hlen & Hc & Hi & Hf).
    rewrite record_all_snoc. set (g := record_all _ _ ls) in *.
    pose proof (update_stats_samples cfg g l s Hs) as Hu. cbv zeta in Hu.
    rewrite length_app. cbn [length].
    destruct (Z.ltb_spec (sample_count g) (iterations cfg)) as [Hlt|Hge].
    + destruct Hu as (Hr' & Hi' & Hc').
      assert (Hk : (length ls < Z.to_nat (iterations cfg))%nat) by lia.
      rewrite Nat.min_l in Hc, Hf by lia.
      exists (<[Z.to_nat (sample_index g) := l]> s).
      rewrite Hr', Hi', Hc', Hi, Hc, length_insert.
      split; [reflexivity|]. split; [exact Hlen|].
      rewrite Nat.min_l by lia. split; [lia|]. split.
      * destruct (Z.ltb_spec (Z.of_nat (length ls) + 1) (iterations cfg)).
        -- apply Z.rem_small. lia.
        -- replace (Z.of_nat (length ls) + 1) with (iterations cfg) by lia.
           apply Z.rem_same. lia.
      * rewrite Nat2Z.id. rewrite Nat.add_1_r.
        rewrite firstn_insert_snoc by lia. rewrite Hf.
        rewrite !firstn_all2 by (rewrite ?length_app; cbn; lia).
        reflexivity.
    + destruct Hu as (Hr' & Hi' & Hc').
      assert (Hk : (Z.to_nat (iterations cfg) <= length ls)%nat) by lia.
      rewrite Nat.min_r in Hc, Hf by lia.
      exists s. rewrite Hr', Hi', Hc'.
      split; [reflexivity|]. split; [exact Hlen|].
      rewrite Nat.min_r by lia. split; [exact Hc|]. split.
      { rewrite Hi. destruct (Z.ltb_spec (sample_count g) (iterations cfg));
          [lia | reflexivity]. }
      rewrite Hf. rewrite firstn_app.
      replace (Z.to_nat (iterations cfg) - length ls)%nat with 0%nat by lia.
      cbn. rewrite app_nil_r. reflexivity.
Qed.

(** X13.  The sample buffer keeps the first [config.iterations] latencies
    in order of arrival.  After any series of [update_stats] calls from the
    start of the run, [sample_count] is the smaller of the number of
    latencies and [iterations], and the first [sample_count] slots of
    [recent_samples] are exactly the first [iterations] latencies
    recorded. *)
Theorem sample_buffer_keeps_the_first_samples cfg ls :
  0 <= iterations cfg ->
  let g := record_all cfg (initial_globals cfg) ls in
  exists samples,
    recent_samples g = Some samples /\
    sample_count g = Z.min (Z.of_nat (length ls)) (iterations cfg) /\
    firstn (Z.to_nat (sample_count g)) samples =
    firstn (Z.to_nat (iterations cfg)) ls.
Proof.
  intros Hn. cbv zeta.
  destruct (samples_round_trip cfg ls Hn) as (s & Hs & _ & Hc & _ & Hf).
  exists s. split; [exact Hs|]. split; [rewrite Hc; lia|].
  rewrite Hc, Nat2Z.id. exact Hf.
Qed.

(** *** Minimum and maximum *)

Lemma update_stats_extremes cfg g l :
  let x := (l # 1000)%Q in
  let g' := update_stats cfg g l in
  (min_us g' <= min_us g)%Q /\ (max_us g <= max_us g')%Q /\
  (min_us g' <= x)%Q /\ (x <= max_us g')%Q /\
  (min_us g' = min_us g \/ min_us g' = x) /\
  (max_us g' = max_us g \/ max_us g' = x).
Proof.
  cbv zeta. unfold update_stats. cbv zeta.
  destruct (store_sample_extremes cfg
              (update_histogram cfg (accumulate g (l # 1000)) (l # 1000)) l)
    as (-> & ->).
  destruct (update_histogram_extremes cfg (accumulate g (l # 1000))
              (l # 1000)) as (-> & ->).
  cbn [accumulate min_us max_us].
  pose proof (Qcompare_spec (l # 1000) (min_us g)) as Hmin.
  pose proof (Qcompare_spec (l # 1000) (max_us g)) as Hmax.
  assert (Hlo : (match (l # 1000 ?= min_us g)%Q with
                 | Lt => (l # 1000)%Q | _ => min_us g end <= min_us g)%Q /\
                (match (l # 1000 ?= min_us g)%Q with
                 | Lt => (l # 1000)%Q | _ => min_us g end <= l # 1000)%Q).
  { inversion Hmin as [E|E|E].
    - split; [apply Qle_refl|]. rewrite E. apply Qle_refl.
    - split; [apply Qlt_le_weak; exact E | apply Qle_refl].
    - split; [apply Qle_refl | apply Qlt_le_weak; exact E]. }
  assert (Hhi : (max_us g <= match (l # 1000 ?= max_us g)%Q with
                 | Gt => (l # 1000)%Q | _ => max_us g end)%Q /\
                (l # 1000 <= match (l # 1000 ?= max_us g)%Q with
                 | Gt => (l # 1000)%Q | _ => max_us g end)%Q).
  { inversion Hmax as [E|E|E].
    - split; [apply Qle_refl|]. rewrite E. apply Qle_refl.
    - split; [apply Qle_refl | apply Qlt_le_weak; exact E].
    - split; [apply Qlt_le_weak; exact E | apply Qle_refl]. }
  destruct Hlo as (H1 & H2), Hhi as (H3 & H4).
  split; [exact H1|]. split; [exact H3|]. split; [exact H2|].
  split; [exact H4|].
  split; [destruct (_ ?= min_us g)%Q | destruct (_ ?= max_us g)%Q]; auto.
Qed.

Lemma extremes_of_record_all cfg g ls :
  let g' := record_all cfg g ls in
  (min_us g' <= min_us g)%Q /\ (max_us g <= max_us g')%Q /\
  Forall (fun l => (min_us g' <= l # 1000)%Q /\ (l # 1000 <= max_us g')%Q)
         ls /\
  (min_us g' = min_us g \/ exists l, In l ls /\ min_us g' = (l # 1000)%Q) /\
  (max_us g' = max_us g \/ exists l, In l ls /\ max_us g' = (l # 1000)%Q).
Proof.
  cbv zeta. induction ls as [|l ls IH] using rev_ind.
  - cbn. repeat split; try apply Qle_refl; auto.
  - rewrite record_all_snoc. set (g1 := record_all cfg g ls) in *.
    destruct IH as (Hlo & Hhi & Hall & Hmin & Hmax).
    destruct (update_stats_extremes cfg g1 l)
      as (Hlo' & Hhi' & Hl1 & Hl2 & Hmin' & Hmax').
    cbv zeta in *. set (g2 := update_stats cfg g1 l) in *.
    split; [exact (Qle_trans _ _ _ Hlo' Hlo)|].
    split; [exact (Qle_trans _ _ _ Hhi Hhi')|].
    split; [|split].
    + apply Forall_app_2.
      * eapply Forall_impl; [exact Hall|]. cbn. intros x (Hx1 & Hx2).
        split; [exact (Qle_trans _ _ _ Hlo' Hx1)
               | exact (Qle_trans _ _ _ Hx2 Hhi')].
      * constructor; [split; assumption | constructor].
    + destruct Hmin' as [E|E].
      * rewrite E. destruct Hmin as [Hm|(x & Hx & Hm)]; [left; exact Hm|].
        right. exists x. split; [apply in_or_app; left; exact Hx | exact Hm].
      * right. exists l. split; [apply in_or_app; right; left; reflexivity|].
        exact E.
    + destruct Hmax' as [E|E].
      * rewrite E. destruct Hmax as [Hm|(x & Hx & Hm)]; [left; exact Hm|].
        right. exists x. split; [apply in_or_app; left; exact Hx | exact Hm].
      * right. exists l. split; [apply in_or_app; right; left; reflexivity|].
        exact E.
Qed.

(** X14.  [min_us] and [max_us] bound every latency recorded.  After any
    series of [update_stats] calls from the start of the run, every latency
    recorded lies between [stats.min_us] and [stats.max_us]; and each of the
    two is either its initial value (1e9 and 0) or one of the recorded
    latencies. *)
Theorem extremes_bound_every_sample cfg ls :
  let g := record_all cfg (initial_globals cfg) ls in
  Forall (fun l => (min_us g <= l # 1000)%Q /\ (l # 1000 <= max_us g)%Q) ls /\
  (min_us g = (1000000000 # 1)%Q \/
   exists l, In l ls /\ min_us g = (l # 1000)%Q) /\
  (max_us g = 0%Q \/ exists l, In l ls /\ max_us g = (l # 1000)%Q).
Proof.
  cbv zeta.
  destruct (extremes_of_record_all cfg (initial_globals cfg) ls)
    as (_ & _ & Hall & Hmin & Hmax).
  split; [exact Hall|]. split; [exact Hmin | exact Hmax].
Qed.

End DmaLatencyRun.

(** * The exchange sort and the percentiles *)

Section DmaLatencySort.

Import DmaLatency.

Lemma exchange_head (a : list Z) : forall j x,
  (j < length a)%nat ->
  Permutation (nth j a 0 :: <[j := x]> a) (x :: a).
Proof.
  induction a as [|z r IH]; intros j x Hj; simpl in Hj; [lia|].
  destruct j as [|k]; cbn.
  - apply perm_swap.
  - etransitivity; [apply perm_swap|].
    etransitivity; [apply perm_skip, IH; lia|]. apply perm_swap.
Qed.

Lemma swap_Permutation (a : list Z) : forall i j,
  (i < j < length a)%nat -> Permutation (swap a i j) a.
Proof.
  induction a as [|x r IH]; intros i j Hij; simpl in Hij; [lia|].
  destruct j as [|j]; [lia|]. destruct i as [|i].
  - unfold swap. cbn. apply exchange_head. lia.
  - change (swap (x :: r) (S i) (S j)) with (x :: swap r i j).
    apply perm_skip, IH. lia.
Qed.

Lemma pass_upto_Permutation i a : forall n,
  (S i + n <= length a)%nat -> Permutation (pass_upto i n a) a.
Proof.
  induction n as [|n IH]; intros Hn; [reflexivity|].
  rewrite pass_upto_S. cbv zeta.
  destruct (pass_upto_spec i a n) as (Hl & _); [lia|].
  destruct (_ >? _); [|apply IH; lia].
  etransitivity; [apply swap_Permutation; lia | apply IH; lia].
Qed.

Lemma sort_upto_Permutation a : forall n,
  (n <= length a - 1)%nat ->
  Permutation
    (fold_left (fun x i => sort_pass (length a) i x) (seq 0 n) a) a.
Proof.
  induction n as [|n IH]; intros Hn; [reflexivity|].
  rewrite seq_S, fold_left_app. cbn [fold_left Nat.add].
  destruct (sort_upto_settles a n) as (Hl & _); [lia|]. cbv zeta in Hl.
  etransitivity; [|apply IH; lia].
  unfold sort_pass at 1. apply pass_upto_Permutation. rewrite Hl. lia.
Qed.

Lemma sort_samples_Permutation a :
  Permutation (sort_samples (length a) a) a.
Proof. apply sort_upto_Permutation. lia. Qed.

(** X15.  The two exchange loops of [calculate_percentile] sort the copy:
    the result holds the same values as the input, each as often, and they
    are in ascending order. *)
Theorem exchange_sort_rearranges_in_ascending_order (a : list Z) :
  Permutation (sort_samples (length a) a) a /\
  forall i j, (i <= j < length a)%nat ->
    nth i (sort_samples (length a) a) 0 <= nth j (sort_samples (length a) a) 0.
Proof.
  split; [apply sort_samples_Permutation|].
  intros i j Hij. apply sort_samples_sorted. exact Hij.
Qed.



End DmaLatencySort.

(** * The measurement thread *)

Section DmaLatencyThread.

Import DmaLatency.

Lemma update_stats_keep_running cfg g l :
  keep_running (update_stats cfg g l) = keep_running g.
Proof.
  unfold update_stats, store_sample, update_histogram. cbv zeta.
  destruct (latency_histogram (accumulate g (l # 1000))) as [h|];
    [destruct (histogram cfg);
       [destruct (_ <? HISTOGRAM_BUCKETS)|]|];
    (destruct (recent_samples _);
     [destruct (sample_count _ <? iterations cfg)|]); reflexivity.
Qed.

Lemma measure_keeps cfg rand env g write_buf iteration pos :
  let g' := snd (fst (measure_dma_latency cfg rand env g write_buf
                        iteration pos)) in
  keep_running g' = keep_running g /\
  count g' = count g /\
  (samples_in_step cfg g -> samples_in_step cfg g').
Proof.
  cbv zeta.
  destruct (measure_frame cfg rand env g write_buf iteration pos)
    as [->|(n & _ & _ & ->)]; repeat split; auto.
Qed.

(** Without the warm-up flag, or in continuous mode, a turn never clears
    [keep_running]. *)
Lemma turn_keeps_running cfg rand warmup_done env g write_buf iteration pos :
  warmup_done = false \/ continuous cfg = true ->
  keep_running (fst (measurement_turn cfg rand warmup_done env g write_buf
                       iteration pos)) = keep_running g.
Proof.
  intros Hoff. unfold measurement_turn.
  destruct (measure_keeps cfg rand env g write_buf iteration pos)
    as (Hk & _).
  destruct (measure_dma_latency cfg rand env g write_buf iteration pos)
    as [[latency g1] pos1]. cbn [fst snd] in Hk.
  assert (Hstop : forall b, (negb (continuous cfg) && warmup_done && b)%bool
                            = false).
  { intros b. destruct Hoff as [->| ->]; [apply andb_false_intro1|];
      [apply andb_false_r | reflexivity]. }
  rewrite Hstop. cbn [fst].
  destruct (negb (latency =? UINT64_MAX));
    [rewrite update_stats_keep_running|]; exact Hk.
Qed.

Lemma loop_keeps_running cfg rand warmup_done env_of write_buf :
  warmup_done = false \/ continuous cfg = true ->
  forall turns g k pos,
    keep_running g = true ->
    let r := measurement_loop cfg rand warmup_done env_of turns g write_buf
               k pos in
    keep_running (fst (fst r)) = true /\ snd (fst r) = (k + turns)%nat.
Proof.
  intros Hoff. induction turns as [|turns IH]; intros g k pos Hrun.
  - cbn. split; [exact Hrun | lia].
  - cbn [measurement_loop]. rewrite Hrun.
    pose proof (turn_keeps_running cfg rand warmup_done (env_of k) g
                  write_buf (u32 (Z.of_nat k)) pos Hoff) as Hk.
    destruct (measurement_turn _ _ _ _ _ _ _ _) as [g1 pos1].
    cbn [fst] in Hk. rewrite Hrun in Hk.
    destruct (IH g1 (S k) pos1 Hk) as (H1 & H2). cbv zeta.
    split; [exact H1 | rewrite H2; lia].
Qed.

(** X17.  Without a warm-up the fixed-iteration run has no end of its own.
    The end-of-run test needs [warmup_done], which is set only when
    [config.warmup > 0]; with [-w 0] (or in continuous mode) no turn of the
    measurement loop clears [keep_running], however many measurements have
    been counted: every one of the [turns] turns is performed. *)
Theorem run_without_warmup_never_stops cfg rand env_of turns g write_buf :
  warmup cfg <= 0 \/ continuous cfg = true ->
  keep_running g = true ->
  let r := latency_thread_func cfg rand env_of turns g write_buf in
  keep_running (fst (fst r)) = true /\ snd (fst r) = turns.
Proof.
  intros Hoff Hrun. cbv zeta. unfold latency_thread_func.
  assert (E : ((warmup cfg >? 0) && negb (continuous cfg))%bool = false).
  { destruct Hoff as [Hw| ->]; [|apply andb_false_r].
    destruct (Z.gtb_spec (warmup cfg) 0); [lia | reflexivity]. }
  rewrite E.
  apply (loop_keeps_running cfg rand false env_of write_buf
           (or_introl eq_refl) turns g 0%nat 0%nat Hrun).
Qed.

(** The state of a fixed-iteration run after its warm-up: the sample
    buffer is in step with the counter, which has not passed
    [config.iterations], and the loop has stopped exactly when the counter
    has reached it. *)
Lemma turn_in_step cfg rand env g write_buf iteration pos :
  continuous cfg = false ->
  1 <= iterations cfg <= INT_MAX ->
  samples_in_step cfg g ->
  count g < iterations cfg ->
  keep_running g = true ->
  let g' := fst (measurement_turn cfg rand true env g write_buf
                   iteration pos) in
  samples_in_step cfg g' /\
  count g <= count g' /\
  (keep_running g' = true -> count g' < iterations cfg) /\
  (keep_running g' = false -> count g' = iterations cfg).
Proof.
  intros Hfix Hn Hinv Hlt Hrun. cbv zeta. unfold measurement_turn.
  destruct (measure_keeps cfg rand env g write_buf iteration pos)
    as (Hk & Hc & Hs). specialize (Hs Hinv).
  destruct (measure_dma_latency cfg rand env g write_buf iteration pos)
    as [[latency g1] pos1]. cbn [fst snd] in Hk, Hc, Hs.
  rewrite Hfix. cbn [negb andb].
  rewrite (u64_small (iterations cfg)) by (unfold INT_MAX in *; lia).
  assert (Hstep : forall g2,
            samples_in_step cfg g2 -> count g <= count g2 ->
            keep_running g2 = true ->
            let g' := if count g2 >=? iterations cfg
                      then set_keep_running g2 false else g2 in
            samples_in_step cfg g' /\ count g <= count g' /\
            (keep_running g' = true -> count g' < iterations cfg) /\
            (keep_running g' = false -> count g' = iterations cfg)).
  { intros g2 H2 Hle Hr2. cbv zeta.
    destruct (Z.geb_spec (count g2) (iterations cfg)) as [Hge|Hlt2].
    - destruct H2 as (s & ? & ? & ? & ? & ? & ?).
      split; [exists s; repeat split; assumption|].
      split; [exact Hle|]. cbn. split; [discriminate | intros _; lia].
    - split; [exact H2|]. split; [exact Hle|].
      split; [intros _; exact Hlt2 | congruence]. }
  destruct (Z.eqb_spec latency UINT64_MAX) as [_|_]; cbn [negb fst].
  - apply Hstep; [exact Hs | lia | congruence].
  - apply Hstep.
    + destruct Hs as (s & Hsome & Hlen & H0 & Hle & Hsc & Hsi).
      pose proof (update_stats_samples cfg g1 latency s Hsome) as Hu.
      cbv zeta in Hu. rewrite Hsc, Hsi in Hu.
      assert (Hc1 : count (update_stats cfg g1 latency) = count g1 + 1).
      { unfold update_stats. cbv zeta.
        rewrite store_sample_count, update_histogram_count.
        cbn [accumulate count]. unfold u64, INT_MAX in *.
        apply Z.mod_small. lia. }
      destruct (Z.ltb_spec (count g1) (iterations cfg)) as [_|]; [|lia].
      destruct Hu as (Hr' & Hi' & Hc').
      exists (<[Z.to_nat (count g1) := latency]> s).
      rewrite Hr', Hi', Hc', Hc1, length_insert.
      split; [reflexivity|]. split; [exact Hlen|].
      split; [lia|]. split; [lia|]. split; [reflexivity|].
      destruct (Z.ltb_spec (count g1 + 1) (iterations cfg)).
      * apply Z.rem_small. lia.
      * replace (count g1 + 1) with (iterations cfg) by lia.
        apply Z.rem_same. lia.
    + unfold update_stats. cbv zeta.
      rewrite store_sample_count, update_histogram_count.
      cbn [accumulate count]. unfold u64, INT_MAX in *.
      destruct Hs as (s & _ & _ & H0 & _).
      rewrite Z.mod_small by lia. lia.
    + rewrite update_stats_keep_running. congruence.
Qed.


Lemma warmup_keeps cfg rand env_of write_buf : forall n g k pos,
  let r := warmup_loop cfg rand env_of n g write_buf k pos in
  keep_running (fst (fst r)) = keep_running g /\
  count (fst (fst r)) = count g /\
  (samples_in_step cfg g -> samples_in_step cfg (fst (fst r))) /\
  (keep_running g = true -> snd (fst r) = (k + n)%nat).
Proof.
  induction n as [|n IH]; intros g k pos.
  - cbn. repeat split; auto.
  - cbn [warmup_loop]. destruct (keep_running g) eqn:Hrun;
      [|cbn; repeat split; auto; discriminate].
    destruct (measure_keeps cfg rand (env_of k) g write_buf
                (u32 (Z.of_nat k)) pos) as (Hk & Hc & Hs).
    destruct (measure_dma_latency _ _ _ _ _ _ _) as [[latency g1] pos1].
    cbn [fst snd] in Hk, Hc, Hs.
    destruct (IH g1 (S k) pos1) as (Hk' & Hc' & Hs' & Hn'). cbv zeta.
    split; [congruence|]. split; [congruence|]. split; [auto|].
    intros _. rewrite Hn' by congruence. lia.
Qed.

Lemma initial_in_step cfg :
  0 <= iterations cfg -> samples_in_step cfg (initial_globals cfg).
Proof.
  intros Hn. exists (repeat 0 (Z.to_nat (iterations cfg))). cbn.
  rewrite repeat_length. repeat split; try lia.
  destruct (0 <? iterations cfg); reflexivity.
Qed.


(** An engine that serves every measurement: both buffers show up within
    the retry bound and the clock difference is a valid latency. *)
Lemma loop_completes cfg rand env_of write_buf :
  continuous cfg = false ->
  1 <= iterations cfg <= INT_MAX ->
  (forall k, exists w d,
      wait_buffer 1000 (write_polls (env_of k)) 0 = Some w /\
      wait_buffer 1000 (read_polls (env_of k)) 0 = Some d /\
      u64 (t_end (env_of k) - t_start (env_of k)) <> UINT64_MAX) ->
  forall turns g k pos,
    samples_in_step cfg g ->
    keep_running g = true ->
    count g < iterations cfg ->
    (Z.to_nat (iterations cfg - count g) <= turns)%nat ->
    let r := measurement_loop cfg rand true env_of turns g write_buf k pos in
    keep_running (fst (fst r)) = false /\
    count (fst (fst r)) = iterations cfg /\
    snd (fst r) = (k + Z.to_nat (iterations cfg - count g))%nat.
Proof.
  intros Hfix Hn Hserve.
  induction turns as [|turns IH]; intros g k pos Hs Hrun Hlt Hturns; [lia|].
  cbn [measurement_loop]. rewrite Hrun.
  destruct (Hserve k) as (w & d & Hw & Hr & Hne).
  pose proof (measured_turn_is_counted cfg rand true (env_of k) g write_buf
                (u32 (Z.of_nat k)) pos w d Hw Hr Hne) as Hc.
  destruct (turn_in_step cfg rand (env_of k) g write_buf
              (u32 (Z.of_nat k)) pos Hfix Hn Hs Hlt Hrun)
    as (Hs1 & _ & Ht1 & Hf1).
  destruct (measurement_turn _ _ _ _ _ _ _ _) as [g1 pos1].
  cbn [fst] in Hc, Hs1, Ht1, Hf1.
  assert (Hc1 : count g1 = count g + 1).
  { rewrite Hc. unfold u64, INT_MAX in *. apply Z.mod_small.
    destruct Hs as (s & _ & _ & H0 & _). lia. }
  destruct (keep_running g1) eqn:Hrun1.
  - specialize (Ht1 eq_refl).
    destruct (IH g1 (S k) pos1 Hs1 Hrun1 Ht1) as (H1 & H2 & H3); [lia|].
    cbv zeta. split; [exact H1|]. split; [exact H2|]. rewrite H3. lia.
  - specialize (Hf1 eq_refl). cbv zeta.
    destruct turns as [|turns']; cbn [measurement_loop];
      rewrite ?Hrun1; cbn [fst snd];
      (split; [exact Hrun1|]; split; [exact Hf1|]; lia).
Qed.

(** X19.  With an engine that serves every measurement, a fixed-iteration
    run ends by itself: after the [warmup] warm-up measurements, which are
    not counted, exactly [iterations] measurements are made and counted,
    and the thread clears [keep_running]. *)
Theorem fixed_run_completes cfg rand env_of turns write_buf :
  continuous cfg = false ->
  0 < warmup cfg ->
  1 <= iterations cfg <= INT_MAX ->
  (forall k, exists w d,
      wait_buffer 1000 (write_polls (env_of k)) 0 = Some w /\
      wait_buffer 1000 (read_polls (env_of k)) 0 = Some d /\
      u64 (t_end (env_of k) - t_start (env_of k)) <> UINT64_MAX) ->
  (Z.to_nat (iterations cfg) <= turns)%nat ->
  let r := latency_thread_func cfg rand env_of turns (initial_globals cfg)
             write_buf in
  keep_running (fst (fst r)) = false /\
  count (fst (fst r)) = iterations cfg /\
  Z.of_nat (snd (fst r)) = warmup cfg + iterations cfg.
Proof.
  intros Hfix Hw Hn Hserve Hturns. cbv zeta. unfold latency_thread_func.
  rewrite Hfix. destruct (Z.gtb_spec (warmup cfg) 0) as [_|]; [|lia].
  cbn [negb andb].
  destruct (warmup_keeps cfg rand env_of write_buf (Z.to_nat (warmup cfg))
              (initial_globals cfg) 0%nat 0%nat) as (Hk & Hc & Hs & Hk0).
  destruct (warmup_loop _ _ _ _ _ _ _ _) as [[g0 k0] pos0].
  cbn [fst snd] in Hk, Hc, Hs, Hk0.
  change (keep_running (initial_globals cfg)) with true in Hk, Hk0.
  change (count (initial_globals cfg)) with 0 in Hc.
  specialize (Hk0 eq_refl).
  destruct (loop_completes cfg rand env_of write_buf Hfix Hn Hserve
              turns g0 k0 pos0) as (H1 & H2 & H3).
  - apply Hs, initial_in_step. lia.
  - exact Hk.
  - lia.
  - rewrite Hc, Z.sub_0_r. exact Hturns.
  - split; [exact H1|]. split; [exact H2|].
    rewrite H3, Hk0, Hc. lia.
Qed.

End DmaLatencyThread.

Section DmaLatencyExamples.

Import DmaLatency.

(** The read side never delivers a buffer. *)
Lemma timed_out_measurement_leaves_no_trace_witness :
  let cfg := config_with 10 PATTERN_FIXED false in
  let env := mk_env (fun _ => Some tt) (fun _ => None) 1000 6000 in
  let g := initial_globals cfg in
  fst (fst (measure_dma_latency cfg (fun _ => 0) env g (repeat 0 16) 0 0))
    = UINT64_MAX /\
  let g' := fst (measurement_turn cfg (fun _ => 0) true env g (repeat 0 16)
                   0 0) in
  set_keep_running g' (keep_running g) = g.
Proof.
  intros cfg env g.
  apply (timed_out_measurement_leaves_no_trace cfg (fun _ => 0) true env g
           (repeat 0 16) 0 0).
  right. vm_compute. reflexivity.
Defined.

(** Three latencies recorded into a buffer of two. *)
Lemma sample_buffer_keeps_the_first_samples_witness :
  let cfg := config_with 2 PATTERN_FIXED true in
  let ls := [10000; 20000; 30000] in
  let g := record_all cfg (initial_globals cfg) ls in
  exists samples,
    recent_samples g = Some samples /\
    sample_count g = Z.min (Z.of_nat (length ls)) (iterations cfg) /\
    firstn (Z.to_nat (sample_count g)) samples =
    firstn (Z.to_nat (iterations cfg)) ls.
Proof.
  intros cfg ls g.
  apply (sample_buffer_keeps_the_first_samples cfg ls).
  vm_compute. discriminate.
Defined.


(** [-n 2 -w 0] with an engine that serves every measurement: after five
    turns five measurements are counted and the loop is still running. *)
Lemma run_without_warmup_never_stops_witness :
  let cfg := mk_config 64 2 0 PATTERN_FIXED true false true false in
  let env_of := fun _ : nat => prompt_env (repeat 0xDEADBEEF 16) 1000 6000 in
  let r := latency_thread_func cfg (fun _ => 0) env_of 5
             (initial_globals cfg) (repeat 0 16) in
  (keep_running (fst (fst r)) = true /\ snd (fst r) = 5%nat) /\
  count (fst (fst r)) = 5.
Proof.
  intros cfg env_of r. split.
  - apply (run_without_warmup_never_stops cfg (fun _ => 0) env_of 5
             (initial_globals cfg) (repeat 0 16)).
    + left. vm_compute. discriminate.
    + reflexivity.
  - vm_compute. reflexivity.
Defined.


Lemma fixed_run_completes_witness :
  let cfg := config_with 3 PATTERN_FIXED false in
  let env_of := fun _ : nat => prompt_env (repeat 0xDEADBEEF 16) 1000 6000 in
  let r := latency_thread_func cfg (fun _ => 0) env_of 5
             (initial_globals cfg) (repeat 0 16) in
  keep_running (fst (fst r)) = false /\
  count (fst (fst r)) = iterations cfg /\
  Z.of_nat (snd (fst r)) = warmup cfg + iterations cfg.
Proof.
  intros cfg env_of r.
  apply (fixed_run_completes cfg (fun _ => 0) env_of 5 (repeat 0 16)).
  - reflexivity.
  - vm_compute. reflexivity.
  - vm_compute. split; discriminate.
  - intros k. exists tt, (repeat 0xDEADBEEF 16).
    split; [reflexivity|]. split; [reflexivity|]. vm_compute. discriminate.
  - vm_compute. lia.
Defined.

End DmaLatencyExamples.

(** * The random pattern of the optimized DMA test *)

Section LcgFacts.

Import OptimizedV2.

(** An odd factor can be dropped from a multiple of a power of two. *)
Lemma odd_divide_cancel u : forall (j : nat) x,
  (2 ^ Z.of_nat j | x * (2 * u + 1)) -> (2 ^ Z.of_nat j | x).
Proof.
  induction j as [|j IH]; intros x [c Hc].
  - apply Z.divide_1_l.
  - rewrite Nat2Z.inj_succ, Z.pow_succ_r in * by lia.
    set (d := c * 2 ^ Z.of_nat j) in *.
    assert (Hx : x = 2 * (d - x * u)) by (unfold d; lia).
    destruct (IH (d - x * u)) as [e He].
    + exists c. fold d. nia.
    + exists e. rewrite Hx, He. ring.
Qed.

Lemma pow_one_mod_four (q : positive) :
  exists u, 69069 ^ Z.pos q = 4 * u + 1.
Proof.
  induction q as [q [u IH]|q [u IH]|].
  - rewrite (Pos2Z.inj_xI q), Z.pow_add_r, (Z.mul_comm 2), Z.pow_mul_r,
      Z.pow_2_r, IH by lia.
    exists (69069 * (4 * u * u + 2 * u) + 17267). ring.
  - rewrite (Pos2Z.inj_xO q), (Z.mul_comm 2), Z.pow_mul_r, Z.pow_2_r, IH by lia.
    exists (4 * u * u + 2 * u). ring.
  - exists 17267. reflexivity.
Qed.

(** The 2-adic order of [69069 ^ n - 1] is that of [n] plus two. *)
Lemma lcg_two_adic (p : positive) : forall k : nat,
  (2 ^ (Z.of_nat k + 2) | 69069 ^ Z.pos p - 1) -> (2 ^ Z.of_nat k | Z.pos p).
Proof.
  assert (Hodd : forall x (k : nat),
            x mod 8 = 4 -> (2 ^ (Z.of_nat k + 2) | x) -> k = 0%nat).
  { intros x k Hx [c Hc]. destruct k as [|k]; [reflexivity|]. exfalso.
    rewrite Nat2Z.inj_succ in Hc.
    replace (Z.succ (Z.of_nat k) + 2) with (Z.of_nat k + 3) in Hc by lia.
    rewrite Z.pow_add_r in Hc by lia. change (2 ^ 3) with 8 in Hc.
    assert (x mod 8 = 0); [|lia].
    rewrite Hc. replace (c * (2 ^ Z.of_nat k * 8))
      with ((c * 2 ^ Z.of_nat k) * 8) by ring.
    apply Z.mod_mul. lia. }
  induction p as [q IH|q IH|]; intros k Hk.
  - destruct (pow_one_mod_four q) as [u Hu].
    assert (k = 0%nat) as ->; [|apply Z.divide_1_l].
    apply (Hodd (69069 ^ Z.pos q~1 - 1)); [|exact Hk].
    rewrite (Pos2Z.inj_xI q), Z.pow_add_r, (Z.mul_comm 2), Z.pow_mul_r,
      Z.pow_2_r, Hu by lia.
    replace (69069 ^ 1) with 69069 by reflexivity.
    replace ((4 * u + 1) * (4 * u + 1) * 69069 - 1)
      with (4 + (69069 * (2 * u * u + u) + 8633) * 8) by ring.
    rewrite Z.mod_add by lia. reflexivity.
  - destruct k as [|k]; [apply Z.divide_1_l|].
    destruct (pow_one_mod_four q) as [u Hu].
    destruct (IH k) as [e He].
    + replace (Z.of_nat k + 2) with (Z.of_nat (k + 2)) by lia.
      apply (odd_divide_cancel u (k + 2)).
      rewrite Nat2Z.inj_add. change (Z.of_nat 2) with 2.
      destruct Hk as [c Hc]. exists c.
      rewrite (Pos2Z.inj_xO q), (Z.mul_comm 2), Z.pow_mul_r, Z.pow_2_r in Hc
        by lia.
      rewrite Nat2Z.inj_succ in Hc.
      replace (Z.succ (Z.of_nat k) + 2) with (Z.succ (Z.of_nat k + 2)) in Hc
        by lia.
      rewrite Z.pow_succ_r in Hc by lia.
      rewrite Hu in *. nia.
    + exists e. rewrite (Pos2Z.inj_xO q), He, Nat2Z.inj_succ, Z.pow_succ_r by lia.
      ring.
  - assert (k = 0%nat) as ->; [|apply Z.divide_1_l].
    apply (Hodd (69069 ^ 1 - 1)); [reflexivity | exact Hk].
Qed.

(** In the coordinate [y = 69068 x + 1] the generator is a multiplication
    by 69069, modulo [2 ^ 34]. *)
Lemma lcg_iter_linear t : forall n : nat,
  (69068 * lcg_iter n t + 1) mod 2 ^ 34 =
  (69069 ^ Z.of_nat n * (69068 * t + 1)) mod 2 ^ 34.
Proof.
  induction n as [|n IH].
  - cbn [lcg_iter]. change (69069 ^ Z.of_nat 0) with 1.
    rewrite Z.mul_1_l. reflexivity.
  - cbn [lcg_iter]. unfold lcg_next, u32.
    set (x := lcg_iter n t) in *.
    pose proof (Z.div_mod (x * 69069 + 1) (2 ^ 32) ltac:(lia)) as Hdiv.
    set (q := (x * 69069 + 1) / 2 ^ 32) in *.
    replace (69068 * ((x * 69069 + 1) mod 2 ^ 32) + 1)
      with (69069 * (69068 * x + 1) + (- (17267 * q)) * 2 ^ 34) by lia.
    rewrite Z.mod_add by lia.
    rewrite <- Z.mul_mod_idemp_r, IH, Z.mul_mod_idemp_r by lia.
    rewrite Nat2Z.inj_succ, Z.pow_succ_r by lia. f_equal. ring.
Qed.

(** A seed comes back only after a multiple of [2 ^ 32] steps. *)
Lemma lcg_returns_at_period (n : nat) t :
  lcg_iter n t = t -> (2 ^ 32 | Z.of_nat n).
Proof.
  intros E.
  pose proof (lcg_iter_linear t n) as H. rewrite E in H.
  set (y := 69068 * t + 1) in *.
  assert (Hdiv : (2 ^ 34 | (69069 ^ Z.of_nat n - 1) * y)).
  { apply Z.mod_divide; [lia|].
    replace ((69069 ^ Z.of_nat n - 1) * y)
      with (69069 ^ Z.of_nat n * y - y) by ring.
    rewrite Zminus_mod, <- H, Z.sub_diag. reflexivity. }
  assert (Hpow : (2 ^ (Z.of_nat 32 + 2) | 69069 ^ Z.of_nat n - 1)).
  { apply (odd_divide_cancel (34534 * t) 34).
    replace (2 * (34534 * t) + 1) with y by (unfold y; ring). exact Hdiv. }
  destruct n as [|n]; [apply Z.divide_0_r|].
  change (Z.of_nat (S n)) with (Z.pos (Pos.of_succ_nat n)) in *.
  apply lcg_two_adic in Hpow. exact Hpow.
Qed.

(** A seed does not come back in fewer than [2 ^ 32] steps. *)
Lemma lcg_full_period (n : nat) t :
  (0 < n)%nat -> Z.of_nat n < 2 ^ 32 -> lcg_iter n t <> t.
Proof.
  intros Hn Hlt E. destruct (lcg_returns_at_period n t E) as [c Hc]. lia.
Qed.

End LcgFacts.

Section OptimizedV2Threads.

Import OptimizedV2.

Lemma lcg_iter_add a : forall b s,
  lcg_iter (a + b) s = lcg_iter a (lcg_iter b s).
Proof.
  induction a as [|a IH]; intros b s; [reflexivity|].
  cbn [Nat.add lcg_iter]. rewrite IH. reflexivity.
Qed.

(** X20.  The words of a random pattern are pairwise distinct: the
    generator [seed * 69069 + 1] on 32 bits does not come back to a value
    in fewer than [2 ^ 32] steps. *)
Theorem random_words_are_pairwise_distinct cfg buffer count seed i j :
  pattern_type cfg = PATTERN_RANDOM ->
  (count <= length buffer)%nat ->
  Z.of_nat count <= 2 ^ 32 ->
  (i < j < count)%nat ->
  nth i (fst (generate_pattern cfg buffer count seed)) 0 <>
  nth j (fst (generate_pattern cfg buffer count seed)) 0.
Proof.
  intros E Hlen Hcount Hij. unfold generate_pattern. rewrite E.
  cbn [Z.eqb PATTERN_SEQ PATTERN_RANDOM Pos.eqb].
  destruct (fill_random_spec buffer seed count Hlen) as (_ & _ & Hnth).
  rewrite !Hnth by lia.
  replace (S j) with ((j - i) + S i)%nat by lia.
  rewrite lcg_iter_add. intros Heq. symmetry in Heq. revert Heq.
  apply lcg_full_period; lia.
Qed.

Lemma differing_is_zero expected buffer idxs :
  differing expected buffer idxs = 0 <->
  forall i, In i idxs -> nth i buffer 0 = expected i.
Proof.
  split; [|apply differing_zero].
  induction idxs as [|i rest IH]; intros H j Hj; [destruct Hj|].
  rewrite differing_cons in H.
  pose proof (differing_nonneg expected buffer rest).
  destruct (Z.eqb_spec (nth i buffer 0) (expected i)) as [E|E]; [|lia].
  destruct Hj as [<-|Hj]; [exact E|]. apply IH; [lia | exact Hj].
Qed.

Lemma verify_clean_iff cfg buffer count seed :
  supported cfg ->
  (errors (verify_pattern cfg buffer count seed) = 0 <->
   forall i, (i < count)%nat -> nth i buffer 0 = expected_word cfg seed i).
Proof.
  intros Hs. rewrite verify_pattern_errors by exact Hs. unfold mismatches.
  pose proof (differing_nonneg (expected_word cfg seed) buffer (seq 0 count)).
  pose proof (differing_is_zero (expected_word cfg seed) buffer
                (seq 0 count)) as Hz.
  split.
  - intros H0 i Hi. apply Hz; [lia | apply in_seq; lia].
  - intros Hall. replace (differing _ _ _) with 0; [reflexivity|].
    symmetry. apply Hz. intros i Hi. apply in_seq in Hi. apply Hall. lia.
Qed.

(** X21.  In every supported mode [verify_pattern] of the optimized DMA
    test returns 0 exactly when each of the [count] words is the expected
    one. *)
Theorem verify_is_clean_only_on_expected_words cfg buffer count seed :
  supported cfg ->
  (errors (verify_pattern cfg buffer count seed) = 0 <->
   forall i, (i < count)%nat -> nth i buffer 0 = expected_word cfg seed i).
Proof. apply verify_clean_iff. Qed.

(** *** The seed left by the random verification *)

Lemma verify_random_clean report buffer seed0 : forall m k e log,
  (forall i, (k <= i < k + m)%nat -> nth i buffer 0 = lcg_iter (S i) seed0) ->
  verify_random report buffer (seq k m) (lcg_iter k seed0) e log =
  (e, lcg_iter (k + m) seed0, log).
Proof.
  induction m as [|m IH]; intros k e log H.
  - cbn. rewrite Nat.add_0_r. reflexivity.
  - cbn [seq verify_random]. cbv zeta.
    change (lcg_next (lcg_iter k seed0)) with (lcg_iter (S k) seed0).
    rewrite (H k) by lia. rewrite Z.eqb_refl.
    rewrite IH by (intros i Hi; apply H; lia).
    replace (S k + m)%nat with (k + S m)%nat by lia. reflexivity.
Qed.

Lemma verify_random_wrong report buffer seed0 : forall m k e log,
  0 <= e <= 10 ->
  (forall i, (k <= i < k + m)%nat ->
     nth i buffer 0 <> lcg_iter (S i) seed0) ->
  11 - e <= Z.of_nat m ->
  fst (verify_random report buffer (seq k m) (lcg_iter k seed0) e log) =
  (11, lcg_iter (k + Z.to_nat (11 - e)) seed0).
Proof.
  induction m as [|m IH]; intros k e log He H Hm; [lia|].
  cbn [seq verify_random]. cbv zeta.
  change (lcg_next (lcg_iter k seed0)) with (lcg_iter (S k) seed0).
  destruct (Z.eqb_spec (nth k buffer 0) (lcg_iter (S k) seed0)) as [E|_];
    [exfalso; apply (H k); [lia | exact E]|].
  destruct (Z.gtb_spec (e + 1) 10) as [Hgt|Hle].
  - cbn [fst]. assert (e = 10) as -> by lia.
    change (Z.to_nat (11 - 10)) with 1%nat. rewrite Nat.add_1_r.
    reflexivity.
  - rewrite IH; [|lia|intros i Hi; apply H; lia|lia].
    do 2 f_equal. lia.
Qed.

Lemma errors_in_range cfg buffer count seed :
  0 <= errors (verify_pattern cfg buffer count seed) <= 11.
Proof.
  destruct (Z_le_dec PATTERN_SEQ (pattern_type cfg)) as [H1|H1];
    [destruct (Z_le_dec (pattern_type cfg) PATTERN_ALT) as [H2|H2]|].
  - rewrite verify_pattern_errors by (split; assumption).
    unfold mismatches.
    pose proof (differing_nonneg (expected_word cfg seed) buffer
                  (seq 0 count)). lia.
  - unfold verify_pattern, PATTERN_SEQ, PATTERN_RANDOM, PATTERN_ONES,
      PATTERN_ZEROS, PATTERN_ALT in *.
    destruct (Z.eqb_spec (pattern_type cfg) 0); [lia|].
    destruct (Z.eqb_spec (pattern_type cfg) 1); [lia|].
    destruct (Z.eqb_spec (pattern_type cfg) 2); [lia|].
    destruct (Z.eqb_spec (pattern_type cfg) 3); [lia|].
    destruct (Z.eqb_spec (pattern_type cfg) 4); [lia|].
    cbn. lia.
  - unfold verify_pattern, PATTERN_SEQ, PATTERN_RANDOM, PATTERN_ONES,
      PATTERN_ZEROS, PATTERN_ALT in *.
    destruct (Z.eqb_spec (pattern_type cfg) 0); [lia|].
    destruct (Z.eqb_spec (pattern_type cfg) 1); [lia|].
    destruct (Z.eqb_spec (pattern_type cfg) 2); [lia|].
    destruct (Z.eqb_spec (pattern_type cfg) 3); [lia|].
    destruct (Z.eqb_spec (pattern_type cfg) 4); [lia|].
    cbn. lia.
Qed.

(** *** The reader loop *)

Lemma u64_add_l a b : u64 (u64 a + b) = u64 (a + b).
Proof. unfold u64. apply Z.add_mod_idemp_l. lia. Qed.

Lemma u64_le a : 0 <= a -> 0 <= u64 a <= a.
Proof.
  intros Ha. unfold u64. split; [apply Z.mod_pos_bound; lia|].
  apply Z.mod_le; lia.
Qed.

Lemma reader_turn_some cfg verify_data st seed buf :
  exists e seed',
    0 <= e <= 11 /\
    reader_turn cfg verify_data (st, seed) (Some buf) =
    (count_rx (if e >? 0 then add_errors st e else st), seed').
Proof.
  unfold reader_turn.
  destruct (verify_data && (pattern_type cfg <=? PATTERN_ALT))%bool.
  - exists (errors (verify_pattern cfg buf buffer_words seed)),
           (seed_out (verify_pattern cfg buf buffer_words seed)).
    split; [apply errors_in_range | reflexivity].
  - exists 0, seed. split; [lia | reflexivity].
Qed.

Lemma buffers_offered_cons b polls :
  buffers_offered (b :: polls) =
  (match b with Some _ => 1 | None => 0 end) + buffers_offered polls.
Proof. unfold buffers_offered. destruct b; cbn [List.filter length]; lia. Qed.

Lemma buffers_offered_nonneg polls : 0 <= buffers_offered polls.
Proof. unfold buffers_offered. lia. Qed.

Lemma u64_idem a : u64 (u64 a) = u64 a.
Proof. unfold u64. apply Z.mod_mod. lia. Qed.

Lemma reader_run cfg verify_data : forall polls st seed,
  0 <= stats_errors st ->
  u64 (rx_buffers st) = rx_buffers st ->
  u64 (rx_bytes st) = rx_bytes st ->
  let st' := fst (fold_left (reader_turn cfg verify_data) polls (st, seed)) in
  rx_buffers st' = u64 (rx_buffers st + buffers_offered polls) /\
  rx_bytes st' = u64 (rx_bytes st + DMA_BUFFER_SIZE * buffers_offered polls) /\
  tx_buffers st' = tx_buffers st /\
  tx_bytes st' = tx_bytes st /\
  0 <= stats_errors st' <= stats_errors st + 11 * buffers_offered polls.
Proof.
  induction polls as [|b polls IH]; intros st seed Hpos Hrb Hry; cbv zeta.
  - cbn [fold_left fst]. change (buffers_offered []) with 0.
    rewrite Z.mul_0_r, !Z.add_0_r, Hrb, Hry. repeat split; lia.
  - rewrite buffers_offered_cons. cbn [fold_left].
    pose proof (buffers_offered_nonneg polls) as Hn.
    destruct b as [buf|].
    + destruct (reader_turn_some cfg verify_data st seed buf)
        as (e & seed' & He & ->).
      set (st1 := if e >? 0 then add_errors st e else st).
      assert (H1 : 0 <= stats_errors st1 <= stats_errors st + 11 /\
                   rx_buffers st1 = rx_buffers st /\
                   rx_bytes st1 = rx_bytes st /\
                   tx_buffers st1 = tx_buffers st /\
                   tx_bytes st1 = tx_bytes st).
      { unfold st1. destruct (e >? 0); cbn; [|repeat split; lia].
        pose proof (u64_le (stats_errors st + e) ltac:(lia)).
        repeat split; lia. }
      destruct H1 as (He1 & Hb1 & Hy1 & Ht1 & Htb1).
      destruct (IH (count_rx st1) seed') as (I1 & I2 & I3 & I4 & I5);
        [cbn; lia | apply u64_idem | apply u64_idem |].
      cbn [count_rx rx_buffers rx_bytes tx_buffers tx_bytes stats_errors]
        in I1, I2, I3, I4, I5.
      rewrite u64_add_l in I1, I2. rewrite Hb1 in I1. rewrite Hy1 in I2.
      split; [rewrite I1; f_equal; lia|].
      split; [rewrite I2; f_equal; lia|].
      split; [congruence|]. split; [congruence|]. lia.
    + cbn [reader_turn]. rewrite Z.add_0_l. apply IH; assumption.
Qed.

(** X22.  The reader counts every buffer it is handed and at most eleven
    errors for each.  After any run of the reader loop from the zeroed
    counters, [rx_buffers] is the number of buffers received, [rx_bytes] is
    8192 times that number, [errors] is at most eleven times that number,
    and the transmit counters are untouched. *)
Theorem reader_counts_every_buffer cfg verify_data global_seed polls :
  let st := fst (reader_thread_func cfg verify_data global_seed zero_stats
                   polls) in
  let n := buffers_offered polls in
  rx_buffers st = u64 n /\
  rx_bytes st = u64 (8192 * n) /\
  0 <= stats_errors st <= 11 * n /\
  tx_buffers st = 0 /\ tx_bytes st = 0.
Proof.
  cbv zeta. unfold reader_thread_func.
  destruct (reader_run cfg verify_data polls zero_stats global_seed)
    as (H1 & H2 & H3 & H4 & H5); [cbn; lia | reflexivity | reflexivity |].
  cbn [zero_stats rx_buffers rx_bytes tx_buffers tx_bytes stats_errors]
    in H1, H2, H3, H4, H5.
  rewrite Z.add_0_l in H1, H2, H5.
  split; [exact H1|]. split; [exact H2|]. split; [exact H5|].
  split; [exact H3 | exact H4].
Qed.

(** *** The writer loop *)

Lemma writer_run (pattern : list Z) :
  (buffer_words <= length pattern)%nat ->
  forall polls st sent,
  u64 (tx_buffers st) = tx_buffers st ->
  u64 (tx_bytes st) = tx_bytes st ->
  let r := fold_left
             (fun acc buf =>
                let '(st, sent) := acc in
                match writer_turn pattern st buf with
                | (st, Some b) => (st, sent ++ [b])
                | (st, None) => (st, sent)
                end)
             polls (st, sent) in
  exists sent',
    snd r = sent ++ sent' /\
    Z.of_nat (length sent') = buffers_offered polls /\
    Forall (fun b => forall i, (i < buffer_words)%nat ->
                       nth i b 0 = nth i pattern 0) sent' /\
    tx_buffers (fst r) = u64 (tx_buffers st + buffers_offered polls) /\
    tx_bytes (fst r) =
      u64 (tx_bytes st + DMA_BUFFER_SIZE * buffers_offered polls) /\
    rx_buffers (fst r) = rx_buffers st /\
    rx_bytes (fst r) = rx_bytes st /\
    stats_errors (fst r) = stats_errors st.
Proof.
  intros Hlen. induction polls as [|b polls IH]; intros st sent Htb Hty;
    cbv zeta.
  - exists []. cbn [fold_left fst snd]. change (buffers_offered []) with 0.
    rewrite Z.mul_0_r, !Z.add_0_r, Htb, Hty, app_nil_r.
    repeat split. constructor.
  - rewrite buffers_offered_cons. cbn [fold_left].
    destruct b as [dst|]; cbn [writer_turn].
    + set (b := firstn buffer_words pattern ++ skipn buffer_words dst).
      destruct (IH (count_tx st) (sent ++ [b]))
        as (sent' & H1 & H2 & H3 & H4 & H5 & H6 & H7 & H8);
        [apply u64_idem | apply u64_idem |].
      cbn [count_tx rx_buffers rx_bytes tx_buffers tx_bytes stats_errors]
        in H4, H5, H6, H7, H8.
      rewrite u64_add_l in H4, H5.
      exists (b :: sent'). rewrite H1, <- app_assoc. cbn [app length].
      split; [reflexivity|]. split; [lia|]. split.
      { constructor; [|exact H3]. intros i Hi. unfold b.
        rewrite app_nth1 by (rewrite length_firstn; lia).
        rewrite nth_firstn.
        destruct (Nat.ltb_spec i buffer_words); [reflexivity | lia]. }
      split; [rewrite H4; f_equal; lia|].
      split; [rewrite H5; f_equal; lia|].
      split; [exact H6|]. split; [exact H7 | exact H8].
    + rewrite Z.add_0_l. apply IH; assumption.
Qed.

Lemma writer_pattern_words cfg pattern global_seed i :
  supported cfg -> (buffer_words <= length pattern)%nat ->
  (i < buffer_words)%nat ->
  nth i (writer_pattern cfg pattern global_seed) 0 =
  expected_word cfg global_seed i.
Proof. intros Hs Hlen Hi. apply generated_matches; assumption. Qed.

Lemma writer_pattern_length cfg pattern global_seed :
  (buffer_words <= length pattern)%nat ->
  length (writer_pattern cfg pattern global_seed) = length pattern.
Proof.
  intros Hlen. unfold writer_pattern, generate_pattern, fill_words.
  destruct (pattern_type cfg =? PATTERN_SEQ);
    [apply fold_insert_length|].
  destruct (pattern_type cfg =? PATTERN_RANDOM);
    [apply fill_random_spec; exact Hlen|].
  destruct (pattern_type cfg =? PATTERN_ONES);
    [apply fold_insert_length|].
  destruct (pattern_type cfg =? PATTERN_ZEROS);
    [apply fold_insert_length|].
  destruct (pattern_type cfg =? PATTERN_ALT);
    [apply fold_insert_length | reflexivity].
Qed.

Lemma expected_word_stateless cfg seed seed' i :
  pattern_type cfg <> PATTERN_RANDOM ->
  expected_word cfg seed i = expected_word cfg seed' i.
Proof.
  intros Hne. unfold expected_word.
  destruct (pattern_type cfg =? PATTERN_SEQ); [reflexivity|].
  destruct (Z.eqb_spec (pattern_type cfg) PATTERN_RANDOM); [contradiction|].
  reflexivity.
Qed.

Lemma reader_clean_run cfg seed0 :
  supported cfg -> pattern_type cfg <> PATTERN_RANDOM ->
  forall bufs st seed,
    Forall (fun b => forall i, (i < buffer_words)%nat ->
                       nth i b 0 = expected_word cfg seed0 i) bufs ->
    stats_errors (fst (fold_left (reader_turn cfg true) (map Some bufs)
                         (st, seed))) = stats_errors st.
Proof.
  intros Hs Hne. induction bufs as [|b bufs IH]; intros st seed Hall;
    [reflexivity|].
  inversion Hall as [|? ? Hb Hrest]; subst.
  cbn [map fold_left reader_turn].
  assert (Hin : (pattern_type cfg <=? PATTERN_ALT) = true)
    by (apply Z.leb_le, Hs).
  rewrite Hin. cbn [andb].
  assert (E0 : errors (verify_pattern cfg b buffer_words seed) = 0).
  { apply verify_clean_iff; [exact Hs|]. intros i Hi.
    rewrite (Hb i Hi). apply expected_word_stateless. exact Hne. }
  rewrite E0. cbn [Z.gtb Z.compare]. rewrite IH by exact Hrest. reflexivity.
Qed.

Lemma reader_random_run cfg seed0 :
  pattern_type cfg = PATTERN_RANDOM ->
  forall bufs m st,
    (forall j, 0 <= j < Z.of_nat (length bufs) ->
               ~ (2 ^ 32 | Z.of_nat m + 11 * j)) ->
    0 <= stats_errors st ->
    stats_errors st + 11 * Z.of_nat (length bufs) < 2 ^ 64 ->
    Forall (fun b => forall i, (i < buffer_words)%nat ->
                       nth i b 0 = lcg_iter (S i) seed0) bufs ->
    stats_errors (fst (fold_left (reader_turn cfg true) (map Some bufs)
                         (st, lcg_iter m seed0))) =
    stats_errors st + 11 * Z.of_nat (length bufs).
Proof.
  intros E. induction bufs as [|b bufs IH];
    intros m st Hoff Hpos Hmax Hall.
  - cbn. lia.
  - inversion Hall as [|? ? Hb Hrest]; subst.
    cbn [length] in Hoff, Hmax |- *.
    cbn [map fold_left reader_turn]. rewrite E.
    cbn [Z.leb Z.compare PATTERN_RANDOM PATTERN_ALT Pos.compare
         Pos.compare_cont andb].
    assert (Hr : fst (verify_random (verbose cfg) b (seq 0 buffer_words)
                        (lcg_iter 0 (lcg_iter m seed0)) 0 []) =
                 (11, lcg_iter (0 + Z.to_nat (11 - 0)) (lcg_iter m seed0))).
    { apply verify_random_wrong; [lia| |vm_compute; discriminate].
      intros i Hi. rewrite (Hb i) by lia.
      rewrite <- lcg_iter_add. replace (S i + m)%nat with (m + S i)%nat by lia.
      rewrite lcg_iter_add. intros Heq. symmetry in Heq.
      apply lcg_returns_at_period in Heq.
      apply (Hoff 0); [lia|]. rewrite Z.mul_0_r, Z.add_0_r. exact Heq. }
    change (lcg_iter 0 (lcg_iter m seed0)) with (lcg_iter m seed0) in Hr.
    change (0 + Z.to_nat (11 - 0))%nat with 11%nat in Hr.
    unfold verify_pattern. rewrite E.
    cbn [Z.eqb PATTERN_SEQ PATTERN_RANDOM Pos.eqb errors seed_out].
    cbv zeta. rewrite Hr. cbn [fst snd Z.gtb Z.compare].
    rewrite <- lcg_iter_add.
    assert (Hu : u64 (stats_errors st + 11) = stats_errors st + 11)
      by (unfold u64; apply Z.mod_small; lia).
    rewrite IH; cbn [count_rx add_errors stats_errors]; rewrite ?Hu;
      [lia | | lia | lia | exact Hrest].
    intros j Hj.
    replace (Z.of_nat (11 + m) + 11 * j)
      with (Z.of_nat m + 11 * (j + 1)) by lia.
    apply Hoff. lia.
Qed.

Lemma buffers_offered_all (bufs : list (list Z)) :
  buffers_offered (map Some bufs) = Z.of_nat (length bufs).
Proof.
  induction bufs as [|b bufs IH]; [reflexivity|].
  cbn [map]. rewrite buffers_offered_cons, IH. cbn [length]. lia.
Qed.

Lemma reader_first_random cfg st seed b :
  pattern_type cfg = PATTERN_RANDOM ->
  (forall i, (i < buffer_words)%nat -> nth i b 0 = lcg_iter (S i) seed) ->
  reader_turn cfg true (st, seed) (Some b) =
  (count_rx st, lcg_iter buffer_words seed).
Proof.
  intros E Hb. cbn [reader_turn]. rewrite E.
  cbn [Z.leb Z.compare PATTERN_RANDOM PATTERN_ALT Pos.compare
       Pos.compare_cont andb].
  unfold verify_pattern. rewrite E.
  cbn [Z.eqb PATTERN_SEQ PATTERN_RANDOM Pos.eqb errors seed_out]. cbv zeta.
  change (verify_random (verbose cfg) b (seq 0 buffer_words) seed 0 [])
    with (verify_random (verbose cfg) b (seq 0 buffer_words)
            (lcg_iter 0 seed) 0 []).
  rewrite verify_random_clean by (intros i Hi; apply Hb; lia).
  reflexivity.
Qed.

(** What the writer sends and what the reader then counts, the reader
    being handed the writer's buffers unchanged. *)
Lemma loopback_run cfg pattern global_seed wpolls :
  supported cfg ->
  (buffer_words <= length pattern)%nat ->
  let w := writer_thread_func cfg pattern global_seed zero_stats wpolls in
  let st := fst (reader_thread_func cfg true global_seed (fst w)
                   (map Some (snd w))) in
  Z.of_nat (length (snd w)) = buffers_offered wpolls /\
  Forall (fun b => forall i, (i < buffer_words)%nat ->
                     nth i b 0 = expected_word cfg global_seed i) (snd w) /\
  stats_errors (fst w) = 0 /\
  tx_buffers st = u64 (buffers_offered wpolls) /\
  rx_buffers st = tx_buffers st /\
  rx_bytes st = tx_bytes st.
Proof.
  intros Hs Hlen. cbv zeta. unfold writer_thread_func, reader_thread_func.
  cbv zeta.
  set (wp := writer_pattern cfg pattern global_seed).
  assert (Hwp : (buffer_words <= length wp)%nat)
    by (unfold wp; rewrite writer_pattern_length; assumption).
  destruct (writer_run wp Hwp wpolls zero_stats [] eq_refl eq_refl)
    as (sent & H1 & H2 & H3 & H4 & H5 & H6 & H7 & H8).
  cbv zeta in H1, H4, H5, H6, H7, H8. set (w := fold_left _ wpolls _) in *.
  cbn [app] in H1. rewrite H1.
  cbn [zero_stats rx_buffers rx_bytes tx_buffers tx_bytes stats_errors]
    in H4, H5, H6, H7, H8.
  rewrite Z.add_0_l in H4, H5.
  destruct (reader_run cfg true (map Some sent) (fst w) global_seed)
    as (R1 & R2 & R3 & R4 & _);
    [rewrite H8; lia | rewrite H6; reflexivity | rewrite H7; reflexivity |].
  rewrite buffers_offered_all, H2 in R1, R2.
  rewrite H6, Z.add_0_l in R1. rewrite H7, Z.add_0_l in R2.
  split; [exact H2|]. split.
  { eapply Forall_impl; [exact H3|]. cbn. intros b Hb i Hi.
    rewrite (Hb i Hi). apply writer_pattern_words; assumption. }
  split; [exact H8|]. split; [rewrite R3; exact H4|].
  split; [rewrite R1, R3, H4; reflexivity | rewrite R2, R4, H5; reflexivity].
Qed.

(** X23.  In the four modes without a seed a looped-back run verifies
    clean.  The writer generates the pattern once and copies it into every
    buffer; when the reader gets these buffers back unchanged it counts no
    error, however many there are, and its buffer and byte counters end up
    equal to the writer's. *)
Theorem stateless_pattern_loops_back_clean cfg pattern global_seed wpolls :
  supported cfg ->
  pattern_type cfg <> PATTERN_RANDOM ->
  (buffer_words <= length pattern)%nat ->
  let w := writer_thread_func cfg pattern global_seed zero_stats wpolls in
  let st := fst (reader_thread_func cfg true global_seed (fst w)
                   (map Some (snd w))) in
  stats_errors st = 0 /\
  rx_buffers st = tx_buffers st /\
  rx_bytes st = tx_bytes st.
Proof.
  intros Hs Hne Hlen. cbv zeta.
  destruct (loopback_run cfg pattern global_seed wpolls Hs Hlen)
    as (_ & Hall & He & _ & Hb & Hy).
  cbv zeta in Hall, He, Hb, Hy.
  split; [|split; [exact Hb | exact Hy]].
  unfold reader_thread_func.
  rewrite (reader_clean_run cfg global_seed Hs Hne _ _ _ Hall). exact He.
Qed.

(** The offsets [2048 + 11 * j] that the reader's seed takes against the
    writer's stay clear of the multiples of [2 ^ 32] for the first
    2342709248 values of [j]; the next one is [6 * 2 ^ 32]. *)
Lemma reader_offsets_off_period j :
  0 <= j < 2342709248 -> ~ (2 ^ 32 | 2048 + 11 * j).
Proof.
  intros Hj [c Hc].
  assert (Hc' : 0 < c < 6) by lia.
  assert (c = 1 \/ c = 2 \/ c = 3 \/ c = 4 \/ c = 5)
    as [-> | [-> | [-> | [-> | ->]]]] by lia; lia.
Qed.

(** X24.  In random mode a looped-back run fails from the second buffer
    on.  The writer sends the same pre-generated pattern in every buffer,
    while the reader carries its seed from one buffer to the next: the first
    buffer verifies clean and each later one is given up after eleven
    mismatches, for every seed.  After [n] buffers returned unchanged, [n]
    below 2342709250, the error counter is [11 * (n - 1)].  (Buffer
    2342709250 is the first for which the reader's seed is a multiple of
    [2 ^ 32] steps ahead of the writer's: [2048 + 11 * 2342709248] is
    [6 * 2 ^ 32].) *)
Theorem random_pattern_fails_after_the_first_buffer cfg pattern global_seed
    wpolls :
  pattern_type cfg = PATTERN_RANDOM ->
  (buffer_words <= length pattern)%nat ->
  let n := buffers_offered wpolls in
  1 <= n ->
  n < 2342709250 ->
  let w := writer_thread_func cfg pattern global_seed zero_stats wpolls in
  let st := fst (reader_thread_func cfg true global_seed (fst w)
                   (map Some (snd w))) in
  stats_errors st = 11 * (n - 1) /\
  rx_buffers st = n /\
  tx_buffers st = n.
Proof.
  intros E Hlen n Hn Hmax. cbv zeta.
  assert (Hs : supported cfg)
    by (unfold supported, PATTERN_SEQ, PATTERN_ALT; rewrite E;
        unfold PATTERN_RANDOM; lia).
  destruct (loopback_run cfg pattern global_seed wpolls Hs Hlen)
    as (Hlen' & Hall & He & Ht & Hb & _).
  cbv zeta in Hlen', Hall, He, Ht, Hb. fold n in Hlen', Ht.
  assert (Hu : u64 n = n) by (unfold u64; apply Z.mod_small; lia).
  rewrite Hu in Ht. split; [|split; [rewrite Hb; exact Ht | exact Ht]].
  unfold reader_thread_func.
  set (w := writer_thread_func cfg pattern global_seed zero_stats wpolls)
    in *.
  assert (Hwords : Forall (fun b => forall i, (i < buffer_words)%nat ->
                             nth i b 0 = lcg_iter (S i) global_seed) (snd w)).
  { eapply Forall_impl; [exact Hall|]. cbn. intros b Hb' i Hi.
    rewrite (Hb' i Hi). unfold expected_word. rewrite E. reflexivity. }
  destruct (snd w) as [|b rest]; [cbn [length] in Hlen'; lia|].
  inversion Hwords as [|? ? Hfirst Hrest]; subst.
  cbn [map fold_left].
  rewrite (reader_first_random cfg (fst w) global_seed b E Hfirst).
  cbn [length] in Hlen'.
  rewrite (reader_random_run cfg global_seed E rest buffer_words);
    cbn [count_rx stats_errors]; rewrite ?He;
    [lia | | lia | lia | exact Hrest].
  intros j Hj. change (Z.of_nat buffer_words) with 2048.
  apply reader_offsets_off_period. lia.
Qed.

End OptimizedV2Threads.

Section OptimizedV2Examples.

Import OptimizedV2.

(** The first and the fourth word of a random pattern. *)
Lemma random_words_are_pairwise_distinct_witness :
  let cfg := mk_config PATTERN_RANDOM false in
  (0 < 3 < 4)%nat /\
  nth 0 (fst (generate_pattern cfg (repeat 0 4) 4 1)) 0 <>
  nth 3 (fst (generate_pattern cfg (repeat 0 4) 4 1)) 0.
Proof.
  intros cfg. split; [lia|].
  apply (random_words_are_pairwise_distinct cfg (repeat 0 4) 4 1 0 3).
  - reflexivity.
  - cbn. lia.
  - vm_compute. discriminate.
  - lia.
Defined.

(** Four words in zeros mode. *)
Lemma verify_is_clean_only_on_expected_words_witness :
  let cfg := mk_config PATTERN_ZEROS false in
  errors (verify_pattern cfg [0; 0; 7; 0] 4 0) = 0 <->
  forall i, (i < 4)%nat -> nth i [0; 0; 7; 0] 0 = expected_word cfg 0 i.
Proof.
  intros cfg.
  apply (verify_is_clean_only_on_expected_words cfg [0; 0; 7; 0] 4 0).
  vm_compute. split; discriminate.
Defined.

(** Two buffers sent and returned in alternating mode. *)
Lemma stateless_pattern_loops_back_clean_witness :
  let cfg := mk_config PATTERN_ALT false in
  let buf := repeat 0 buffer_words in
  let w := writer_thread_func cfg buf 7 zero_stats [Some buf; None; Some buf]
  in
  let st := fst (reader_thread_func cfg true 7 (fst w) (map Some (snd w))) in
  stats_errors st = 0 /\
  rx_buffers st = tx_buffers st /\
  rx_bytes st = tx_bytes st.
Proof.
  intros cfg buf.
  apply (stateless_pattern_loops_back_clean cfg buf 7
           [Some buf; None; Some buf]).
  - vm_compute. split; discriminate.
  - discriminate.
  - unfold buf. rewrite repeat_length. apply Nat.le_refl.
Defined.

(** Three buffers sent and returned in random mode: 22 errors. *)
Lemma random_pattern_fails_after_the_first_buffer_witness :
  let cfg := mk_config PATTERN_RANDOM false in
  let buf := repeat 0 buffer_words in
  let w := writer_thread_func cfg buf 7 zero_stats [Some buf; Some buf;
                                                     Some buf] in
  let st := fst (reader_thread_func cfg true 7 (fst w) (map Some (snd w))) in
  stats_errors st = 11 * (3 - 1) /\
  rx_buffers st = 3 /\
  tx_buffers st = 3.
Proof.
  intros cfg buf.
  apply (random_pattern_fails_after_the_first_buffer cfg buf 7
           [Some buf; Some buf; Some buf]).
  - reflexivity.
  - unfold buf. rewrite repeat_length. apply Nat.le_refl.
  - vm_compute. discriminate.
  - vm_compute. reflexivity.
Defined.

End OptimizedV2Examples.

(** * The kernel latency test *)

Section KernelLatencyFacts.

Import KernelLatency.

Lemma effective_iterations_range requested :
  0 <= requested ->
  1 <= effective_iterations requested <= 100000 /\
  (1 <= requested <= 100000 -> effective_iterations requested = requested).
Proof.
  intros H. unfold effective_iterations.
  destruct (Z.gtb_spec requested 100000).
  - cbn. lia.
  - destruct (Z.eqb_spec requested 0); lia.
Qed.

Lemma latency_range dev i : 0 <= latency_ns dev i < 2 ^ 64.
Proof. unfold latency_ns, u64. apply Z.mod_pos_bound. lia. Qed.

(** The loop: it ends early exactly on a mismatch; otherwise the total is
    the sum of the latencies on 64 bits and the extremes bound them. *)
Lemma latency_sum_S dev i n :
  latency_sum dev i (S n) = latency_ns dev i + latency_sum dev (S i) n.
Proof. reflexivity. Qed.

Lemma measure_spec dev : forall n i acc,
  u64 (t_total acc) = t_total acc ->
  match measure dev n i acc with
  | None =>
      exists j, (i <= j < i + n)%nat /\ scratch dev j (test_val j) <> test_val j
  | Some acc' =>
      (forall j, (i <= j < i + n)%nat ->
         scratch dev j (test_val j) = test_val j) /\
      t_total acc' = u64 (t_total acc + latency_sum dev i n) /\
      t_min acc' <= t_min acc /\ t_max acc <= t_max acc' /\
      (forall j, (i <= j < i + n)%nat ->
         t_min acc' <= latency_ns dev j <= t_max acc') /\
      (t_min acc' = t_min acc \/
       exists j, (i <= j < i + n)%nat /\ t_min acc' = latency_ns dev j) /\
      (t_max acc' = t_max acc \/
       exists j, (i <= j < i + n)%nat /\ t_max acc' = latency_ns dev j)
  end.
Proof.
  induction n as [|n IH]; intros i acc Hacc.
  - cbn [measure]. change (latency_sum dev i 0) with 0.
    rewrite Z.add_0_r, Hacc.
    repeat split; try lia; try (intros j Hj; lia). all: left; reflexivity.
  - cbn [measure]. cbv zeta.
    destruct (Z.eqb_spec (scratch dev i (test_val i)) (test_val i))
      as [Hok|Hbad]; cbn [negb].
    2:{ exists i. split; [lia | exact Hbad]. }
    set (l := latency_ns dev i).
    set (acc1 := mk_totals _ _ _).
    assert (Hmin1 : t_min acc1 <= t_min acc /\ t_min acc1 <= l /\
                    (t_min acc1 = t_min acc \/ t_min acc1 = l)).
    { unfold acc1. cbn [t_min]. destruct (Z.ltb_spec l (t_min acc)); lia. }
    assert (Hmax1 : t_max acc <= t_max acc1 /\ l <= t_max acc1 /\
                    (t_max acc1 = t_max acc \/ t_max acc1 = l)).
    { unfold acc1. cbn [t_max]. destruct (Z.gtb_spec l (t_max acc)); lia. }
    specialize (IH (S i) acc1 (u64_idem _)).
    destruct (measure dev n (S i) acc1) as [acc'|].
    + destruct IH as (Hall & Htot & Hlo & Hhi & Hbound & Hmin & Hmax).
      split; [|split; [|split; [|split; [|split; [|split]]]]].
      * intros j Hj. destruct (Nat.eq_dec j i) as [->|Hne]; [exact Hok|].
        apply Hall. lia.
      * rewrite Htot. unfold acc1. cbn [t_total]. rewrite u64_add_l.
        rewrite latency_sum_S. fold l. f_equal. lia.
      * lia.
      * lia.
      * intros j Hj. destruct (Nat.eq_dec j i) as [->|Hne]; [fold l; lia|].
        apply Hbound. lia.
      * destruct Hmin as [E|(j & Hj & E)].
        -- destruct Hmin1 as (_ & _ & [E1|E1]); [left; lia|].
           right. exists i. split; [lia|]. fold l. lia.
        -- right. exists j. split; [lia | exact E].
      * destruct Hmax as [E|(j & Hj & E)].
        -- destruct Hmax1 as (_ & _ & [E1|E1]); [left; lia|].
           right. exists i. split; [lia|]. fold l. lia.
        -- right. exists j. split; [lia | exact E].
    + destruct IH as (j & Hj & Hbad). exists j. split; [lia | exact Hbad].
Qed.

Lemma latency_sum_bounds dev lo hi : forall n i,
  (forall j, (i <= j < i + n)%nat -> lo <= latency_ns dev j <= hi) ->
  Z.of_nat n * lo <= latency_sum dev i n <= Z.of_nat n * hi.
Proof.
  induction n as [|n IH]; intros i H.
  - change (latency_sum dev i 0) with 0. lia.
  - rewrite latency_sum_S.
    specialize (IH (S i) ltac:(intros j Hj; apply H; lia)).
    specialize (H i ltac:(lia)). lia.
Qed.

Lemma kernel_test_result dev lat :
  0 <= iterations lat ->
  let n := effective_iterations (iterations lat) in
  let r := litepcie_latency_test (Some dev) (Some lat) in
  (fst r = - EIO /\
   (exists j, (j < Z.to_nat n)%nat /\
              scratch dev j (test_val j) <> test_val j) /\
   snd r = Some (mk_latency n (min_ns lat) (max_ns lat) (avg_ns lat)
                   (total_ns lat))) \/
  (fst r = 0 /\
   (forall j, (j < Z.to_nat n)%nat ->
      scratch dev j (test_val j) = test_val j) /\
   exists lo hi,
     snd r = Some (mk_latency n lo hi
                     (u64 (latency_sum dev 0 (Z.to_nat n)) / n)
                     (u64 (latency_sum dev 0 (Z.to_nat n)))) /\
     (forall j, (j < Z.to_nat n)%nat -> lo <= latency_ns dev j <= hi) /\
     (exists j, (j < Z.to_nat n)%nat /\ lo = latency_ns dev j) /\
     (exists j, (j < Z.to_nat n)%nat /\ hi = latency_ns dev j)).
Proof.
  intros Hpos. cbv zeta.
  destruct (effective_iterations_range (iterations lat) Hpos) as (Hn & _).
  unfold litepcie_latency_test. cbv zeta.
  fold (effective_iterations (iterations lat)).
  set (n := effective_iterations (iterations lat)) in *.
  pose proof (measure_spec dev (Z.to_nat n) 0 (mk_totals ULLONG_MAX 0 0)
                eq_refl) as Hspec.
  destruct (measure dev (Z.to_nat n) 0 (mk_totals ULLONG_MAX 0 0))
    as [acc|].
  - right. destruct Hspec as (Hall & Htot & _ & _ & Hbound & Hmin & Hmax).
    cbn [t_total t_min t_max] in Htot, Hmin, Hmax. rewrite Z.add_0_l in Htot.
    split; [reflexivity|].
    split; [intros j Hj; apply Hall; lia|].
    exists (t_min acc), (t_max acc). rewrite Htot. cbn [fst snd].
    split; [reflexivity|].
    split; [intros j Hj; apply Hbound; lia|].
    pose proof (Hbound 0%nat ltac:(lia)) as H0.
    pose proof (latency_range dev 0).
    split.
    + destruct Hmin as [E|(j & Hj & E)]; [|exists j; split; [lia|exact E]].
      exists 0%nat. split; [lia|]. unfold ULLONG_MAX in E. lia.
    + destruct Hmax as [E|(j & Hj & E)]; [|exists j; split; [lia|exact E]].
      exists 0%nat. split; [lia|]. lia.
  - left. destruct Hspec as (j & Hj & Hbad).
    split; [reflexivity|]. split; [|reflexivity].
    exists j. split; [lia | exact Hbad].
Qed.

(** X25.  The kernel test bounds the work it does with interrupts off:
    whatever number of iterations is requested, it runs between 1 and
    100000 of them and writes that number back into the caller's
    structure; a request of 0 runs 1000, a request within the bounds is
    kept. *)
Theorem kernel_test_clamps_iterations dev lat :
  0 <= iterations lat ->
  exists lat',
    snd (litepcie_latency_test (Some dev) (Some lat)) = Some lat' /\
    1 <= iterations lat' <= 100000 /\
    (1 <= iterations lat <= 100000 -> iterations lat' = iterations lat) /\
    (iterations lat = 0 -> iterations lat' = 1000) /\
    (100000 < iterations lat -> iterations lat' = 100000).
Proof.
  intros Hpos.
  destruct (effective_iterations_range (iterations lat) Hpos) as (Hn & Hkeep).
  assert (H0 : iterations lat = 0 ->
               effective_iterations (iterations lat) = 1000)
    by (intros ->; reflexivity).
  assert (Hbig : 100000 < iterations lat ->
                 effective_iterations (iterations lat) = 100000).
  { intros H. unfold effective_iterations.
    destruct (Z.gtb_spec (iterations lat) 100000); [reflexivity | lia]. }
  destruct (kernel_test_result dev lat Hpos)
    as [(_ & _ & ->)|(_ & _ & lo & hi & -> & _)];
    eexists; (split; [reflexivity|]); cbn [iterations]; auto.
Qed.

(** X26.  The kernel test succeeds exactly when every read-back matches.
    It returns 0 if the scratch register returned the value written in each
    iteration, and [-EIO] otherwise; on [-EIO] the result fields of the
    caller's structure are left as they were, the measurements made before
    the mismatch being dropped. *)
Theorem kernel_test_fails_exactly_on_a_mismatch dev lat :
  0 <= iterations lat ->
  let n := effective_iterations (iterations lat) in
  let r := litepcie_latency_test (Some dev) (Some lat) in
  (fst r = 0 <->
   forall j, (j < Z.to_nat n)%nat ->
     scratch dev j (test_val j) = test_val j) /\
  (fst r <> 0 ->
   fst r = - EIO /\
   snd r = Some (mk_latency n (min_ns lat) (max_ns lat) (avg_ns lat)
                   (total_ns lat))).
Proof.
  intros Hpos. cbv zeta.
  destruct (kernel_test_result dev lat Hpos)
    as [(Hr & (j & Hj & Hbad) & Hs)|(Hr & Hall & _)]; cbv zeta in *.
  - split.
    + split; [rewrite Hr; discriminate|].
      intros Hall. exfalso. apply Hbad, Hall, Hj.
    + intros _. split; [exact Hr | exact Hs].
  - split; [split; [intros _; exact Hall | intros _; exact Hr]|].
    intros Hne. contradiction.
Qed.

(** X27.  What a successful kernel test reports.  [total_ns] is the sum of
    the measured latencies on 64 bits, [min_ns] and [max_ns] are the
    smallest and the largest of them, and [avg_ns] is the total divided by
    the number of iterations; unless the total wraps around, the average
    lies between the minimum and the maximum. *)
Theorem kernel_test_statistics dev lat :
  0 <= iterations lat ->
  fst (litepcie_latency_test (Some dev) (Some lat)) = 0 ->
  let n := effective_iterations (iterations lat) in
  let sum := latency_sum dev 0 (Z.to_nat n) in
  exists lat',
    snd (litepcie_latency_test (Some dev) (Some lat)) = Some lat' /\
    total_ns lat' = u64 sum /\
    avg_ns lat' = total_ns lat' / n /\
    (forall j, (j < Z.to_nat n)%nat ->
       min_ns lat' <= latency_ns dev j <= max_ns lat') /\
    (exists j, (j < Z.to_nat n)%nat /\ min_ns lat' = latency_ns dev j) /\
    (exists j, (j < Z.to_nat n)%nat /\ max_ns lat' = latency_ns dev j) /\
    (sum < 2 ^ 64 -> min_ns lat' <= avg_ns lat' <= max_ns lat').
Proof.
  intros Hpos Hok. cbv zeta.
  destruct (effective_iterations_range (iterations lat) Hpos) as (Hn & _).
  destruct (kernel_test_result dev lat Hpos)
    as [(Hr & _)|(_ & _ & lo & hi & Hs & Hbound & Hmin & Hmax)];
    cbv zeta in *; [rewrite Hr in Hok; discriminate|].
  set (n := effective_iterations (iterations lat)) in *.
  eexists. split; [exact Hs|]. cbn [total_ns avg_ns min_ns max_ns].
  split; [reflexivity|]. split; [reflexivity|].
  split; [exact Hbound|]. split; [exact Hmin|]. split; [exact Hmax|].
  intros Hsum.
  pose proof (latency_sum_bounds dev lo hi (Z.to_nat n) 0
                ltac:(intros j Hj; apply Hbound; lia)) as Hb.
  rewrite Z2Nat.id in Hb by lia.
  assert (H0 : 0 <= latency_sum dev 0 (Z.to_nat n)).
  { pose proof (latency_sum_bounds dev 0 (2 ^ 64) (Z.to_nat n) 0) as H.
    destruct H as (H & _); [|lia].
    intros j _. pose proof (latency_range dev j). lia. }
  unfold u64. rewrite Z.mod_small by lia. split.
  - apply Z.div_le_lower_bound; lia.
  - apply Z.div_le_upper_bound; lia.
Qed.

End KernelLatencyFacts.

Section KernelLatencyExamples.

Import KernelLatency.

(** A request for 500000 iterations. *)
Lemma kernel_test_clamps_iterations_witness :
  let dev := sound_device (fun i => 100 + Z.of_nat i) in
  let lat := mk_latency 500000 0 0 0 0 in
  exists lat',
    snd (litepcie_latency_test (Some dev) (Some lat)) = Some lat' /\
    1 <= iterations lat' <= 100000 /\
    (1 <= iterations lat <= 100000 -> iterations lat' = iterations lat) /\
    (iterations lat = 0 -> iterations lat' = 1000) /\
    (100000 < iterations lat -> iterations lat' = 100000).
Proof.
  intros dev lat. apply (kernel_test_clamps_iterations dev lat).
  cbn. lia.
Defined.

(** Five iterations on a device that returns a wrong value in the third. *)
Lemma kernel_test_fails_exactly_on_a_mismatch_witness :
  let dev := faulty_device 2 in
  let lat := mk_latency 5 11 12 13 14 in
  let n := effective_iterations (iterations lat) in
  let r := litepcie_latency_test (Some dev) (Some lat) in
  (fst r = 0 <->
   forall j, (j < Z.to_nat n)%nat ->
     scratch dev j (test_val j) = test_val j) /\
  (fst r <> 0 ->
   fst r = - EIO /\
   snd r = Some (mk_latency n (min_ns lat) (max_ns lat) (avg_ns lat)
                   (total_ns lat))).
Proof.
  intros dev lat.
  apply (kernel_test_fails_exactly_on_a_mismatch dev lat). cbn. lia.
Defined.

(** Three iterations of 100, 101 and 102 nanoseconds. *)
Lemma kernel_test_statistics_witness :
  let dev := sound_device (fun i => 100 + Z.of_nat i) in
  let lat := mk_latency 3 0 0 0 0 in
  let n := effective_iterations (iterations lat) in
  let sum := latency_sum dev 0 (Z.to_nat n) in
  exists lat',
    snd (litepcie_latency_test (Some dev) (Some lat)) = Some lat' /\
    total_ns lat' = u64 sum /\
    avg_ns lat' = total_ns lat' / n /\
    (forall j, (j < Z.to_nat n)%nat ->
       min_ns lat' <= latency_ns dev j <= max_ns lat') /\
    (exists j, (j < Z.to_nat n)%nat /\ min_ns lat' = latency_ns dev j) /\
    (exists j, (j < Z.to_nat n)%nat /\ max_ns lat' = latency_ns dev j) /\
    (sum < 2 ^ 64 -> min_ns lat' <= avg_ns lat' <= max_ns lat').
Proof.
  intros dev lat.
  apply (kernel_test_statistics dev lat).
  - cbn. lia.
  - vm_compute. reflexivity.
Defined.

End KernelLatencyExamples.

(** * The statistics of the simple DMA latency test *)

Section DmaLatencySimpleFacts.

Import DmaLatencySimple.

Lemma count_valid_from n latencies :
  fold_left (fun n l => if negb (l =? UINT64_MAX) then n + 1 else n)
            latencies n = n + count_valid latencies.
Proof.
  unfold count_valid. revert n.
  induction latencies as [|l rest IH]; intros n; cbn [fold_left]; [lia|].
  rewrite IH, (IH (if negb (l =? UINT64_MAX) then 0 + 1 else 0)).
  destruct (negb (l =? UINT64_MAX)); lia.
Qed.

Lemma count_valid_cons l rest :
  count_valid (l :: rest) =
  (if l =? UINT64_MAX then 0 else 1) + count_valid rest.
Proof.
  unfold count_valid at 1. cbn [fold_left]. rewrite count_valid_from.
  destruct (l =? UINT64_MAX); reflexivity.
Qed.

Lemma count_valid_range latencies :
  0 <= count_valid latencies <= Z.of_nat (length latencies).
Proof.
  induction latencies as [|l rest IH]; [cbn; lia|].
  rewrite count_valid_cons. cbn [length]. destruct (l =? UINT64_MAX); lia.
Qed.

Lemma count_valid_Permutation a b :
  Permutation a b -> count_valid a = count_valid b.
Proof.
  induction 1 as [|x a b _ IH|x y a|a b c _ IH1 _ IH2].
  - reflexivity.
  - rewrite !count_valid_cons, IH. reflexivity.
  - rewrite !count_valid_cons. lia.
  - congruence.
Qed.

(** When every entry from index [i] on is the failure mark, at most [i]
    entries are valid. *)
Lemma count_valid_upper a : forall i,
  (forall j, (i <= j < length a)%nat -> nth j a 0 = UINT64_MAX) ->
  count_valid a <= Z.of_nat i.
Proof.
  induction a as [|x a IH]; intros i H; [cbn; lia|].
  rewrite count_valid_cons. destruct i as [|i].
  - assert (Hx : x = UINT64_MAX) by (apply (H 0%nat); cbn; lia).
    rewrite Hx, Z.eqb_refl.
    specialize (IH 0%nat ltac:(intros j Hj; apply (H (S j)); cbn; lia)).
    lia.
  - specialize (IH i ltac:(intros j Hj; apply (H (S j)); cbn; lia)).
    destruct (x =? UINT64_MAX); lia.
Qed.

(** When every entry up to index [k] is valid, at least [k + 1] entries
    are. *)
Lemma count_valid_lower a : forall k,
  (k < length a)%nat ->
  (forall j, (j <= k)%nat -> nth j a 0 <> UINT64_MAX) ->
  Z.of_nat k + 1 <= count_valid a.
Proof.
  induction a as [|x a IH]; intros k Hk H; [cbn in Hk; lia|].
  rewrite count_valid_cons.
  destruct (Z.eqb_spec x UINT64_MAX) as [E|_];
    [exfalso; apply (H 0%nat); [lia | exact E]|].
  destruct k as [|k].
  - pose proof (count_valid_range a). lia.
  - specialize (IH k ltac:(cbn in Hk; lia)
                  ltac:(intros j Hj; apply (H (S j)); lia)).
    lia.
Qed.

Section Sorted.

Variable qsort : list Z -> list Z.
Hypothesis qsort_permutes : forall a, Permutation (qsort a) a.
Hypothesis qsort_ascending : forall a i j,
  (i <= j < length a)%nat -> nth i (qsort a) 0 <= nth j (qsort a) 0.

Variable latencies : list Z.
Hypothesis in_range : Forall (fun l => 0 <= l <= UINT64_MAX) latencies.

Lemma sorted_length : length (qsort latencies) = length latencies.
Proof. apply Permutation_length, qsort_permutes. Qed.

Lemma sorted_in_range j :
  (j < length latencies)%nat -> 0 <= nth j (qsort latencies) 0 <= UINT64_MAX.
Proof.
  intros Hj. rewrite List.Forall_forall in in_range. apply in_range.
  eapply Permutation_in; [apply qsort_permutes|].
  apply nth_In. rewrite sorted_length. exact Hj.
Qed.

(** The valid entries are the first [valid_count] of the sorted array. *)
Lemma sorted_valid_prefix i :
  (i < length latencies)%nat ->
  (Z.of_nat i < count_valid latencies <->
   nth i (qsort latencies) 0 <> UINT64_MAX).
Proof.
  intros Hi.
  rewrite <- (count_valid_Permutation _ _ (qsort_permutes latencies)).
  split.
  - intros Hlt E.
    pose proof (count_valid_upper (qsort latencies) i) as Hup.
    assert (count_valid (qsort latencies) <= Z.of_nat i); [|lia].
    apply Hup. intros j Hj. rewrite sorted_length in Hj.
    pose proof (qsort_ascending latencies i j ltac:(lia)).
    pose proof (sorted_in_range j ltac:(lia)). lia.
  - intros Hne.
    pose proof (count_valid_lower (qsort latencies) i) as Hlow.
    assert (Z.of_nat i + 1 <= count_valid (qsort latencies)); [|lia].
    apply Hlow; [rewrite sorted_length; exact Hi|].
    intros j Hj E.
    pose proof (qsort_ascending latencies j i ltac:(lia)).
    pose proof (sorted_in_range i Hi). lia.
Qed.

Lemma sorted_entry_from_valid i :
  Z.of_nat i < count_valid latencies ->
  from_valid latencies (Qmake (nth i (qsort latencies) 0) 1000).
Proof.
  intros Hi. pose proof (count_valid_range latencies) as Hr.
  assert (Hlen : (i < length latencies)%nat) by lia.
  exists (nth i (qsort latencies) 0). split; [|split; [|reflexivity]].
  - eapply Permutation_in; [apply qsort_permutes|].
    apply nth_In. rewrite sorted_length. exact Hlen.
  - pose proof (sorted_in_range i Hlen).
    apply sorted_valid_prefix in Hi; [|exact Hlen].
    unfold valid. lia.
Qed.

Lemma simple_stats_sound :
  0 < count_valid latencies ->
  count_valid latencies * 99 <= INT_MAX ->
  exists s,
    calculate_stats qsort latencies = Some s /\
    from_valid latencies (stat_min s) /\
    from_valid latencies (stat_max s) /\
    from_valid latencies (p50 s) /\ from_valid latencies (p90 s) /\
    from_valid latencies (p95 s) /\ from_valid latencies (p99 s) /\
    (forall l, In l latencies -> valid l ->
       (stat_min s <= Qmake l 1000)%Q /\ (Qmake l 1000 <= stat_max s)%Q) /\
    (stat_min s <= p50 s)%Q /\ (p50 s <= p90 s)%Q /\ (p90 s <= p95 s)%Q /\
    (p95 s <= p99 s)%Q /\ (p99 s <= stat_max s)%Q.
Proof.
  intros Hpos Hfit. unfold calculate_stats. cbv zeta.
  pose proof (count_valid_range latencies) as Hr.
  set (v := count_valid latencies) in *.
  destruct (Z.eqb_spec v 0) as [E|_]; [lia|].
  eexists. split; [reflexivity|]. cbn [stat_min stat_max p50 p90 p95 p99].
  rewrite !Z.quot_div_nonneg by lia.
  assert (Hfrom : forall idx, 0 <= idx < v ->
            from_valid latencies
              (Qmake (nth (Z.to_nat idx) (qsort latencies) 0) 1000)).
  { intros idx Hidx. apply sorted_entry_from_valid. fold v. lia. }
  assert (Hle : forall a b, 0 <= a <= b -> b < v ->
            (Qmake (nth (Z.to_nat a) (qsort latencies) 0%Z) 1000 <=
             Qmake (nth (Z.to_nat b) (qsort latencies) 0%Z) 1000)%Q).
  { intros a b Hab Hb. unfold Qle. cbn [Qnum Qden].
    apply Z.mul_le_mono_nonneg_r; [lia|]. apply qsort_ascending. lia. }
  assert (H50 : 0 <= v * 50 / 100 <= v * 90 / 100)
    by (Z.to_euclidean_division_equations; lia).
  assert (H90 : v * 90 / 100 <= v * 95 / 100)
    by (Z.to_euclidean_division_equations; lia).
  assert (H95 : v * 95 / 100 <= v * 99 / 100)
    by (Z.to_euclidean_division_equations; lia).
  assert (H99 : v * 99 / 100 <= v - 1)
    by (Z.to_euclidean_division_equations; lia).
  split; [apply (Hfrom 0); lia|]. split; [apply Hfrom; lia|].
  split; [apply Hfrom; lia|]. split; [apply Hfrom; lia|].
  split; [apply Hfrom; lia|]. split; [apply Hfrom; lia|].
  split.
  { intros l Hin Hvalid.
    apply (Permutation_in _ (Permutation_sym (qsort_permutes latencies)))
      in Hin.
    apply (In_nth _ _ 0) in Hin as (k & Hk & <-).
    rewrite sorted_length in Hk.
    assert (Hkv : Z.of_nat k < v).
    { apply sorted_valid_prefix; [exact Hk|]. unfold valid in Hvalid. lia. }
    rewrite <- (Nat2Z.id k).
    split; apply Hle; lia. }
  split; [apply (Hle 0); lia|]. split; [apply Hle; lia|].
  split; [apply Hle; lia|]. split; [apply Hle; lia | apply Hle; lia].
Qed.

End Sorted.

(** X28.  Failed measurements never enter the statistics of the simple DMA
    latency test, as long as the index [valid_count * 99] fits an [int],
    that is with at most 21691754 valid measurements ([main] puts no such
    bound on [-n]).  A failed measurement is stored as [UINT64_MAX];
    sorting moves these entries behind the [valid_count] valid ones, so the
    minimum, the maximum and the four percentiles are each the value of a
    valid measurement, the minimum and the maximum bound every valid
    measurement, and the six values are in ascending order.  [qsort] is
    any function that returns its input, every entry a [uint64_t], in
    ascending order. *)
Theorem failed_measurements_stay_out_of_the_statistics
    (qsort : list Z -> list Z) (latencies : list Z) :
  (forall a, Permutation (qsort a) a) ->
  (forall a i j, (i <= j < length a)%nat ->
     nth i (qsort a) 0 <= nth j (qsort a) 0) ->
  Forall (fun l => 0 <= l <= UINT64_MAX) latencies ->
  0 < count_valid latencies ->
  count_valid latencies * 99 <= INT_MAX ->
  exists s,
    calculate_stats qsort latencies = Some s /\
    from_valid latencies (stat_min s) /\
    from_valid latencies (stat_max s) /\
    from_valid latencies (p50 s) /\ from_valid latencies (p90 s) /\
    from_valid latencies (p95 s) /\ from_valid latencies (p99 s) /\
    (forall l, In l latencies -> valid l ->
       (stat_min s <= Qmake l 1000)%Q /\ (Qmake l 1000 <= stat_max s)%Q) /\
    (stat_min s <= p50 s)%Q /\ (p50 s <= p90 s)%Q /\ (p90 s <= p95 s)%Q /\
    (p95 s <= p99 s)%Q /\ (p99 s <= stat_max s)%Q.
Proof.
  intros Hperm Hasc Hrange Hpos Hfit.
  apply simple_stats_sound; assumption.
Qed.

End DmaLatencySimpleFacts.

Section DmaLatencySimpleExamples.

Import DmaLatencySimple.

(** Five measurements, two of them failed, sorted by the exchange sort of
    the DMA latency test. *)
Lemma failed_measurements_stay_out_of_the_statistics_witness :
  let qsort := fun a => DmaLatency.sort_samples (length a) a in
  let latencies := [7000; UINT64_MAX; 3000; UINT64_MAX; 5000] in
  exists s,
    calculate_stats qsort latencies = Some s /\
    from_valid latencies (stat_min s) /\
    from_valid latencies (stat_max s) /\
    from_valid latencies (p50 s) /\ from_valid latencies (p90 s) /\
    from_valid latencies (p95 s) /\ from_valid latencies (p99 s) /\
    (forall l, In l latencies -> valid l ->
       (stat_min s <= Qmake l 1000)%Q /\ (Qmake l 1000 <= stat_max s)%Q) /\
    (stat_min s <= p50 s)%Q /\ (p50 s <= p90 s)%Q /\ (p90 s <= p95 s)%Q /\
    (p95 s <= p99 s)%Q /\ (p99 s <= stat_max s)%Q.
Proof.
  intros qsort latencies.
  apply (failed_measurements_stay_out_of_the_statistics qsort latencies).
  - intros a. apply sort_samples_Permutation.
  - intros a i j Hij. apply sort_samples_sorted. exact Hij.
  - unfold latencies, UINT64_MAX. repeat constructor; lia.
  - vm_compute. reflexivity.
  - vm_compute. discriminate.
Defined.

End DmaLatencySimpleExamples.

(** * The user-space loopback latency tests *)

Section UserLatencyFacts.

Import UserLatency.

Lemma wait_own_spec id running polls : forall retry k consumed,
  match wait_own retry id running polls k consumed with
  | (Some read_data, c) =>
      exists n, (n < retry)%nat /\ polls (k + n)%nat = Some read_data /\
        nth 0 read_data 0 = id /\
        (forall m, (m <= n)%nat -> running (k + m)%nat = true) /\
        (forall m b, (m < n)%nat -> polls (k + m)%nat = Some b ->
                     nth 0 b 0 <> id) /\
        consumed <= c <= consumed + Z.of_nat n
  | (None, c) => consumed <= c <= consumed + Z.of_nat retry
  end.
Proof.
  induction retry as [|retry IH]; intros k consumed; cbn [wait_own].
  - lia.
  - destruct (running k) eqn:Erun; [|lia].
    assert (Hnext : forall n,
              (forall m, (m <= n)%nat -> running (S k + m)%nat = true) ->
              forall m, (m <= S n)%nat -> running (k + m)%nat = true).
    { intros n H m Hm. destruct m as [|m].
      - rewrite Nat.add_0_r. exact Erun.
      - replace (k + S m)%nat with (S k + m)%nat by lia. apply H. lia. }
    destruct (polls k) as [rd|] eqn:Ek.
    + destruct (Z.eqb_spec (nth 0 rd 0) id) as [Eid|Hne].
      * exists 0%nat. rewrite Nat.add_0_r.
        split; [lia|]. split; [exact Ek|]. split; [exact Eid|].
        split; [intros m Hm; assert (m = 0%nat) as -> by lia;
                rewrite Nat.add_0_r; exact Erun|].
        split; [intros m b Hm; lia | lia].
      * specialize (IH (S k) (consumed + 1)).
        destruct (wait_own retry id running polls (S k) (consumed + 1))
          as [[found|] c]; [|lia].
        destruct IH as (n & Hn & Hp & Hid & Hrun & Hbefore & Hc).
        exists (S n). replace (k + S n)%nat with (S k + n)%nat by lia.
        split; [lia|]. split; [exact Hp|]. split; [exact Hid|].
        split; [apply (Hnext n Hrun)|].
        split; [|lia]. intros m b Hm Hb.
        destruct m as [|m].
        -- rewrite Nat.add_0_r, Ek in Hb. congruence.
        -- apply (Hbefore m b); [lia|].
           replace (S k + m)%nat with (k + S m)%nat by lia. exact Hb.
    + specialize (IH (S k) consumed).
      destruct (wait_own retry id running polls (S k) consumed)
        as [[found|] c]; [|lia].
      destruct IH as (n & Hn & Hp & Hid & Hrun & Hbefore & Hc).
      exists (S n). replace (k + S n)%nat with (S k + n)%nat by lia.
      split; [lia|]. split; [exact Hp|]. split; [exact Hid|].
      split; [apply (Hnext n Hrun)|].
      split; [|lia]. intros m b Hm Hb.
      destruct m as [|m].
      -- rewrite Nat.add_0_r, Ek in Hb. discriminate.
      -- apply (Hbefore m b); [lia|].
         replace (S k + m)%nat with (k + S m)%nat by lia. exact Hb.
Qed.

(** The wait finds the first buffer that carries the ID, if the flag is
    still set when it is polled. *)
Lemma wait_own_finds id running polls read_data :
  forall retry k consumed n,
  (n < retry)%nat ->
  polls (k + n)%nat = Some read_data ->
  nth 0 read_data 0 = id ->
  (forall m, (m <= n)%nat -> running (k + m)%nat = true) ->
  (forall m b, (m < n)%nat -> polls (k + m)%nat = Some b ->
               nth 0 b 0 <> id) ->
  fst (wait_own retry id running polls k consumed) = Some read_data.
Proof.
  induction retry as [|retry IH];
    intros k consumed n Hn Hp Hid Hrun Hbefore; [lia|].
  cbn [wait_own].
  assert (Erun : running k = true)
    by (rewrite <- (Nat.add_0_r k); apply Hrun; lia).
  rewrite Erun. destruct n as [|n].
  - rewrite Nat.add_0_r in Hp. rewrite Hp.
    apply Z.eqb_eq in Hid. rewrite Hid. reflexivity.
  - assert (Hnext : forall c,
              fst (wait_own retry id running polls (S k) c) =
              Some read_data).
    { intros c. apply (IH (S k) c n); [lia| |exact Hid| |].
      - replace (S k + n)%nat with (k + S n)%nat by lia. exact Hp.
      - intros m Hm. replace (S k + m)%nat with (k + S m)%nat by lia.
        apply Hrun. lia.
      - intros m b Hm Hb. apply (Hbefore (S m) b); [lia|].
        replace (k + S m)%nat with (S k + m)%nat by lia. exact Hb. }
    destruct (polls k) as [b|] eqn:Ek; [|apply Hnext].
    destruct (Z.eqb_spec (nth 0 b 0) id) as [E|_]; [|apply Hnext].
    exfalso. apply (Hbefore 0%nat b); [lia| |exact E].
    rewrite Nat.add_0_r. exact Ek.
Qed.

(** A wait that finds the flag cleared at poll [n] returns no buffer when
    the packet was not among the polls before. *)
Lemma wait_own_interrupted id running polls :
  forall retry k consumed n,
  running (k + n)%nat = false ->
  (forall m b, (m < n)%nat -> polls (k + m)%nat = Some b ->
               nth 0 b 0 <> id) ->
  fst (wait_own retry id running polls k consumed) = None.
Proof.
  induction retry as [|retry IH]; intros k consumed n Hoff Hbefore;
    [reflexivity|].
  cbn [wait_own]. destruct n as [|n].
  - rewrite Nat.add_0_r in Hoff. rewrite Hoff. reflexivity.
  - destruct (running k); [|reflexivity].
    assert (Hnext : forall c,
              fst (wait_own retry id running polls (S k) c) = None).
    { intros c. apply (IH (S k) c n).
      - replace (S k + n)%nat with (k + S n)%nat by lia. exact Hoff.
      - intros m b Hm Hb. apply (Hbefore (S m) b); [lia|].
        replace (k + S m)%nat with (S k + m)%nat by lia. exact Hb. }
    destruct (polls k) as [b|] eqn:Ek; [|apply Hnext].
    destruct (Z.eqb_spec (nth 0 b 0) id) as [E|_]; [|apply Hnext].
    exfalso. apply (Hbefore 0%nat b); [lia| |exact E].
    rewrite Nat.add_0_r. exact Ek.
Qed.

Lemma check_data_spec i read_data idxs :
  check_data i read_data idxs = true <->
  forall j, In j idxs -> nth j read_data 0 = expected i j.
Proof.
  induction idxs as [|j rest IH]; cbn [check_data].
  - split; [intros _ j [] | reflexivity].
  - destruct (Z.eqb_spec (nth j read_data 0) (expected i j)) as [E|E];
      cbn [negb].
    + rewrite IH. split.
      * intros H k [<-|Hk]; [exact E | apply H; exact Hk].
      * intros H k Hk. apply H. right. exact Hk.
    + split; [discriminate|]. intros H. exfalso. apply E, H. left.
      reflexivity.
Qed.

Lemma packet_id_injective i i' :
  0 <= i < 2 ^ 32 -> 0 <= i' < 2 ^ 32 ->
  packet_id i' = packet_id i -> i' = i.
Proof.
  unfold packet_id, u64, test_pattern. intros Hi Hi' E.
  rewrite !Z.mod_small in E by lia. lia.
Qed.

(** Below [2 ^ 53] the conversion to [double] is exact. *)
Lemma double_of_u64_exact x :
  0 <= x < 2 ^ 53 -> double_of_u64 x = inject_Z x.
Proof.
  intros Hx. unfold double_of_u64. cbv zeta.
  assert (Hlog : Z.log2 x <= 52).
  { destruct (Z.eq_dec x 0) as [->|Hne]; [cbn; lia|].
    assert (Z.log2 x < 53) by (apply Z.log2_lt_pow2; lia). lia. }
  destruct (Z.leb_spec (Z.log2 x - 52) 0); [reflexivity | lia].
Qed.

(** X29.  An iteration of the user-space latency test measures only its
    own, intact packet.  The statistics change in an iteration only if,
    within the 1000 polls and with [keep_running] set at each of them, a
    buffer shows up whose first word is the ID of this iteration and whose
    [data_size] words are the ones written, every buffer polled before it
    carrying another ID; and they do change in that case, once a write
    buffer was obtained: the latency recorded is [end_time - start_time]
    converted to [double].  When the flag is found cleared before the
    packet has shown up, nothing is recorded.  Buffers with another ID are
    consumed, at most 1000 of them, and the IDs of different iterations
    differ, so the echo of another iteration is never measured. *)
Theorem iteration_measures_only_its_own_packet packet_size i env st :
  let data_size := Z.to_nat (packet_size / 8) in
  let st' := iteration packet_size i env st in
  let own k read_data :=
    (k < 1000)%nat /\ read_polls env k = Some read_data /\
    (forall m, (m <= k)%nat -> keep_running env m = true) /\
    (forall m b, (m < k)%nat -> read_polls env m = Some b ->
                 nth 0 b 0 <> packet_id i) /\
    nth 0 read_data 0 = packet_id i /\
    (forall j, (j < data_size)%nat -> nth j read_data 0 = expected i j) in
  let recorded :=
    record_latency (stats st)
      (double_of_u64 (u64 (end_time env - start_time env))) in
  (stats st' = stats st \/
   exists k read_data, own k read_data /\ stats st' = recorded) /\
  (forall w k read_data,
     wait_write 100 (write_polls env) 0 = Some w ->
     own k read_data -> stats st' = recorded) /\
  (forall k,
     keep_running env k = false ->
     (forall m b, (m < k)%nat -> read_polls env m = Some b ->
                  nth 0 b 0 <> packet_id i) ->
     stats st' = stats st) /\
  writer_sw_count st <= writer_sw_count st' <= writer_sw_count st + 1000 /\
  (forall i', 0 <= i < 2 ^ 32 -> 0 <= i' < 2 ^ 32 ->
     packet_id i' = packet_id i -> i' = i).
Proof.
  cbv zeta. unfold iteration. cbv zeta.
  split; [|split; [|split; [|split; [|apply packet_id_injective]]]].
  - destruct (wait_write 100 (write_polls env) 0); [|left; reflexivity].
    pose proof (wait_own_spec (packet_id i) (keep_running env)
                  (read_polls env) 1000 0 0) as Hspec.
    destruct (wait_own 1000 (packet_id i) (keep_running env)
                (read_polls env) 0 0) as [[rd|] c]; [|left; reflexivity].
    destruct Hspec as (n & Hn & Hp & Hid & Hrun & Hbefore & _).
    destruct (check_data i rd (seq 0 (Z.to_nat (packet_size / 8))))
      eqn:Hcheck; [|left; reflexivity].
    right. exists n, rd. cbn [stats]. split; [|reflexivity].
    split; [exact Hn|]. split; [exact Hp|]. split; [exact Hrun|].
    split; [exact Hbefore|].
    split; [exact Hid|]. intros j Hj.
    apply (proj1 (check_data_spec i rd _) Hcheck). apply in_seq. lia.
  - intros w k rd Hw (Hk & Hp & Hrun & Hbefore & Hid & Hwords). rewrite Hw.
    pose proof (wait_own_finds (packet_id i) (keep_running env)
                  (read_polls env) rd 1000 0 0 k
                  Hk Hp Hid Hrun Hbefore) as Hfound.
    destruct (wait_own 1000 (packet_id i) (keep_running env)
                (read_polls env) 0 0) as [found c].
    cbn [fst] in Hfound. subst found.
    assert (Hcheck : check_data i rd (seq 0 (Z.to_nat (packet_size / 8)))
                     = true).
    { apply check_data_spec. intros j Hj. apply in_seq in Hj.
      apply Hwords. lia. }
    rewrite Hcheck. reflexivity.
  - intros k Hoff Hbefore.
    destruct (wait_write 100 (write_polls env) 0); [|reflexivity].
    pose proof (wait_own_interrupted (packet_id i) (keep_running env)
                  (read_polls env) 1000 0 0 k Hoff Hbefore) as Hnone.
    destruct (wait_own 1000 (packet_id i) (keep_running env)
                (read_polls env) 0 0) as [found c].
    cbn [fst] in Hnone. subst found. reflexivity.
  - destruct (wait_write 100 (write_polls env) 0); [|lia].
    pose proof (wait_own_spec (packet_id i) (keep_running env)
                  (read_polls env) 1000 0 0) as Hspec.
    destruct (wait_own 1000 (packet_id i) (keep_running env)
                (read_polls env) 0 0) as [[rd|] c].
    + destruct Hspec as (n & Hn & _ & _ & _ & _ & Hc).
      destruct (check_data i rd _); cbn [writer_sw_count]; lia.
    + cbn [writer_sw_count]. lia.
Qed.

End UserLatencyFacts.

Section UserLatencyExamples.

Import UserLatency.

(** The conversion to [double] just above [2 ^ 53], where the [double]s
    are two apart, and at the top of the range of [uint64_t]. *)
Lemma double_of_u64_rounds :
  double_of_u64 (2 ^ 53 + 1) = inject_Z (2 ^ 53) /\
  double_of_u64 (2 ^ 53 + 2) = inject_Z (2 ^ 53 + 2) /\
  double_of_u64 (2 ^ 53 + 3) = inject_Z (2 ^ 53 + 4) /\
  double_of_u64 UINT64_MAX = inject_Z (2 ^ 64).
Proof. vm_compute. repeat split. Qed.

(** Iteration 7 with packets of 1024 bytes: the echo of iteration 6 comes
    back first and is consumed, the packet of iteration 7 is measured.  In
    a run interrupted after the first poll it is not. *)
Lemma iteration_measures_only_its_own_packet_witness :
  let env := stale_then_own (fill_packet 1024 6 128) (fill_packet 1024 7 128)
               1000 1042 in
  let env' := stale_then_interrupt (fill_packet 1024 6 128)
                (fill_packet 1024 7 128) 1000 1042 in
  let st := mk_state (mk_stats (1000000000 # 1) 0 0 0) 0 0 in
  stats (iteration 1024 7 env st) = record_latency (stats st) (inject_Z 42) /\
  stats (iteration 1024 7 env' st) = stats st.
Proof.
  intros env env' st. split.
  - apply (proj1 (proj2 (iteration_measures_only_its_own_packet 1024 7 env
                           st))
             tt 1%nat (fill_packet 1024 7 128)).
    + reflexivity.
    + split; [lia|]. split; [reflexivity|]. split; [reflexivity|].
      split; [|split].
      * intros m b Hm Hb. assert (m = 0%nat) as -> by lia.
        change (Some (fill_packet 1024 6 128) = Some b) in Hb.
        injection Hb as <-. vm_compute. discriminate.
      * vm_compute. reflexivity.
      * intros j Hj.
        apply (proj1 (check_data_spec 7 (fill_packet 1024 7 128)
                        (seq 0 (Z.to_nat (1024 / 8))))).
        -- vm_compute. reflexivity.
        -- apply in_seq. lia.
  - apply (proj1 (proj2 (proj2 (iteration_measures_only_its_own_packet 1024 7
                                  env' st))) 1%nat).
    + reflexivity.
    + intros m b Hm Hb. assert (m = 0%nat) as -> by lia.
      change (Some (fill_packet 1024 6 128) = Some b) in Hb.
      injection Hb as <-. vm_compute. discriminate.
Defined.

End UserLatencyExamples.

Section SimpleLoopbackFacts.

Import SimpleLoopback.

Lemma simple_wait_ext {B : Type} (polls polls' : nat -> option B) :
  (forall k, polls k = polls' k) ->
  forall retries k, wait_buffer retries polls k = wait_buffer retries polls' k.
Proof.
  intros H. induction retries as [|r IH]; intros k; cbn [wait_buffer];
    [reflexivity|].
  rewrite H. destruct (polls' k); [reflexivity | apply IH].
Qed.

Lemma simple_wait_map {A B : Type} (f : A -> B) (polls : nat -> option A) :
  forall retries k,
    option_map f (wait_buffer retries polls k) =
    wait_buffer retries (fun k => option_map f (polls k)) k.
Proof.
  induction retries as [|r IH]; intros k; cbn [wait_buffer]; [reflexivity|].
  destruct (polls k); [reflexivity | apply IH].
Qed.

Lemma simple_wait_first {B : Type} (polls : nat -> option B) b :
  forall retries k,
    wait_buffer retries polls k = Some b ->
    exists n, (n < retries)%nat /\ polls (k + n)%nat = Some b /\
              forall m, (m < n)%nat -> polls (k + m)%nat = None.
Proof.
  induction retries as [|r IH]; intros k; cbn [wait_buffer]; [discriminate|].
  destruct (polls k) as [b'|] eqn:Ek.
  - intros [= <-]. exists 0%nat. rewrite Nat.add_0_r.
    split; [lia|]. split; [exact Ek|]. intros m Hm. lia.
  - intros H. apply IH in H as (n & Hn & Hp & Hnone).
    exists (S n). replace (k + S n)%nat with (S k + n)%nat by lia.
    split; [lia|]. split; [exact Hp|]. intros m Hm.
    destruct m as [|m]; [rewrite Nat.add_0_r; exact Ek|].
    replace (k + S m)%nat with (S k + m)%nat by lia. apply Hnone. lia.
Qed.

Lemma check_words_spec iter read_data idxs :
  check_words iter read_data idxs = true <->
  forall i, In i idxs -> nth i read_data 0 = word iter i.
Proof.
  induction idxs as [|i rest IH]; cbn [check_words].
  - split; [intros _ i [] | reflexivity].
  - destruct (Z.eqb_spec (nth i read_data 0) (word iter i)) as [E|E];
      cbn [negb].
    + rewrite IH. split.
      * intros H k [<-|Hk]; [exact E | apply H; exact Hk].
      * intros H k Hk. apply H. right. exact Hk.
    + split; [discriminate|]. intros H. exfalso. apply E, H. left.
      reflexivity.
Qed.

Lemma check_words_prefix iter read_data n : forall idxs,
  Forall (fun i => (i < n)%nat) idxs ->
  check_words iter (firstn n read_data) idxs =
  check_words iter read_data idxs.
Proof.
  induction idxs as [|i rest IH]; intros H; [reflexivity|].
  inversion H as [|? ? Hi Hrest]; subst. cbn [check_words].
  rewrite nth_firstn. destruct (Nat.ltb_spec i n); [|lia].
  rewrite IH by exact Hrest. reflexivity.
Qed.

(** X30.  The simple loopback test looks at sixteen words of what comes
    back.  Two runs of an iteration in which the engine behaves alike,
    except for the words from index 16 on in the buffers it returns, end in
    the same state: a packet damaged behind its first sixteen words is
    measured like an intact one.  And an iteration counts as successful
    only if the first buffer to show up within the 1000 polls holds the
    sixteen words written. *)
Theorem simple_test_checks_only_sixteen_words iter env env' st :
  (forall k, write_polls env k = write_polls env' k) ->
  (forall k, option_map (firstn 16) (read_polls env k) =
             option_map (firstn 16) (read_polls env' k)) ->
  start_time env = start_time env' ->
  end_time env = end_time env' ->
  iteration iter env st = iteration iter env' st /\
  (successful (iteration iter env st) = successful st \/
   exists k read_data,
     (k < 1000)%nat /\ read_polls env k = Some read_data /\
     (forall m, (m < k)%nat -> read_polls env m = None) /\
     forall i, (i < 16)%nat -> nth i read_data 0 = word iter i).
Proof.
  intros Hw Hr Hs He. split.
  - unfold iteration.
    rewrite (simple_wait_ext _ _ Hw 100 0).
    destruct (wait_buffer 100 (write_polls env') 0); [|reflexivity].
    pose proof (simple_wait_map (firstn 16) (read_polls env) 1000 0) as H1.
    pose proof (simple_wait_map (firstn 16) (read_polls env') 1000 0) as H2.
    rewrite (simple_wait_ext _ _ Hr 1000 0), <- H2 in H1.
    destruct (wait_buffer 1000 (read_polls env) 0) as [rd|],
             (wait_buffer 1000 (read_polls env') 0) as [rd'|];
      cbn [option_map] in H1; try discriminate; [|reflexivity].
    injection H1 as H1. cbv zeta.
    assert (Hall : Forall (fun i => (i < 16)%nat) (seq 0 16))
      by (apply List.Forall_forall; intros i Hi; apply in_seq in Hi; lia).
    rewrite <- (check_words_prefix iter rd 16 _ Hall),
            <- (check_words_prefix iter rd' 16 _ Hall), H1, Hs, He.
    reflexivity.
  - unfold iteration.
    destruct (wait_buffer 100 (write_polls env) 0); [|left; reflexivity].
    destruct (wait_buffer 1000 (read_polls env) 0) as [rd|] eqn:Hwait;
      [|left; reflexivity].
    cbv zeta.
    destruct (check_words iter rd (seq 0 16)) eqn:Hcheck;
      [|left; reflexivity].
    right. apply simple_wait_first in Hwait as (n & Hn & Hp & Hnone).
    exists n, rd. split; [exact Hn|]. split; [exact Hp|].
    split; [exact Hnone|]. intros i Hi.
    apply (proj1 (check_words_spec iter rd _) Hcheck). apply in_seq. lia.
Qed.

End SimpleLoopbackFacts.

Section SimpleLoopbackExamples.

Import SimpleLoopback.

(** The words of iteration 3 come back intact in one run and with word 40
    cleared in the other. *)
Lemma simple_test_checks_only_sixteen_words_witness :
  let sent := fill_buffer (repeat 0 64) 3 in
  let env := prompt_env sent 1000 1042 in
  let env' := prompt_env (<[40%nat := 0]> sent) 1000 1042 in
  let st := mk_state UINT64_MAX 0 0 0 0 0 in
  iteration 3 env st = iteration 3 env' st /\
  (successful (iteration 3 env st) = successful st \/
   exists k read_data,
     (k < 1000)%nat /\ read_polls env k = Some read_data /\
     (forall m, (m < k)%nat -> read_polls env m = None) /\
     forall i, (i < 16)%nat -> nth i read_data 0 = word 3 i).
Proof.
  intros sent env env' st.
  apply (simple_test_checks_only_sixteen_words 3 env env' st).
  - intros k. unfold env, env', prompt_env. cbn [write_polls]. reflexivity.
  - intros k. unfold env, env', prompt_env. cbn [read_polls option_map].
    vm_compute. reflexivity.
  - unfold env, env', prompt_env. cbn [start_time]. reflexivity.
  - unfold env, env', prompt_env. cbn [end_time]. reflexivity.
Defined.

End SimpleLoopbackExamples.
